(** * UnrealLidarSensor: a shallow embedding of UnrealLidarSensor.cpp

    The sensor simulates a rotating multi-channel LiDAR.  The C++ source
    computes with IEEE-754 [float] (binary32) and, for the tick's
    delta-time, [double] (binary64).  Both are modelled with the
    executable specification of floating-point arithmetic of the standard
    library ([SpecFloat]), unsigned 32-bit integers are modelled as [Z].

    Everything the translation unit calls but does not define (the Unreal
    Engine, AirLib's [VectorMath], the NED transform) is a field of the
    record [Host] or of [NedTransform] and stays abstract in the theorems;
    the hosts of [Scenario] serve the closed examples. *)

From Stdlib Require Import String ZArith List Bool Lia.
From Stdlib Require Import SpecFloat.
Import ListNotations.

Set Implicit Arguments.
Local Open Scope Z_scope.

(** ** IEEE-754 arithmetic *)

Module IEEE.

(** A format is the pair (precision, exponent of the infinities). *)
Record format := Format { prec : Z; emax : Z }.

Definition binary32 := Format 24 128.
Definition binary64 := Format 53 1024.

Definition add (f : format) := SFadd (prec f) (emax f).
Definition sub (f : format) := SFsub (prec f) (emax f).
Definition mul (f : format) := SFmul (prec f) (emax f).
Definition div (f : format) := SFdiv (prec f) (emax f).

(** The C comparisons [<], [>], [<=], [==]; all false on NaN. *)
Definition ltb := SFltb.
Definition gtb (x y : spec_float) := SFltb y x.
Definition leb := SFleb.
Definition eqb := SFeqb.

(** Conversion of an integer to a float, rounding to nearest even:
    [static_cast<float>(i)], [float(n)] and the usual arithmetic
    conversions of an unsigned operand. *)
Definition of_Z (f : format) (n : Z) : spec_float :=
  binary_normalize (prec f) (emax f) n 0 false.

(** Conversion between formats: exact from [float] to [double], rounding
    to nearest even from [double] to [float]. *)
Definition convert (f : format) (x : spec_float) : spec_float :=
  match x with
  | S754_finite s m e =>
      binary_normalize (prec f) (emax f) (cond_Zopp s (Zpos m)) e s
  | _ => x
  end.

Definition is_nan (x : spec_float) : bool :=
  match x with S754_nan => true | _ => false end.

(** Neither an infinity nor a NaN. *)
Definition is_finite (x : spec_float) : bool :=
  match x with
  | S754_zero _ | S754_finite _ _ _ => true
  | _ => false
  end.

(** The magnitude [m * 2^e] truncated to an integer. *)
Definition trunc_mag (m : positive) (e : Z) : Z :=
  match e with
  | Zneg p => Z.shiftr (Zpos m) (Zpos p)
  | _ => Z.shiftl (Zpos m) e
  end.

(** The integer part of a finite float, rounding toward zero. *)
Definition truncate (x : spec_float) : option Z :=
  match x with
  | S754_zero _ => Some 0
  | S754_finite s m e => Some (cond_Zopp s (trunc_mag m e))
  | _ => None
  end.

(** The magnitude [m * 2^e] rounded to the nearest integer, a tie going
    to the integer that is further from zero. *)
Definition round_half_up_mag (m : positive) (e : Z) : Z :=
  match e with
  | Zneg p =>
      let d := Z.shiftl 1 (Zpos p) in
      let q := Zpos m / d in
      let r := Zpos m mod d in
      if d <=? 2 * r then q + 1 else q
  | _ => Z.shiftl (Zpos m) e
  end.

(** [FMath::RoundHalfFromZero] of the Unreal Engine (overloaded for
    [float] and [double]), by its documented contract: the nearest
    integer, equidistant ties going to the value further from zero;
    infinities and NaN are returned unchanged.  The result is a float of
    the same format. *)
Definition RoundHalfFromZero (f : format) (x : spec_float) : spec_float :=
  match x with
  | S754_finite s m e =>
      match e with
      | Zneg _ =>
          binary_normalize (prec f) (emax f)
            (cond_Zopp s (round_half_up_mag m e)) 0 s
      | _ => x
      end
  | _ => x
  end.

(** [std::fmod]: the exact remainder of [x / y] with the sign of [x]. *)
Definition fmod (f : format) (x y : spec_float) : spec_float :=
  match x, y with
  | S754_nan, _ | _, S754_nan => S754_nan
  | S754_infinity _, _ => S754_nan
  | _, S754_zero _ => S754_nan
  | S754_zero _, _ => x
  | S754_finite _ _ _, S754_infinity _ => x
  | S754_finite sx mx ex, S754_finite _ my ey =>
      let ez := Z.min ex ey in
      let X := Z.shiftl (Zpos mx) (ex - ez) in
      let Y := Z.shiftl (Zpos my) (ey - ez) in
      binary_normalize (prec f) (emax f) (cond_Zopp sx (X mod Y)) ez sx
  end.

End IEEE.

(** The C++ types [float] (AirLib's [real_T]) and [double] (AirLib's
    [TTimeDelta], the type of a delta-time). *)
Definition float : Type := spec_float.
Definition double : Type := spec_float.

Notation "x +f y" := (IEEE.add IEEE.binary32 x y) (at level 50, left associativity).
Notation "x -f y" := (IEEE.sub IEEE.binary32 x y) (at level 50, left associativity).
Notation "x *f y" := (IEEE.mul IEEE.binary32 x y) (at level 40, left associativity).
Notation "x /f y" := (IEEE.div IEEE.binary32 x y) (at level 40, left associativity).
Notation "x *d y" := (IEEE.mul IEEE.binary64 x y) (at level 40, left associativity).

(** [static_cast<float>] and [static_cast<double>] of an integer. *)
Definition f32 (n : Z) : float := IEEE.of_Z IEEE.binary32 n.
Definition f64 (n : Z) : double := IEEE.of_Z IEEE.binary64 n.

(** ** Data of the translation unit *)

(** [msr::airlib::Vector3r], an Eigen vector of three [float]s. *)
Record Vector3r := mkVector3r { vx : float; vy : float; vz : float }.

(** [msr::airlib::Quaternionr], constructed as [(w, x, y, z)]. *)
Record Quaternionr := mkQuaternionr
  { qw : float; qx : float; qy : float; qz : float }.

(** [msr::airlib::Pose]. *)
Record Pose := mkPose { position : Vector3r; orientation : Quaternionr }.

(** Unreal's [FVector], [FRotator] (constructed as [(Pitch, Yaw, Roll)])
    and [FQuat] (constructed as [(X, Y, Z, W)]). *)
Record FVector := mkFVector { FX : float; FY : float; FZ : float }.
Record FRotator := mkFRotator { Pitch : float; Yaw : float; Roll : float }.
Record FQuat := mkFQuat { QX : float; QY : float; QZ : float; QW : float }.

Inductive FColor := Blue | Red | Green.
Inductive LogDebugLevel := Informational | Success | Failure | Unimportant.

(** An actor of the scene, known by its identity only. *)
Inductive AActor := Actor (id : positive).

(** [msr::airlib::LidarSimpleParams] (AirLib's LidarSimpleParams.hpp), the
    fields this translation unit reads: the three counters are unsigned
    32-bit integers (the loops below run [0u] counters up to them), the
    angles and the range are [float]s. *)
Record LidarSimpleParams := mkParams {
  number_of_channels : Z;
  range : float;
  points_per_second : Z;
  horizontal_rotation_frequency : Z;
  vertical_FOV_upper : float;
  vertical_FOV_lower : float;
  ignore_pawn_collision : bool;
  draw_debug_points : bool
}.

(** [NedTransform]: the conversions between the local NED frame and
    Unreal's world frame. *)
Record NedTransform := mkNedTransform {
  fromLocalNed : Vector3r -> FVector;
  toLocalNed : FVector -> Vector3r
}.

(** The members of [UnrealLidarSensor]; [params_] is what the base class
    [LidarSimple] hands out through [getParams()]. *)
Record UnrealLidarSensor := mkSensor {
  params_ : LidarSimpleParams;
  actor_ : AActor;
  ned_transform_ : option NedTransform;
  laser_angles_ : list float;
  current_horizontal_angle_ : float;
  ignore_collision_actors_ : list AActor;
  ignore_pawn_collision_ : bool;
  draw_debug_points_ : bool
}.

(** What the sensor does to the outside, in the order it does it. *)
Inductive Event :=
| LogMessageString (prefix suffix : string) (level : LogDebugLevel)
| DrawDebugPoint (pos : FVector) (color : FColor)
| GetObstacle (actor : AActor) (start end_ : FVector)
              (ignore_actors : list AActor) (ignore_pawn : bool).

(** ** The collaborators

    The functions of the Unreal Engine and of AirLib that the translation
    unit calls, and the points where C++ leaves the result open. *)
Record Host := mkHost {
  (** [UAirBlueprintLib::GetObstacle]: the impact point of the first
      blocking hit between the two points, if any. *)
  raycast : AActor -> FVector -> FVector -> list AActor -> bool -> option FVector;
  IsInGameThread : bool;
  GetActorRotation : AActor -> FRotator;
  RotateVector : FRotator -> FVector -> FVector;
  UnrotateVector : FRotator -> FVector -> FVector;
  Rotator : FQuat -> FRotator;
  (** [dynamic_cast<AUrdfLink*>] succeeds, and [AUrdfLink::GetOwningActor]. *)
  is_AUrdfLink : AActor -> bool;
  GetOwningActor : AActor -> AActor;
  (** AirLib's [VectorMath] and [Utils]. *)
  rotateVector : Vector3r -> Quaternionr -> bool -> Vector3r;
  rotateQuaternion : Quaternionr -> Quaternionr -> bool -> Quaternionr;
  toQuaternion : float -> float -> float -> Quaternionr;
  degreesToRadians : float -> float;
  front : Vector3r;
  (** The content of the locals [poseRotator] and [actorRotator] of
      [shootLaser] after their declaration without an initializer: the
      default constructor of [FRotator] initializes nothing, and the two
      locals hold what was left in their place.  C++ does not say what
      that is: it may change from one call to the next and from one run
      to another, so it is taken for every call apart, from the object
      as the call finds it (its debug flag included) and the arguments
      of the call. *)
  uninitialized_poseRotator :
    UnrealLidarSensor -> Pose -> Pose -> Vector3r -> Z -> float ->
    LidarSimpleParams -> FRotator;
  uninitialized_actorRotator :
    UnrealLidarSensor -> Pose -> Pose -> Vector3r -> Z -> float ->
    LidarSimpleParams -> FRotator;
  (** What a conversion from floating point to [uint32] yields when the
      truncated value is not a [uint32] (C++ leaves it undefined). *)
  out_of_range_uint32 : spec_float -> Z;
  (** What [laser_angles_[i]] yields past the end of the vector. *)
  out_of_bounds_angle : float
}.

(** Conversion of a floating-point value to [uint32]: truncation toward
    zero. *)
Definition to_uint32 (H : Host) (v : spec_float) : Z :=
  match IEEE.truncate v with
  | Some t =>
      if (0 <=? t) && (t <? 2 ^ 32) then t
      else out_of_range_uint32 H v mod 2 ^ 32
  | None => out_of_range_uint32 H v mod 2 ^ 32
  end.

(** Eigen's and Unreal's vector arithmetic, component by component. *)
Definition Vector3r_Zero : Vector3r := mkVector3r (f32 0) (f32 0) (f32 0).
Definition FVector_ZeroVector : FVector := mkFVector (f32 0) (f32 0) (f32 0).

Definition Vector3r_add (a b : Vector3r) : Vector3r :=
  mkVector3r (vx a +f vx b) (vy a +f vy b) (vz a +f vz b).
Definition Vector3r_scale (a : Vector3r) (k : float) : Vector3r :=
  mkVector3r (vx a *f k) (vy a *f k) (vz a *f k).
Definition FVector_add (a b : FVector) : FVector :=
  mkFVector (FX a +f FX b) (FY a +f FY b) (FZ a +f FZ b).
Definition FVector_sub (a b : FVector) : FVector :=
  mkFVector (FX a -f FX b) (FY a -f FY b) (FZ a -f FZ b).
Definition FVector_scale (a : FVector) (k : float) : FVector :=
  mkFVector (FX a *f k) (FY a *f k) (FZ a *f k).

(** ** Methods run on the sensor object and leave a trace *)

Definition M (A : Type) : Type :=
  UnrealLidarSensor -> A * UnrealLidarSensor * list Event.

Definition ret {A} (a : A) : M A := fun this => (a, this, []).

Definition bind {A B} (m : M A) (k : A -> M B) : M B :=
  fun this =>
    let '(a, this1, t1) := m this in
    let '(b, this2, t2) := k a this1 in
    (b, this2, t1 ++ t2).

Notation "v <- m ;; k" := (bind m (fun v => k))
  (at level 61, m at next level, right associativity).
Notation "m ;;; k" := (bind m (fun _ => k))
  (at level 61, right associativity).

Definition this_ : M UnrealLidarSensor := fun this => (this, this, []).
Definition emit (e : Event) : M unit := fun this => (tt, this, [e]).
Definition when (b : bool) (m : M unit) : M unit := if b then m else ret tt.

(** Assignments to the members. *)
Definition set_laser_angles (l : list float) : M unit := fun this =>
  (tt, mkSensor (params_ this) (actor_ this) (ned_transform_ this) l
         (current_horizontal_angle_ this) (ignore_collision_actors_ this)
         (ignore_pawn_collision_ this) (draw_debug_points_ this), []).

Definition set_current_horizontal_angle (a : float) : M unit := fun this =>
  (tt, mkSensor (params_ this) (actor_ this) (ned_transform_ this)
         (laser_angles_ this) a (ignore_collision_actors_ this)
         (ignore_pawn_collision_ this) (draw_debug_points_ this), []).

Definition set_ignore_pawn_collision (b : bool) : M unit := fun this =>
  (tt, mkSensor (params_ this) (actor_ this) (ned_transform_ this)
         (laser_angles_ this) (current_horizontal_angle_ this)
         (ignore_collision_actors_ this) b (draw_debug_points_ this), []).

Definition set_draw_debug_points (b : bool) : M unit := fun this =>
  (tt, mkSensor (params_ this) (actor_ this) (ned_transform_ this)
         (laser_angles_ this) (current_horizontal_angle_ this)
         (ignore_collision_actors_ this) (ignore_pawn_collision_ this) b, []).

Definition set_ignore_collision_actors (l : list AActor) : M unit := fun this =>
  (tt, mkSensor (params_ this) (actor_ this) (ned_transform_ this)
         (laser_angles_ this) (current_horizontal_angle_ this) l
         (ignore_pawn_collision_ this) (draw_debug_points_ this), []).

(** [ignore_collision_actors_.Add(a)]. *)
Definition ignore_collision_actors_Add (a : AActor) : M unit :=
  this <- this_ ;; set_ignore_collision_actors (ignore_collision_actors_ this ++ [a]).

(** [laser_angles_.clear()] and [laser_angles_.emplace_back(v)]. *)
Definition laser_angles_clear : M unit := set_laser_angles [].
Definition laser_angles_emplace_back (v : float) : M unit :=
  this <- this_ ;; set_laser_angles (laser_angles_ this ++ [v]).

(** [for (auto i = 0u; i < n; ++i) body], threading the local data [acc]
    the body updates. *)
Fixpoint for_from {B} (count : nat) (i : Z) (body : Z -> B -> M B) (acc : B) : M B :=
  match count with
  | O => ret acc
  | S count' => acc' <- body i acc ;; for_from count' (i + 1) body acc'
  end.

Definition for_uint {B} (n : Z) (body : Z -> B -> M B) (acc : B) : M B :=
  for_from (Z.to_nat n) 0 body acc.

(** ** The methods of [UnrealLidarSensor] *)

Section Methods.

Variable H : Host.

(** [createLasers]: the vertical angle of every laser. *)
Definition createLasers (params : LidarSimpleParams) : M unit :=
  let number_of_lasers := number_of_channels params in
  if number_of_lasers <=? 0 then ret tt
  else if number_of_lasers =? 1 then
    laser_angles_clear ;;;
    laser_angles_emplace_back (f32 0)
  else
    let delta_angle :=
      (vertical_FOV_upper params -f vertical_FOV_lower params)
      /f f32 (number_of_lasers - 1) in
    laser_angles_clear ;;;
    for_uint number_of_lasers (fun i (_ : unit) =>
      let vertical_angle := vertical_FOV_upper params -f f32 i *f delta_angle in
      laser_angles_emplace_back vertical_angle) tt.

(** The members before the body of the constructor runs: the base class
    holds the parameters, the two pointers are stored, [laser_angles_] is
    an empty vector and the sweep starts at 0 degrees. *)
Definition member_init (params : LidarSimpleParams) (actor : AActor)
    (ned_transform : option NedTransform) : UnrealLidarSensor :=
  mkSensor params actor ned_transform [] (f32 0) [] false false.

(** The body of the constructor. *)
Definition construct : M unit :=
  this <- this_ ;;
  let params := params_ this in
  createLasers params ;;;
  set_ignore_pawn_collision (ignore_pawn_collision params) ;;;
  set_draw_debug_points (draw_debug_points params) ;;;
  set_ignore_collision_actors [] ;;;
  this <- this_ ;;
  when (ignore_pawn_collision_ this)
    (when (is_AUrdfLink H (actor_ this))
       (let owner := GetOwningActor H (actor_ this) in
        ignore_collision_actors_Add owner)).

Definition UnrealLidarSensor_new (params : LidarSimpleParams) (actor : AActor)
    (ned_transform : option NedTransform) : UnrealLidarSensor :=
  snd (fst (construct (member_init params actor ned_transform))).

Definition FVector_of (v : Vector3r) : FVector := mkFVector (vx v) (vy v) (vz v).
Definition Vector3r_of (v : FVector) : Vector3r := mkVector3r (FX v) (FY v) (FZ v).

(** [laser_angles_[laser]]. *)
Definition laser_angle (this : UnrealLidarSensor) (laser : Z) : float :=
  nth (Z.to_nat laser) (laser_angles_ this) (out_of_bounds_angle H).

(** [shootLaser]: one ray; the result is the returned flag and the
    out-parameter [point].  The Euler angles of the ray quaternions, the
    quaternion [www], [shootVec] and its length are computed in the source
    and never read: they are left out. *)
Definition shootLaser (lidar_pose vehicle_pose : Pose) (start : Vector3r)
    (laser : Z) (horizontalAngle : float) (params : LidarSimpleParams)
    : M (bool * Vector3r) :=
  this <- this_ ;;
  let vertical_angle := laser_angle this laser in
  let end_ := Vector3r_Zero in
  let endVec := FVector_ZeroVector in
  let startVec := FVector_of start in
  (* [FRotator rayRotator; FRotator poseRotator; FRotator actorRotator;]
     are declared without a value. *)
  let poseRotator :=
    uninitialized_poseRotator H this lidar_pose vehicle_pose start laser
      horizontalAngle params in
  let actorRotator :=
    uninitialized_actorRotator H this lidar_pose vehicle_pose start laser
      horizontalAngle params in
  let '(end_, endVec, poseRotator, actorRotator) :=
    match ned_transform_ this with
    | None =>
        let rayRotator := mkFRotator vertical_angle horizontalAngle (f32 0) in
        let poseRotator :=
          Rotator H (mkFQuat (qx (orientation lidar_pose)) (qy (orientation lidar_pose))
                             (qz (orientation lidar_pose)) (qw (orientation lidar_pose))) in
        let actorRotator := GetActorRotation H (actor_ this) in
        let endVec := mkFVector (f32 1) (f32 0) (f32 0) in
        let endVec := RotateVector H rayRotator endVec in
        let endVec := RotateVector H poseRotator endVec in
        let endVec := RotateVector H actorRotator endVec in
        let endVec := FVector_add (FVector_scale endVec (range params)) startVec in
        let end_ := Vector3r_of endVec in
        (end_, endVec, poseRotator, actorRotator)
    | Some _ =>
        let ray_q_l :=
          toQuaternion H (degreesToRadians H vertical_angle) (f32 0)
                         (degreesToRadians H horizontalAngle) in
        let ray_q_b := rotateQuaternion H ray_q_l (orientation lidar_pose) true in
        let ray_q_w := rotateQuaternion H ray_q_b (orientation vehicle_pose) true in
        (* [Vector3r end = ...]: a new local of the inner block; the [end]
           of the function body keeps its value. *)
        let end_inner :=
          Vector3r_add
            (Vector3r_scale (rotateVector H (front H) ray_q_w true) (range params))
            start in
        let endVec := FVector_of end_inner in
        (end_, endVec, poseRotator, actorRotator)
    end in
  let '(startVec, endVec) :=
    match ned_transform_ this with
    | Some ned => (fromLocalNed ned start, fromLocalNed ned end_)
    | None => (startVec, endVec)
    end in
  emit (GetObstacle (actor_ this) startVec endVec
          (ignore_collision_actors_ this) (ignore_pawn_collision_ this)) ;;;
  match raycast H (actor_ this) startVec endVec
          (ignore_collision_actors_ this) (ignore_pawn_collision_ this) with
  | Some ImpactPoint =>
      when (true && IsInGameThread H)
        (when (draw_debug_points_ this) (emit (DrawDebugPoint ImpactPoint Red))) ;;;
      match ned_transform_ this with
      | Some ned => ret (true, toLocalNed ned ImpactPoint)
      | None =>
          let diffVec := FVector_sub ImpactPoint startVec in
          let inActor := UnrotateVector H actorRotator diffVec in
          let inPose := UnrotateVector H poseRotator inActor in
          ret (true, Vector3r_of inPose)
      end
  | None =>
      when (draw_debug_points_ this) (emit (DrawDebugPoint endVec Green)) ;;;
      let diffVec := FVector_sub endVec startVec in
      let inActor := UnrotateVector H actorRotator diffVec in
      let inPose := UnrotateVector H poseRotator inActor in
      ret (true, Vector3r_of inPose)
  end.

Definition MAX_POINTS_IN_SCAN : float := f32 100000.

(** [getPointCloud]: the point cloud of one tick.  [point_cloud] is the
    caller's vector, passed by reference; the result is its content on
    return.  The product of the point rate (unsigned) and the delta-time
    ([double]) is a [double]; the quotient of the total (unsigned) by
    [float(number_of_lasers)] and the comparison of the total with the
    [float] constant are made on [float]s; the sweep of the tick is
    computed in [double] and stored in a [float]. *)
Definition getPointCloud (lidar_pose vehicle_pose : Pose) (delta_time : double)
    (point_cloud : list float) : M (list float) :=
  let point_cloud : list float := [] in
  this <- this_ ;;
  let params := params_ this in
  let number_of_lasers := number_of_channels params in
  let total_points_to_scan :=
    to_uint32 H (IEEE.RoundHalfFromZero IEEE.binary64
                   (f64 (points_per_second params) *d delta_time)) in
  total_points_to_scan <-
    (if IEEE.gtb (f32 total_points_to_scan) MAX_POINTS_IN_SCAN then
       emit (LogMessageString "Lidar: " "Capping number of points to scan" Failure) ;;;
       ret (to_uint32 H MAX_POINTS_IN_SCAN)
     else ret total_points_to_scan) ;;
  let points_to_scan_with_one_laser :=
    to_uint32 H (IEEE.RoundHalfFromZero IEEE.binary32
                   (f32 total_points_to_scan /f f32 number_of_lasers)) in
  if points_to_scan_with_one_laser <=? 0 then ret point_cloud
  else
    let angle_distance_of_tick : float :=
      IEEE.convert IEEE.binary32
        (IEEE.convert IEEE.binary64
           (f32 (horizontal_rotation_frequency params) *f f32 360)
         *d delta_time) in
    let angle_distance_of_laser_measure :=
      angle_distance_of_tick /f f32 points_to_scan_with_one_laser in
    let start := position vehicle_pose in
    let lidar_offset := position lidar_pose in
    let lidar_offset := rotateVector H lidar_offset (orientation vehicle_pose) true in
    let start := Vector3r_add start lidar_offset in
    when (draw_debug_points_ this) (emit (DrawDebugPoint (FVector_of start) Blue)) ;;;
    point_cloud <-
      for_uint number_of_lasers (fun laser point_cloud =>
        for_uint points_to_scan_with_one_laser (fun i point_cloud =>
          this <- this_ ;;
          let angle :=
            current_horizontal_angle_ this +f angle_distance_of_laser_measure *f f32 i in
          r <- shootLaser lidar_pose vehicle_pose start laser angle params ;;
          let '(hit, point) := r in
          if hit : bool then ret (point_cloud ++ [vx point; vy point; vz point])
          else ret point_cloud) point_cloud) point_cloud ;;
    this <- this_ ;;
    set_current_horizontal_angle
      (IEEE.fmod IEEE.binary32
         (current_horizontal_angle_ this +f angle_distance_of_tick) (f32 360)) ;;;
    ret point_cloud.

End Methods.

(** ** The quantities of one tick

    The locals of [getPointCloud] and of [shootLaser], as functions of
    what they are computed from; the theorems below relate the methods to
    them. *)

(** The values [i], [i + 1], ... a loop counter takes in [count] turns. *)
Fixpoint counters_from (i : Z) (count : nat) : list Z :=
  match count with
  | O => []
  | S count' => i :: counters_from (i + 1) count'
  end.

(** The values of the counter of [for (auto i = 0u; i < n; ++i)]. *)
Definition counters (n : Z) : list Z := counters_from 0 (Z.to_nat n).

Definition is_raycast (e : Event) : bool :=
  match e with GetObstacle _ _ _ _ _ => true | _ => false end.
Definition is_log (e : Event) : bool :=
  match e with LogMessageString _ _ _ => true | _ => false end.
Definition capacity_warning : Event :=
  LogMessageString "Lidar: " "Capping number of points to scan" Failure.

(** The sensor with another sweep angle. *)
Definition with_angle (this : UnrealLidarSensor) (a : float) : UnrealLidarSensor :=
  snd (fst (set_current_horizontal_angle a this)).

(** The sensor with another table of laser angles. *)
Definition with_lasers (this : UnrealLidarSensor) (l : list float) : UnrealLidarSensor :=
  snd (fst (set_laser_angles l this)).

(** The sensor with other debug-drawing flags: the member, and the field
    of the parameters it was copied from. *)
Definition with_debug (member field : bool) (this : UnrealLidarSensor)
    : UnrealLidarSensor :=
  let p := params_ this in
  mkSensor
    (mkParams (number_of_channels p) (range p) (points_per_second p)
       (horizontal_rotation_frequency p) (vertical_FOV_upper p)
       (vertical_FOV_lower p) (ignore_pawn_collision p) field)
    (actor_ this) (ned_transform_ this) (laser_angles_ this)
    (current_horizontal_angle_ this) (ignore_collision_actors_ this)
    (ignore_pawn_collision_ this) member.

(** Rounding half away from zero, as the specification words it, stated
    on the exact value [(-1)^s * m * 2^e] of a float and without the
    division of [IEEE.round_half_up_mag]: [k] is the value rounded when
    [|k| - 1/2 <= m * 2^e < |k| + 1/2] and [k] has the sign of the value
    (or is zero).  With [m * 2^e = num / den]:
    [(2|k| - 1) * den <= 2 * num < (2|k| + 1) * den]. *)
Definition rounds_half_away_to (v : spec_float) (k : Z) : bool :=
  match v with
  | S754_zero _ => k =? 0
  | S754_finite s m e =>
      let num := Zpos m * 2 ^ Z.max e 0 in
      let den := 2 ^ Z.max (- e) 0 in
      (k =? cond_Zopp s (Z.abs k))
      && ((2 * Z.abs k - 1) * den <=? 2 * num)
      && (2 * num <? (2 * Z.abs k + 1) * den)
  | _ => false
  end.

(** The integer a float rounds to, half away from zero, as a number. *)
Definition round_half_from_zero (v : spec_float) : option Z :=
  match v with
  | S754_zero _ => Some 0
  | S754_finite s m e => Some (cond_Zopp s (IEEE.round_half_up_mag m e))
  | _ => None
  end.

Section Tick.

Variable H : Host.

(** [FMath::RoundHalfFromZero(params.points_per_second * delta_time)]. *)
Definition rounded_total (p : LidarSimpleParams) (delta_time : double) : double :=
  IEEE.RoundHalfFromZero IEEE.binary64 (f64 (points_per_second p) *d delta_time).

(** [total_points_to_scan] before and after the cap. *)
Definition raw_total (p : LidarSimpleParams) (delta_time : double) : Z :=
  to_uint32 H (rounded_total p delta_time).

Definition capped (p : LidarSimpleParams) (delta_time : double) : bool :=
  IEEE.gtb (f32 (raw_total p delta_time)) MAX_POINTS_IN_SCAN.

Definition total_points_to_scan (p : LidarSimpleParams) (delta_time : double) : Z :=
  if capped p delta_time then to_uint32 H MAX_POINTS_IN_SCAN
  else raw_total p delta_time.

(** What the cap writes to the log. *)
Definition warning_of (this : UnrealLidarSensor) (delta_time : double) : list Event :=
  if capped (params_ this) delta_time then [capacity_warning] else [].

(** The budget of one laser, for a given total. *)
Definition per_laser (total channels : Z) : Z :=
  to_uint32 H (IEEE.RoundHalfFromZero IEEE.binary32 (f32 total /f f32 channels)).

Definition points_to_scan_with_one_laser (p : LidarSimpleParams)
    (delta_time : double) : Z :=
  per_laser (total_points_to_scan p delta_time) (number_of_channels p).

Definition angle_distance_of_tick (p : LidarSimpleParams) (delta_time : double)
    : float :=
  IEEE.convert IEEE.binary32
    (IEEE.convert IEEE.binary64 (f32 (horizontal_rotation_frequency p) *f f32 360)
     *d delta_time).

Definition angle_distance_of_laser_measure (p : LidarSimpleParams)
    (delta_time : double) : float :=
  angle_distance_of_tick p delta_time /f f32 (points_to_scan_with_one_laser p delta_time).

(** The origin of the rays of a tick. *)
Definition ray_origin (lidar_pose vehicle_pose : Pose) : Vector3r :=
  Vector3r_add (position vehicle_pose)
    (rotateVector H (position lidar_pose) (orientation vehicle_pose) true).

(** The horizontal angle of sample [i], from the sweep angle [sweep]. *)
Definition sample_angle (sweep : float) (p : LidarSimpleParams)
    (delta_time : double) (i : Z) : float :=
  sweep +f angle_distance_of_laser_measure p delta_time *f f32 i.

(** The sweep angle after the tick. *)
Definition advanced_angle (sweep : float) (p : LidarSimpleParams)
    (delta_time : double) : float :=
  IEEE.fmod IEEE.binary32 (sweep +f angle_distance_of_tick p delta_time) (f32 360).

(** The point and the trace of one call of [shootLaser]. *)
Definition shot_point (this : UnrealLidarSensor) (lidar_pose vehicle_pose : Pose)
    (start : Vector3r) (laser : Z) (horizontalAngle : float) : Vector3r :=
  snd (fst (fst (shootLaser H lidar_pose vehicle_pose start laser horizontalAngle
                   (params_ this) this))).

Definition shot_trace (this : UnrealLidarSensor) (lidar_pose vehicle_pose : Pose)
    (start : Vector3r) (laser : Z) (horizontalAngle : float) : list Event :=
  snd (shootLaser H lidar_pose vehicle_pose start laser horizontalAngle
         (params_ this) this).

(** Sample [i] of laser [laser] in a tick that starts from the sensor
    [this]: its point, its three coordinates and its trace. *)
Definition sample_point (this : UnrealLidarSensor) (lidar_pose vehicle_pose : Pose)
    (delta_time : double) (laser i : Z) : Vector3r :=
  shot_point this lidar_pose vehicle_pose (ray_origin lidar_pose vehicle_pose) laser
    (sample_angle (current_horizontal_angle_ this) (params_ this) delta_time i).

Definition sample_trace (this : UnrealLidarSensor) (lidar_pose vehicle_pose : Pose)
    (delta_time : double) (laser i : Z) : list Event :=
  shot_trace this lidar_pose vehicle_pose (ray_origin lidar_pose vehicle_pose) laser
    (sample_angle (current_horizontal_angle_ this) (params_ this) delta_time i).

Definition coordinates (v : Vector3r) : list float := [vx v; vy v; vz v].

(** The samples of a tick in emission order: laser by laser, and for
    each laser by increasing sample index. *)
Definition emission_order (p : LidarSimpleParams) (delta_time : double)
    : list (Z * Z) :=
  flat_map (fun laser =>
              map (fun i => (laser, i))
                  (counters (points_to_scan_with_one_laser p delta_time)))
           (counters (number_of_channels p)).

(** The two rotators of the direct-composition pipeline. *)
Definition pose_rotator (lidar_pose : Pose) : FRotator :=
  Rotator H (mkFQuat (qx (orientation lidar_pose)) (qy (orientation lidar_pose))
                     (qz (orientation lidar_pose)) (qw (orientation lidar_pose))).

(** The end of the ray in the direct-composition pipeline. *)
Definition direct_end (this : UnrealLidarSensor) (lidar_pose : Pose)
    (start : Vector3r) (laser : Z) (horizontalAngle : float) : FVector :=
  FVector_add
    (FVector_scale
       (RotateVector H (GetActorRotation H (actor_ this))
          (RotateVector H (pose_rotator lidar_pose)
             (RotateVector H
                (mkFRotator (laser_angle H this laser) horizontalAngle (f32 0))
                (mkFVector (f32 1) (f32 0) (f32 0)))))
       (range (params_ this)))
    (FVector_of start).

(** The un-rotation into the frame of the sensor, by the rotation of the
    actor and then by that of the mount. *)
Definition to_sensor_frame (this : UnrealLidarSensor) (lidar_pose : Pose)
    (v : FVector) : Vector3r :=
  Vector3r_of
    (UnrotateVector H (pose_rotator lidar_pose)
       (UnrotateVector H (GetActorRotation H (actor_ this)) v)).

(** The end of the ray in the quaternion-composition pipeline, as the
    specification describes it: the forward vector rotated by the ray
    quaternion (pitch = vertical angle, roll = 0, yaw = horizontal
    angle) taken into the body frame by the orientation of the mount and
    then by that of the vehicle, scaled by the range, from the origin. *)
Definition quaternion_end (this : UnrealLidarSensor) (lidar_pose vehicle_pose : Pose)
    (start : Vector3r) (laser : Z) (horizontalAngle : float) : Vector3r :=
  let ray_q_l :=
    toQuaternion H (degreesToRadians H (laser_angle H this laser)) (f32 0)
                   (degreesToRadians H horizontalAngle) in
  let ray_q_b := rotateQuaternion H ray_q_l (orientation lidar_pose) true in
  let ray_q_w := rotateQuaternion H ray_q_b (orientation vehicle_pose) true in
  Vector3r_add
    (Vector3r_scale (rotateVector H (front H) ray_q_w true) (range (params_ this)))
    start.

(** A tick as the caller states it, and a run of ticks. *)
Record Tick := mkTick {
  tick_lidar_pose : Pose;
  tick_vehicle_pose : Pose;
  tick_delta_time : double;
  tick_buffer : list float
}.

Definition tick (this : UnrealLidarSensor) (t : Tick) : UnrealLidarSensor :=
  snd (fst (getPointCloud H (tick_lidar_pose t) (tick_vehicle_pose t)
              (tick_delta_time t) (tick_buffer t) this)).

Definition run_ticks (ticks : list Tick) (this : UnrealLidarSensor)
    : UnrealLidarSensor :=
  fold_left tick ticks this.

End Tick.

(** The exact value of a float is [mantissa * 2^exponent]; two finite
    floats are compared exactly through their difference scaled to an
    integer.  [scaled e v] is [v * 2^(-e)], for [e] at most the exponent
    of [v]. *)
Definition scaled (e : Z) (v : spec_float) : Z :=
  match v with
  | S754_finite s m ev => cond_Zopp s (Z.shiftl (Zpos m) (ev - e))
  | _ => 0
  end.

Definition exponent_of (v : spec_float) : Z :=
  match v with S754_finite _ _ e => e | _ => 0 end.

(** The exact difference [a - b] in units of [2^e]. *)
Definition exact_difference (e : Z) (a b : spec_float) : Z := scaled e a - scaled e b.

(** An exponent below those of all the entries of a table. *)
Definition common_exponent (l : list float) : Z :=
  fold_right (fun v e => Z.min (exponent_of v) e) 0 l.

(** A table of finite angles is uniformly spaced when all the differences
    of consecutive entries are the same number. *)
Definition uniformly_spaced (l : list float) : Prop :=
  forall i j a a' b b',
    nth_error l i = Some a -> nth_error l (S i) = Some a' ->
    nth_error l j = Some b -> nth_error l (S j) = Some b' ->
    exact_difference (common_exponent l) a a'
    = exact_difference (common_exponent l) b b'.

(** Component by component, two points differ by at most [tol]. *)
Definition close_to (tol : float) (a b : Vector3r) : bool :=
  IEEE.leb (SFabs (vx a -f vx b)) tol
  && IEEE.leb (SFabs (vy a -f vy b)) tol
  && IEEE.leb (SFabs (vz a -f vz b)) tol.

(** ** Concrete hosts and sensors, to run the methods *)

Module Scenario.

(** The conversion a 64-bit x86 compiler emits for [double] or [float]
    to [uint32]: a truncating conversion to a signed 64-bit integer
    ([cvttsd2si], which yields [0x8000000000000000] when the value does
    not fit) of which the low 32 bits are kept. *)
Definition x86_64_conversion (v : spec_float) : Z :=
  match IEEE.truncate v with
  | Some t => if (- 2 ^ 63 <=? t) && (t <? 2 ^ 63) then t mod 2 ^ 32 else 0
  | None => 0
  end.

Definition identity_quaternion : Quaternionr :=
  mkQuaternionr (f32 1) (f32 0) (f32 0) (f32 0).
Definition zero_rotator : FRotator := mkFRotator (f32 0) (f32 0) (f32 0).

(** A host in which nothing is rotated and no ray hits anything: every
    rotation function is the identity (the poses below carry the
    identity orientation), the scene is empty. *)
Definition empty_scene : Host :=
  {| raycast := fun _ _ _ _ _ => None;
     IsInGameThread := true;
     GetActorRotation := fun _ => zero_rotator;
     RotateVector := fun _ v => v;
     UnrotateVector := fun _ v => v;
     Rotator := fun _ => zero_rotator;
     is_AUrdfLink := fun _ => false;
     GetOwningActor := fun a => a;
     rotateVector := fun v _ _ => v;
     rotateQuaternion := fun q _ _ => q;
     toQuaternion := fun _ _ _ => identity_quaternion;
     degreesToRadians := fun a => a;
     front := mkVector3r (f32 1) (f32 0) (f32 0);
     uninitialized_poseRotator := fun _ _ _ _ _ _ _ => zero_rotator;
     uninitialized_actorRotator := fun _ _ _ _ _ _ _ => zero_rotator;
     out_of_range_uint32 := x86_64_conversion;
     out_of_bounds_angle := f32 0 |}.

(** The same host with a wall: every ray hits at the given point. *)
Definition wall_at (p : FVector) : Host :=
  {| raycast := fun _ _ _ _ _ => Some p;
     IsInGameThread := true;
     GetActorRotation := fun _ => zero_rotator;
     RotateVector := fun _ v => v;
     UnrotateVector := fun _ v => v;
     Rotator := fun _ => zero_rotator;
     is_AUrdfLink := fun _ => false;
     GetOwningActor := fun a => a;
     rotateVector := fun v _ _ => v;
     rotateQuaternion := fun q _ _ => q;
     toQuaternion := fun _ _ _ => identity_quaternion;
     degreesToRadians := fun a => a;
     front := mkVector3r (f32 1) (f32 0) (f32 0);
     uninitialized_poseRotator := fun _ _ _ _ _ _ _ => zero_rotator;
     uninitialized_actorRotator := fun _ _ _ _ _ _ _ => zero_rotator;
     out_of_range_uint32 := x86_64_conversion;
     out_of_bounds_angle := f32 0 |}.

(** Half a turn about the vertical axis. *)
Definition half_turn : FRotator := mkFRotator (f32 0) (f32 180) (f32 0).

(** The empty scene again, with rotators that count: un-rotating by
    [half_turn] changes the sign of x and y, un-rotating by any other
    rotator of this host changes nothing.  In this host the two locals
    that are never assigned hold [half_turn] when the sensor draws, as
    after a call of [DrawDebugPoint] that left it there, and the zero
    rotator when it does not. *)
Definition stale_stack : Host :=
  {| raycast := fun _ _ _ _ _ => None;
     IsInGameThread := true;
     GetActorRotation := fun _ => zero_rotator;
     RotateVector := fun _ v => v;
     UnrotateVector := fun r v =>
       if IEEE.eqb (Yaw r) (f32 180)
       then mkFVector (SFopp (FX v)) (SFopp (FY v)) (FZ v)
       else v;
     Rotator := fun _ => zero_rotator;
     is_AUrdfLink := fun _ => false;
     GetOwningActor := fun a => a;
     rotateVector := fun v _ _ => v;
     rotateQuaternion := fun q _ _ => q;
     toQuaternion := fun _ _ _ => identity_quaternion;
     degreesToRadians := fun a => a;
     front := mkVector3r (f32 1) (f32 0) (f32 0);
     uninitialized_poseRotator := fun this _ _ _ _ _ _ =>
       if draw_debug_points_ this then half_turn else zero_rotator;
     uninitialized_actorRotator := fun _ _ _ _ _ _ _ => zero_rotator;
     out_of_range_uint32 := x86_64_conversion;
     out_of_bounds_angle := f32 0 |}.

(** A transform between frames that coincide. *)
Definition same_frame : NedTransform :=
  {| fromLocalNed := fun v => mkFVector (vx v) (vy v) (vz v);
     toLocalNed := fun v => mkVector3r (FX v) (FY v) (FZ v) |}.

Definition at_origin : Pose := mkPose Vector3r_Zero identity_quaternion.
Definition at_x (n : Z) : Pose :=
  mkPose (mkVector3r (f32 n) (f32 0) (f32 0)) identity_quaternion.

(** 0.1 and 1.0 seconds, as [double]s. *)
Definition tenth : double := IEEE.div IEEE.binary64 (f64 1) (f64 10).
Definition one_second : double := f64 1.

(** [channels] lasers between [upper] and [lower] degrees, a range of
    100, one revolution per second. *)
Definition params_fov (channels points_per_sec upper lower : Z) : LidarSimpleParams :=
  {| number_of_channels := channels;
     range := f32 100;
     points_per_second := points_per_sec;
     horizontal_rotation_frequency := 1;
     vertical_FOV_upper := f32 upper;
     vertical_FOV_lower := f32 lower;
     ignore_pawn_collision := false;
     draw_debug_points := false |}.

(** The same between +10 and -10 degrees. *)
Definition params_of (channels points_per_sec : Z) : LidarSimpleParams :=
  params_fov channels points_per_sec 10 (-10).

Definition sensor_of (H : Host) (channels points_per_sec : Z)
    (ned : option NedTransform) : UnrealLidarSensor :=
  UnrealLidarSensor_new H (params_of channels points_per_sec) (Actor 1) ned.

(** The sensor with its sweep at the given whole number of degrees. *)
Definition swept_to (deg : Z) (s : UnrealLidarSensor) : UnrealLidarSensor :=
  snd (fst (set_current_horizontal_angle (f32 deg) s)).

End Scenario.

Import Scenario.


(** ** The rays and the markers of a tick *)

Definition is_drawing (e : Event) : bool :=
  match e with DrawDebugPoint _ _ => true | _ => false end.

Section Rays_of_a_tick.

Variable H : Host.

(** The two points [GetObstacle] is given by [shootLaser]: [startVec] and
    [endVec] as they stand at the call. *)
Definition shot_start (this : UnrealLidarSensor) (start : Vector3r) : FVector :=
  match ned_transform_ this with
  | Some ned => fromLocalNed ned start
  | None => FVector_of start
  end.

Definition shot_end (this : UnrealLidarSensor) (lidar_pose : Pose) (start : Vector3r)
    (laser : Z) (horizontalAngle : float) : FVector :=
  match ned_transform_ this with
  | Some ned => fromLocalNed ned Vector3r_Zero
  | None => direct_end H this lidar_pose start laser horizontalAngle
  end.

(** What [GetObstacle] answers to that call. *)
Definition shot_answer (this : UnrealLidarSensor) (lidar_pose : Pose) (start : Vector3r)
    (laser : Z) (horizontalAngle : float) : option FVector :=
  raycast H (actor_ this) (shot_start this start)
    (shot_end this lidar_pose start laser horizontalAngle)
    (ignore_collision_actors_ this) (ignore_pawn_collision_ this).

(** The call of [GetObstacle] for sample [i] of laser [laser]. *)
Definition sample_ray (this : UnrealLidarSensor) (lidar_pose vehicle_pose : Pose)
    (delta_time : double) (laser i : Z) : Event :=
  GetObstacle (actor_ this)
    (shot_start this (ray_origin H lidar_pose vehicle_pose))
    (shot_end this lidar_pose (ray_origin H lidar_pose vehicle_pose) laser
       (sample_angle H (current_horizontal_angle_ this) (params_ this) delta_time i))
    (ignore_collision_actors_ this) (ignore_pawn_collision_ this).

(** The marker [shootLaser] draws for a sample when the sensor draws: red
    at the impact of a hit, on the game thread only; green at the end of a
    ray that hits nothing. *)
Definition sample_marker (this : UnrealLidarSensor) (lidar_pose vehicle_pose : Pose)
    (delta_time : double) (laser i : Z) : list Event :=
  let origin := ray_origin H lidar_pose vehicle_pose in
  let angle := sample_angle H (current_horizontal_angle_ this) (params_ this) delta_time i in
  match shot_answer this lidar_pose origin laser angle with
  | Some impact => if IsInGameThread H then [DrawDebugPoint impact Red] else []
  | None => [DrawDebugPoint (shot_end this lidar_pose origin laser angle) Green]
  end.

(** With a transform, what the raycast answers to the ray [shootLaser]
    casts from [start]: the ray from the image of [start] to the image of
    the zero vector. *)
Definition ned_answer (this : UnrealLidarSensor) (ned : NedTransform)
    (start : Vector3r) : option FVector :=
  raycast H (actor_ this) (fromLocalNed ned start) (fromLocalNed ned Vector3r_Zero)
    (ignore_collision_actors_ this) (ignore_pawn_collision_ this).

(** With a transform, the point of a call of [shootLaser] whose ray hits
    nothing: the difference of the two ends of the ray, un-rotated by the
    two rotators as this call finds them. *)
Definition ned_miss (this : UnrealLidarSensor) (ned : NedTransform)
    (lidar_pose vehicle_pose : Pose) (start : Vector3r) (laser : Z)
    (horizontalAngle : float) : Vector3r :=
  Vector3r_of
    (UnrotateVector H
       (uninitialized_poseRotator H this lidar_pose vehicle_pose start laser
          horizontalAngle (params_ this))
       (UnrotateVector H
          (uninitialized_actorRotator H this lidar_pose vehicle_pose start laser
             horizontalAngle (params_ this))
          (FVector_sub (fromLocalNed ned Vector3r_Zero) (fromLocalNed ned start)))).

(** The same for sample [i] of laser [laser] of a tick. *)
Definition sample_ned_miss (this : UnrealLidarSensor) (ned : NedTransform)
    (lidar_pose vehicle_pose : Pose) (delta_time : double) (laser i : Z) : Vector3r :=
  ned_miss this ned lidar_pose vehicle_pose (ray_origin H lidar_pose vehicle_pose) laser
    (sample_angle H (current_horizontal_angle_ this) (params_ this) delta_time i).

End Rays_of_a_tick.

(** ** The sweep angle *)

(** A float whose mantissa and exponent fit the format. *)
Definition fits (f : IEEE.format) (x : spec_float) : Prop :=
  match x with
  | S754_finite _ m e =>
      Zpos m < 2 ^ IEEE.prec f /\ emin (IEEE.prec f) (IEEE.emax f) <= e
  | _ => True
  end.

(** Not a number, or less than a full turn away from zero. *)
Definition within_a_turn (a : float) : bool :=
  IEEE.is_nan a || IEEE.ltb (SFabs a) (f32 360).

(** The sign bit of a float; a NaN has none. *)
Definition sign_bit (x : spec_float) : bool :=
  match x with
  | S754_zero s | S754_infinity s | S754_finite s _ _ => s
  | S754_nan => false
  end.

(** Not a number, or in [0, 360). *)
Definition in_first_turn (a : float) : bool :=
  IEEE.is_nan a || (IEEE.leb (f32 0) a && IEEE.ltb a (f32 360)).


(** * Properties

    ** Integers and floats *)

(** A number of [d] binary digits lies between [2^(d-1)] and [2^d], and
    conversely. *)
Lemma digits2_pos_bounds (p : positive) :
  2 ^ (Zpos (digits2_pos p) - 1) <= Zpos p < 2 ^ Zpos (digits2_pos p).
Proof.
  induction p as [p IH | p IH | ]; simpl digits2_pos.
  - rewrite Pos2Z.inj_succ.
    replace (Z.succ (Zpos (digits2_pos p)) - 1) with (Z.succ (Zpos (digits2_pos p) - 1)) by lia.
    rewrite !Z.pow_succ_r by lia. lia.
  - rewrite Pos2Z.inj_succ.
    replace (Z.succ (Zpos (digits2_pos p)) - 1) with (Z.succ (Zpos (digits2_pos p) - 1)) by lia.
    rewrite !Z.pow_succ_r by lia. lia.
  - simpl. lia.
Qed.

Lemma digits2_pos_unique (p : positive) (d : Z) :
  2 ^ (d - 1) <= Zpos p < 2 ^ d -> Zpos (digits2_pos p) = d.
Proof.
  intros [Hl Hu]. pose proof (digits2_pos_bounds p) as [Bl Bu].
  assert (0 < d).
  { destruct (Z_lt_le_dec 0 d) as [|Hd]; [assumption|].
    assert (2 ^ d <= 2 ^ 0) by (apply Z.pow_le_mono_r; lia). simpl in *. lia. }
  destruct (Z.lt_trichotomy (Zpos (digits2_pos p)) d) as [Hlt | [Heq | Hgt]]; [ | assumption | ].
  - assert (2 ^ Zpos (digits2_pos p) <= 2 ^ (d - 1)) by (apply Z.pow_le_mono_r; lia). lia.
  - assert (2 ^ d <= 2 ^ (Zpos (digits2_pos p) - 1)) by (apply Z.pow_le_mono_r; lia). lia.
Qed.

(** Appending [k] zero bits multiplies by [2^k]. *)
Lemma iter_xO_mul (p k : positive) : Zpos (Pos.iter xO p k) = Zpos p * 2 ^ Zpos k.
Proof.
  revert p. induction k using Pos.peano_ind; intros p.
  - simpl. lia.
  - rewrite Pos.iter_succ, Pos2Z.inj_succ, Z.pow_succ_r by lia.
    rewrite Pos2Z.inj_xO, IHk. lia.
Qed.

(** A mantissa that is already in its place is not rounded. *)
Lemma binary_round_aux_canonical (prec emax : Z) (s : bool) (m : positive) (e : Z) :
  canonical_mantissa prec emax m e = true -> e <= emax - prec ->
  binary_round_aux prec emax s (Zpos m) e loc_Exact = S754_finite s m e.
Proof.
  unfold canonical_mantissa. intros Hc He. apply Z.eqb_eq in Hc.
  unfold binary_round_aux, shr_fexp.
  cbn [Zdigits2 shr_record_of_loc]. rewrite Hc, Z.sub_diag.
  cbn [shr shr_m loc_of_shr_record round_nearest_even Zdigits2 shr_record_of_loc].
  rewrite Hc, Z.sub_diag. cbn [shr shr_m].
  apply Z.leb_le in He. rewrite He. reflexivity.
Qed.

(** Shifting right by [p] bits divides the mantissa by [2^p]. *)
Lemma shr_1_m (mrs : shr_record) :
  0 <= shr_m mrs -> shr_m (shr_1 mrs) = shr_m mrs / 2.
Proof.
  destruct mrs as [m r s]. cbn [shr_m shr_1]. intros Hm.
  destruct m as [ | [p | p | ] | p ]; cbn [shr_m]; try reflexivity; try lia.
  - rewrite Pos2Z.inj_xI. apply Z.div_unique with (r := 1); lia.
  - rewrite Pos2Z.inj_xO. apply Z.div_unique with (r := 0); lia.
Qed.

Lemma iter_shr_1_m (p : positive) :
  forall mrs, 0 <= shr_m mrs ->
    shr_m (iter_pos shr_1 p mrs) = shr_m mrs / 2 ^ Zpos p.
Proof.
  assert (Hnn : forall a b, 0 <= a -> 0 < b -> 0 <= a / b)
    by (intros; apply Z.div_pos; lia).
  induction p as [p IH | p IH | ]; intros mrs Hm; cbn [iter_pos].
  - assert (H1 : 0 <= shr_m (shr_1 mrs)) by (rewrite shr_1_m by lia; apply Hnn; lia).
    assert (H2 : 0 <= shr_m (iter_pos shr_1 p (shr_1 mrs)))
      by (rewrite IH by lia; apply Hnn; lia).
    rewrite IH by assumption. rewrite IH by assumption. rewrite shr_1_m by assumption.
    rewrite !Z.div_div by lia. f_equal.
    replace (Zpos p~1) with (Zpos p + Zpos p + 1) by lia.
    rewrite !Z.pow_add_r by lia. change (2 ^ 1) with 2. ring.
  - assert (H2 : 0 <= shr_m (iter_pos shr_1 p mrs))
      by (rewrite IH by lia; apply Hnn; lia).
    rewrite IH by assumption. rewrite IH by assumption.
    rewrite !Z.div_div by lia. f_equal.
    replace (Zpos p~0) with (Zpos p + Zpos p) by lia.
    rewrite !Z.pow_add_r by lia. ring.
  - rewrite shr_1_m by assumption. reflexivity.
Qed.

(** The mantissa of a shift record, and what rounding to nearest even may
    add to it. *)
Lemma shr_m_of_loc (m : Z) (l : location) : shr_m (shr_record_of_loc m l) = m.
Proof. destruct l as [ | [ | | ] ]; reflexivity. Qed.

Lemma round_nearest_even_bounds (m : Z) (l : location) :
  m <= round_nearest_even m l <= m + 1.
Proof.
  unfold round_nearest_even.
  destruct l as [ | [ | | ] ]; try destruct (Z.even m); lia.
Qed.

Section Format.
Variable f : IEEE.format.
Hypothesis prec_gt_1 : 1 < IEEE.prec f.
Hypothesis prec_lt_emax : IEEE.prec f < IEEE.emax f.

Let emin_neg : emin (IEEE.prec f) (IEEE.emax f) < 0.
Proof. unfold emin. lia. Qed.

(** An integer below [2^prec] is a float, exactly. *)
Lemma binary_round_small (s : bool) (n : positive) :
  Zpos n < 2 ^ IEEE.prec f ->
  exists m e, binary_round (IEEE.prec f) (IEEE.emax f) s n 0 = S754_finite s m e
              /\ e <= 0 /\ Zpos m = Zpos n * 2 ^ (- e)
              /\ Zpos (digits2_pos m) = IEEE.prec f.
Proof.
  intros Hn. pose proof (digits2_pos_bounds n) as [Bl Bu].
  set (d := Zpos (digits2_pos n)) in *.
  assert (Hd : d <= IEEE.prec f).
  { destruct (Z_le_gt_dec d (IEEE.prec f)) as [|Hgt]; [assumption|].
    assert (2 ^ IEEE.prec f <= 2 ^ (d - 1)) by (apply Z.pow_le_mono_r; lia). lia. }
  unfold binary_round, shl_align.
  assert (Hf : fexp (IEEE.prec f) (IEEE.emax f) (Zpos (digits2_pos n) + 0) = d - IEEE.prec f).
  { unfold fexp. fold d. pose proof emin_neg. unfold emin in *. lia. }
  rewrite Hf, Z.sub_0_r.
  destruct (d - IEEE.prec f) as [ | k | k ] eqn:Hk.
  - exists n, 0. split; [ | split; [lia | split; [ simpl; lia | fold d; lia ] ] ].
    apply binary_round_aux_canonical.
    + unfold canonical_mantissa. rewrite Hf. apply Z.eqb_eq. lia.
    + lia.
  - lia.
  - exists (Pos.iter xO n k), (Zneg k).
    assert (Hdig : Zpos (digits2_pos (Pos.iter xO n k)) = IEEE.prec f).
    { apply digits2_pos_unique. rewrite iter_xO_mul.
      replace (IEEE.prec f) with (d + Zpos k) by lia.
      replace (d + Zpos k - 1) with ((d - 1) + Zpos k) by lia.
      rewrite !Z.pow_add_r by lia. nia. }
    split; [ | split; [lia | split; [ rewrite iter_xO_mul; reflexivity | exact Hdig ] ] ].
    apply binary_round_aux_canonical.
    + unfold canonical_mantissa. rewrite Hdig. apply Z.eqb_eq.
      unfold fexp. pose proof emin_neg. unfold emin in *. lia.
    + lia.
Qed.

(** Shifting a positive mantissa to its place keeps it positive, and
    never lowers the exponent. *)
Lemma shr_fexp_pos (m : positive) (e : Z) (l : location) :
  emin (IEEE.prec f) (IEEE.emax f) <= e ->
  0 < shr_m (fst (shr_fexp (IEEE.prec f) (IEEE.emax f) (Zpos m) e l))
  /\ snd (shr_fexp (IEEE.prec f) (IEEE.emax f) (Zpos m) e l)
     = e + Z.max 0 (fexp (IEEE.prec f) (IEEE.emax f) (Zpos (digits2_pos m) + e) - e).
Proof.
  intros He. unfold shr_fexp, shr. cbn [Zdigits2].
  pose proof (digits2_pos_bounds m) as [Bl Bu].
  set (d := Zpos (digits2_pos m)) in *.
  destruct (fexp (IEEE.prec f) (IEEE.emax f) (d + e) - e) as [ | k | k ] eqn:Hk;
    cbn [fst snd].
  - rewrite shr_m_of_loc. lia.
  - split; [ | lia ].
    rewrite iter_shr_1_m by (rewrite shr_m_of_loc; lia).
    rewrite shr_m_of_loc.
    assert (Hkd : Zpos k = d - IEEE.prec f) by (unfold fexp in Hk; lia).
    apply Z.div_str_pos. split; [ apply Z.pow_pos_nonneg; lia | ].
    rewrite Hkd.
    assert (2 ^ (d - IEEE.prec f) <= 2 ^ (d - 1)) by (apply Z.pow_le_mono_r; lia).
    lia.
  - rewrite shr_m_of_loc. lia.
Qed.

(** Rounding a positive mantissa yields a positive float or overflows. *)
Lemma binary_round_aux_pos (s : bool) (m : positive) (e : Z) (l : location) :
  emin (IEEE.prec f) (IEEE.emax f) <= e ->
  (exists m' e',
      binary_round_aux (IEEE.prec f) (IEEE.emax f) s (Zpos m) e l = S754_finite s m' e'
      /\ e + Z.max 0 (fexp (IEEE.prec f) (IEEE.emax f) (Zpos (digits2_pos m) + e) - e) <= e')
  \/ binary_round_aux (IEEE.prec f) (IEEE.emax f) s (Zpos m) e l = S754_infinity s.
Proof.
  intros He. unfold binary_round_aux.
  pose proof (shr_fexp_pos m l He) as [P1 E1].
  destruct (shr_fexp (IEEE.prec f) (IEEE.emax f) (Zpos m) e l) as [mrs' e'].
  cbn [fst snd] in P1, E1.
  pose proof (round_nearest_even_bounds (shr_m mrs') (loc_of_shr_record mrs')) as R.
  destruct (round_nearest_even (shr_m mrs') (loc_of_shr_record mrs')) as [ | m1 | m1 ];
    try lia.
  assert (He' : emin (IEEE.prec f) (IEEE.emax f) <= e') by lia.
  pose proof (shr_fexp_pos m1 loc_Exact He') as [P2 E2].
  destruct (shr_fexp (IEEE.prec f) (IEEE.emax f) (Zpos m1) e' loc_Exact) as [mrs'' e''].
  cbn [fst snd] in P2, E2.
  destruct (shr_m mrs'') as [ | m2 | m2 ]; try lia.
  destruct (e'' <=? IEEE.emax f - IEEE.prec f).
  - left. exists m2, e''. split; [reflexivity | lia].
  - right. reflexivity.
Qed.

(** A positive integer converts to a positive float or overflows; from
    [2^prec] on, the exponent of the result is positive. *)
Lemma binary_round_pos (s : bool) (n : positive) :
  (exists m e, binary_round (IEEE.prec f) (IEEE.emax f) s n 0 = S754_finite s m e
               /\ (2 ^ IEEE.prec f <= Zpos n -> 1 <= e))
  \/ binary_round (IEEE.prec f) (IEEE.emax f) s n 0 = S754_infinity s.
Proof.
  pose proof emin_neg as Hemin.
  pose proof (digits2_pos_bounds n) as [Bl Bu].
  unfold binary_round, shl_align.
  set (d := Zpos (digits2_pos n)) in *.
  destruct (fexp (IEEE.prec f) (IEEE.emax f) (d + 0) - 0) as [ | k | k ] eqn:Hk.
  - destruct (@binary_round_aux_pos s n 0 loc_Exact) as [(m' & e' & Hr & Hb) | Hr];
      [ lia | left | right; exact Hr ].
    exists m', e'. split; [exact Hr | ].
    intros Hn. fold d in Hb.
    assert (2 ^ IEEE.prec f < 2 ^ d) by lia.
    assert (IEEE.prec f < d) by (apply Z.pow_lt_mono_r_iff with (a := 2); lia).
    unfold fexp in Hk. lia.
  - destruct (@binary_round_aux_pos s n 0 loc_Exact) as [(m' & e' & Hr & Hb) | Hr];
      [ lia | left | right; exact Hr ].
    exists m', e'. split; [exact Hr | ]. intros _. fold d in Hb. lia.
  - assert (Hf : emin (IEEE.prec f) (IEEE.emax f)
                 <= fexp (IEEE.prec f) (IEEE.emax f) (d + 0)) by (unfold fexp; lia).
    destruct (@binary_round_aux_pos s (Pos.iter xO n k) _ loc_Exact Hf)
      as [(m' & e' & Hr & Hb) | Hr]; [ left | right; exact Hr ].
    exists m', e'. split; [exact Hr | ].
    intros Hn.
    assert (2 ^ IEEE.prec f < 2 ^ d) by lia.
    assert (IEEE.prec f < d) by (apply Z.pow_lt_mono_r_iff with (a := 2); lia).
    unfold fexp in Hk. lia.
Qed.
End Format.


(** The two formats in use satisfy what the lemmas above ask of a format. *)
Lemma binary32_ok : 1 < IEEE.prec IEEE.binary32 /\ IEEE.prec IEEE.binary32 < IEEE.emax IEEE.binary32.
Proof. simpl; lia. Qed.

Lemma binary64_ok : 1 < IEEE.prec IEEE.binary64 /\ IEEE.prec IEEE.binary64 < IEEE.emax IEEE.binary64.
Proof. simpl; lia. Qed.

(** The comparison [total_points_to_scan > MAX_POINTS_IN_SCAN], made on
    [float]s, decides what it would decide on integers. *)
Lemma f32_gt_MAX_POINTS (n : Z) :
  0 <= n -> IEEE.gtb (f32 n) (f32 100000) = (100000 <? n).
Proof.
  intros Hn. destruct binary32_ok as [P1 P2].
  destruct n as [ | n | n ]; [ reflexivity | | lia ].
  change (f32 100000) with (S754_finite false 12800000 (-7)).
  unfold IEEE.gtb, SFltb, f32, IEEE.of_Z, binary_normalize.
  destruct (Z_lt_le_dec (Zpos n) (2 ^ 24)) as [Hs | Hl].
  - destruct (@binary_round_small _ P1 P2 false n Hs) as (m & e & -> & He & Hm & Hd).
    pose proof (digits2_pos_bounds m) as [Bl Bu]. rewrite Hd in Bl, Bu.
    change (IEEE.prec IEEE.binary32) with 24 in Bl, Bu.
    change (2 ^ (24 - 1)) with 8388608 in Bl. change (2 ^ 24) with 16777216 in Bu, Hs.
    cbn [SFcompare]. destruct (Z.compare_spec (-7) e) as [E | E | E].
    + subst e. change (2 ^ (- -7)) with 128 in Hm.
      change (Pos.compare_cont Eq 12800000 m) with (Z.compare 12800000 (Zpos m)).
      destruct (Z.compare_spec 12800000 (Zpos m)) as [C | C | C];
        symmetry; [ apply Z.ltb_ge | apply Z.ltb_lt | apply Z.ltb_ge ]; lia.
    + symmetry. apply Z.ltb_lt.
      assert (2 ^ (- e) <= 2 ^ 6) by (apply Z.pow_le_mono_r; lia).
      change (2 ^ 6) with 64 in *. nia.
    + symmetry. apply Z.ltb_ge.
      assert (2 ^ 8 <= 2 ^ (- e)) by (apply Z.pow_le_mono_r; lia).
      change (2 ^ 8) with 256 in *. nia.
  - assert (Hgt : 100000 < Zpos n) by (change (2 ^ 24) with 16777216 in Hl; lia).
    apply Z.ltb_lt in Hgt. rewrite Hgt.
    destruct (@binary_round_pos _ P1 P2 false n) as [(m & e & -> & He) | ->]; [ | reflexivity ].
    specialize (He Hl). cbn [SFcompare].
    destruct (Z.compare_spec (-7) e); first [ reflexivity | lia ].
Qed.

(** A counter converts to a float that is neither negative nor a NaN. *)
Lemma of_Z_nonneg (f : IEEE.format) (n : Z) :
  1 < IEEE.prec f -> IEEE.prec f < IEEE.emax f -> 0 <= n ->
  n = 0 /\ IEEE.of_Z f n = S754_zero false
  \/ 0 < n /\ ((exists m e, IEEE.of_Z f n = S754_finite false m e)
              \/ IEEE.of_Z f n = S754_infinity false).
Proof.
  intros P1 P2 Hn. destruct n as [ | n | n ]; [ left; split; reflexivity | right | lia ].
  split; [ lia | ]. unfold IEEE.of_Z, binary_normalize.
  destruct (@binary_round_pos _ P1 P2 false n) as [(m & e & Hr & _) | Hr];
    [ left; eauto | right; exact Hr ].
Qed.

Section Bounded.
Variable f : IEEE.format.
Hypothesis prec_gt_1 : 1 < IEEE.prec f.

(** A mantissa shifted to its place has at most [prec] digits. *)
Lemma shr_fexp_bounded (m : Z) (e : Z) (l : location) :
  0 <= m ->
  0 <= shr_m (fst (shr_fexp (IEEE.prec f) (IEEE.emax f) m e l)) < 2 ^ IEEE.prec f.
Proof.
  intros Hm. unfold shr_fexp, shr.
  assert (Hd : 0 <= m < 2 ^ Zdigits2 m /\ 0 <= Zdigits2 m).
  { destruct m as [ | p | p ]; cbn [Zdigits2]; [ simpl; lia | | lia ].
    pose proof (digits2_pos_bounds p). lia. }
  destruct Hd as [[_ Hu] Hd0].
  set (d := Zdigits2 m) in *.
  assert (Hk : d - IEEE.prec f <= fexp (IEEE.prec f) (IEEE.emax f) (d + e) - e)
    by (unfold fexp; lia).
  destruct (fexp (IEEE.prec f) (IEEE.emax f) (d + e) - e) as [ | k | k ];
    cbn [fst]; rewrite ?shr_m_of_loc.
  - split; [ assumption | ].
    assert (2 ^ d <= 2 ^ IEEE.prec f) by (apply Z.pow_le_mono_r; lia). lia.
  - rewrite iter_shr_1_m by (rewrite shr_m_of_loc; assumption).
    rewrite shr_m_of_loc. split.
    + apply Z.div_pos; [ assumption | apply Z.pow_pos_nonneg; lia ].
    + apply Z.div_lt_upper_bound; [ apply Z.pow_pos_nonneg; lia | ].
      rewrite <- Z.pow_add_r by lia.
      assert (2 ^ d <= 2 ^ (Zpos k + IEEE.prec f)) by (apply Z.pow_le_mono_r; lia).
      lia.
  - split; [ assumption | ].
    assert (2 ^ d <= 2 ^ IEEE.prec f) by (apply Z.pow_le_mono_r; lia). lia.
Qed.

(** The mantissa of a rounded result has at most [prec] digits. *)
Lemma binary_round_aux_bounded (s : bool) (m e : Z) (l : location)
    (s' : bool) (m' : positive) (e' : Z) :
  0 <= m ->
  binary_round_aux (IEEE.prec f) (IEEE.emax f) s m e l = S754_finite s' m' e' ->
  Zpos m' < 2 ^ IEEE.prec f.
Proof.
  intros Hm. unfold binary_round_aux.
  pose proof (shr_fexp_bounded e l Hm) as B1.
  destruct (shr_fexp (IEEE.prec f) (IEEE.emax f) m e l) as [mrs1 e1]. cbn [fst] in B1.
  pose proof (round_nearest_even_bounds (shr_m mrs1) (loc_of_shr_record mrs1)) as R.
  set (m2 := round_nearest_even (shr_m mrs1) (loc_of_shr_record mrs1)) in *.
  assert (Hm2 : 0 <= m2) by lia.
  pose proof (shr_fexp_bounded e1 loc_Exact Hm2) as B2.
  destruct (shr_fexp (IEEE.prec f) (IEEE.emax f) m2 e1 loc_Exact) as [mrs2 e2].
  cbn [fst] in B2.
  destruct (shr_m mrs2) as [ | q | q ]; try discriminate.
  destruct (e2 <=? IEEE.emax f - IEEE.prec f); try discriminate.
  intros E. injection E as _ <- _. lia.
Qed.

(** So has the mantissa of a finite product, and of a finite quotient. *)
Lemma mul_bounded (a b : spec_float) (s : bool) (m : positive) (e : Z) :
  IEEE.mul f a b = S754_finite s m e -> Zpos m < 2 ^ IEEE.prec f.
Proof.
  unfold IEEE.mul, SFmul.
  destruct a as [ | | | sa ma ea ], b as [ | | | sb mb eb ]; try discriminate.
  apply binary_round_aux_bounded. lia.
Qed.

Lemma div_bounded (a b : spec_float) (s : bool) (m : positive) (e : Z) :
  IEEE.div f a b = S754_finite s m e -> Zpos m < 2 ^ IEEE.prec f.
Proof.
  unfold IEEE.div, SFdiv.
  destruct a as [ | | | sa ma ea ], b as [ | | | sb mb eb ]; try discriminate.
  unfold SFdiv_core_binary.
  set (m' := match _ - _ - _ with Zpos _ => _ | Z0 => _ | Zneg _ => _ end).
  assert (Hm' : 0 <= m').
  { subst m'. destruct (_ - _ - _); [ lia | apply Z.shiftl_nonneg; lia | lia ]. }
  assert (Hq : 0 <= fst (Z.div_eucl m' (Zpos mb))).
  { change (fst (Z.div_eucl m' (Zpos mb))) with (m' / Zpos mb).
    apply Z.div_pos; lia. }
  destruct (Z.div_eucl m' (Zpos mb)) as [q r]. cbn [fst] in Hq.
  apply binary_round_aux_bounded. exact Hq.
Qed.
End Bounded.

(** [round_half_up_mag m e] is the integer [k] with
    [k - 1/2 <= m * 2^e < k + 1/2]. *)
Lemma round_half_up_mag_nearest (m p : positive) :
  let k := IEEE.round_half_up_mag m (Zneg p) in
  2 * k * 2 ^ Zpos p - 2 ^ Zpos p <= 2 * Zpos m < 2 * k * 2 ^ Zpos p + 2 ^ Zpos p.
Proof.
  unfold IEEE.round_half_up_mag. rewrite Z.shiftl_1_l.
  assert (Hd : 0 < 2 ^ Zpos p) by (apply Z.pow_pos_nonneg; lia).
  set (d := 2 ^ Zpos p) in *.
  pose proof (Z.div_mod (Zpos m) d ltac:(lia)) as E.
  pose proof (Z.mod_pos_bound (Zpos m) d Hd) as B.
  cbv zeta. destruct (Z.leb_spec d (2 * (Zpos m mod d))); nia.
Qed.

(** Rounding a value of magnitude below [2^prec] that has a fractional
    part yields an integer below [2^prec]. *)
Lemma round_half_up_mag_bound (prec : Z) (m p : positive) :
  1 < prec -> Zpos m < 2 ^ prec ->
  0 <= IEEE.round_half_up_mag m (Zneg p) < 2 ^ prec.
Proof.
  intros Hp Hm. pose proof (round_half_up_mag_nearest m p) as N. cbv zeta in N.
  set (k := IEEE.round_half_up_mag m (Zneg p)) in *.
  assert (Hd : 2 <= 2 ^ Zpos p).
  { change 2 with (2 ^ 1) at 1. apply Z.pow_le_mono_r; lia. }
  assert (2 ^ prec = 2 * 2 ^ (prec - 1)).
  { rewrite <- Z.pow_succ_r by lia. f_equal. lia. }
  assert (0 < 2 ^ (prec - 1)) by (apply Z.pow_pos_nonneg; lia).
  split; nia.
Qed.

(** [RoundHalfFromZero] returns, as a float, the integer the value rounds
    to. *)
Lemma RoundHalfFromZero_truncate (f : IEEE.format) (s : bool) (m : positive) (e : Z) :
  1 < IEEE.prec f -> IEEE.prec f < IEEE.emax f -> Zpos m < 2 ^ IEEE.prec f ->
  IEEE.truncate (IEEE.RoundHalfFromZero f (S754_finite s m e))
  = round_half_from_zero (S754_finite s m e).
Proof.
  intros P1 P2 Hm. unfold round_half_from_zero, IEEE.RoundHalfFromZero.
  destruct e as [ | p | p ]; try reflexivity.
  pose proof (@round_half_up_mag_bound _ m p P1 Hm) as [K0 K1].
  destruct (IEEE.round_half_up_mag m (Zneg p)) as [ | k | k ]; [ | | lia ].
  - destruct s; reflexivity.
  - assert (E : binary_normalize (IEEE.prec f) (IEEE.emax f) (cond_Zopp s (Zpos k)) 0 s
                = binary_round (IEEE.prec f) (IEEE.emax f) s k 0)
      by (destruct s; reflexivity).
    rewrite E.
    destruct (@binary_round_small _ P1 P2 s k K1) as (m' & e' & -> & He & Hm' & _).
    cbn [IEEE.truncate]. do 2 f_equal.
    unfold IEEE.trunc_mag. destruct e' as [ | q | q ]; [ simpl in *; lia | lia | ].
    rewrite Z.shiftr_div_pow2 by lia. rewrite Hm'.
    change (- Zneg q) with (Zpos q).
    apply Z.div_mul. apply Z.pow_nonzero; lia.
Qed.


(** ** Loops and calls *)

(** The values of a loop counter. *)
Lemma counters_from_length (count : nat) (i : Z) :
  List.length (counters_from i count) = count.
Proof. revert i. induction count; intros; simpl; auto. Qed.

Lemma counters_length (n : Z) : List.length (counters n) = Z.to_nat n.
Proof. apply counters_from_length. Qed.

Lemma counters_from_nth_error (count : nat) (i : Z) (k : nat) :
  (k < count)%nat -> nth_error (counters_from i count) k = Some (i + Z.of_nat k).
Proof.
  revert i k. induction count as [ | count IH ]; intros i k Hk; [ lia | ].
  destruct k as [ | k ]; simpl.
  - f_equal. lia.
  - rewrite IH by lia. f_equal. lia.
Qed.

(** A loop whose body appends to the local data and leaves the object
    untouched. *)
Lemma for_from_appends (A : Type) (body : Z -> list A -> M (list A))
    (g : Z -> list A) (t : Z -> list Event) (this : UnrealLidarSensor) :
  (forall j acc, body j acc this = (acc ++ g j, this, t j)) ->
  forall count i acc,
    for_from count i body acc this
    = (acc ++ flat_map g (counters_from i count), this,
       flat_map t (counters_from i count)).
Proof.
  intros Hbody. induction count as [ | count IH ]; intros i acc; simpl.
  - unfold ret. rewrite app_nil_r. reflexivity.
  - unfold bind. rewrite Hbody, IH. rewrite app_assoc. reflexivity.
Qed.

Section Calls.
Variable H : Host.

(** [shootLaser] always reports a point, and leaves the object as it
    is. *)
Lemma shootLaser_run (this : UnrealLidarSensor) (lidar_pose vehicle_pose : Pose)
    (start : Vector3r) (laser : Z) (horizontalAngle : float) :
  shootLaser H lidar_pose vehicle_pose start laser horizontalAngle (params_ this) this
  = ((true, shot_point H this lidar_pose vehicle_pose start laser horizontalAngle),
     this,
     shot_trace H this lidar_pose vehicle_pose start laser horizontalAngle).
Proof.
  unfold shot_point, shot_trace, shootLaser, bind, this_, emit, when, ret.
  destruct (ned_transform_ this) as [ ned | ];
    match goal with
    | |- context [ raycast H ?a ?b ?c ?d ?e ] => destruct (raycast H a b c d e)
    end;
    destruct (IsInGameThread H), (draw_debug_points_ this); reflexivity.
Qed.

(** The two nested loops of [getPointCloud]. *)
Lemma shoot_all (this : UnrealLidarSensor) (lidar_pose vehicle_pose : Pose)
    (start : Vector3r) (measure : float) (per n : Z) (acc : list float) :
  for_uint n (fun laser point_cloud =>
    for_uint per (fun i point_cloud =>
      this' <- this_ ;;
      r <- shootLaser H lidar_pose vehicle_pose start laser
             (current_horizontal_angle_ this' +f measure *f f32 i) (params_ this) ;;
      let '(hit, point) := r in
      if hit : bool then ret (point_cloud ++ [vx point; vy point; vz point])
      else ret point_cloud) point_cloud) acc this
  = (acc ++ flat_map (fun laser =>
              flat_map (fun i =>
                coordinates
                  (shot_point H this lidar_pose vehicle_pose start laser
                     (current_horizontal_angle_ this +f measure *f f32 i)))
                (counters per))
              (counters n),
     this,
     flat_map (fun laser =>
       flat_map (fun i =>
         shot_trace H this lidar_pose vehicle_pose start laser
           (current_horizontal_angle_ this +f measure *f f32 i))
         (counters per))
       (counters n)).
Proof.
  unfold for_uint, counters.
  apply for_from_appends with
    (g := fun laser =>
            flat_map (fun i =>
              coordinates
                (shot_point H this lidar_pose vehicle_pose start laser
                   (current_horizontal_angle_ this +f measure *f f32 i)))
              (counters_from 0 (Z.to_nat per)))
    (t := fun laser =>
            flat_map (fun i =>
              shot_trace H this lidar_pose vehicle_pose start laser
                (current_horizontal_angle_ this +f measure *f f32 i))
              (counters_from 0 (Z.to_nat per))).
  intros laser acc'.
  apply for_from_appends with
    (g := fun i =>
            coordinates
              (shot_point H this lidar_pose vehicle_pose start laser
                 (current_horizontal_angle_ this +f measure *f f32 i)))
    (t := fun i =>
            shot_trace H this lidar_pose vehicle_pose start laser
              (current_horizontal_angle_ this +f measure *f f32 i)).
  intros i acc''. unfold bind at 1, this_ at 1. unfold bind at 1.
  rewrite shootLaser_run. unfold ret, coordinates.
  rewrite app_nil_r. reflexivity.
Qed.

(** What a tick returns, leaves in the object and does, in terms of the
    quantities of the tick. *)
Lemma getPointCloud_run (this : UnrealLidarSensor) (lidar_pose vehicle_pose : Pose)
    (delta_time : double) (point_cloud : list float) :
  getPointCloud H lidar_pose vehicle_pose delta_time point_cloud this
  = let p := params_ this in
    let per := points_to_scan_with_one_laser H p delta_time in
    if per <=? 0 then ([], this, warning_of H this delta_time)
    else
      (flat_map (fun laser =>
         flat_map (fun i =>
           coordinates (sample_point H this lidar_pose vehicle_pose delta_time laser i))
           (counters per))
         (counters (number_of_channels p)),
       with_angle this (advanced_angle (current_horizontal_angle_ this) p delta_time),
       warning_of H this delta_time
       ++ (if draw_debug_points_ this
           then [DrawDebugPoint (FVector_of (ray_origin H lidar_pose vehicle_pose)) Blue]
           else [])
       ++ flat_map (fun laser =>
            flat_map (fun i =>
              sample_trace H this lidar_pose vehicle_pose delta_time laser i)
              (counters per))
            (counters (number_of_channels p))).
Proof.
  cbv zeta.
  unfold sample_point, sample_trace, sample_angle, advanced_angle,
    angle_distance_of_laser_measure, angle_distance_of_tick, ray_origin.
  unfold getPointCloud, warning_of, points_to_scan_with_one_laser,
    total_points_to_scan, capped, raw_total, rounded_total.
  unfold bind at 1. unfold this_ at 1.
  unfold bind at 1.
  set (raw := to_uint32 H _).
  assert (Hloops : forall per,
    (if per <=? 0 then ret []
     else
       when (draw_debug_points_ this)
         (emit (DrawDebugPoint
                  (FVector_of
                     (Vector3r_add (position vehicle_pose)
                        (rotateVector H (position lidar_pose)
                           (orientation vehicle_pose) true))) Blue)) ;;;
       point_cloud0 <-
         for_uint (number_of_channels (params_ this)) (fun laser point_cloud0 =>
           for_uint per (fun i point_cloud1 =>
             this0 <- this_ ;;
             r <- shootLaser H lidar_pose vehicle_pose
                    (Vector3r_add (position vehicle_pose)
                       (rotateVector H (position lidar_pose)
                          (orientation vehicle_pose) true))
                    laser
                    (current_horizontal_angle_ this0
                     +f IEEE.convert IEEE.binary32
                          (IEEE.convert IEEE.binary64
                             (f32 (horizontal_rotation_frequency (params_ this))
                              *f f32 360) *d delta_time)
                        /f f32 per *f f32 i)
                    (params_ this) ;;
             let '(hit, point) := r in
             if hit : bool then ret (point_cloud1 ++ [vx point; vy point; vz point])
             else ret point_cloud1) point_cloud0) [] ;;
       this0 <- this_ ;;
       set_current_horizontal_angle
         (IEEE.fmod IEEE.binary32
            (current_horizontal_angle_ this0
             +f IEEE.convert IEEE.binary32
                  (IEEE.convert IEEE.binary64
                     (f32 (horizontal_rotation_frequency (params_ this))
                      *f f32 360) *d delta_time))
            (f32 360)) ;;;
       ret point_cloud0) this
    = if per <=? 0 then ([], this, [])
      else
        (flat_map (fun laser =>
           flat_map (fun i =>
             coordinates
               (shot_point H this lidar_pose vehicle_pose
                  (Vector3r_add (position vehicle_pose)
                     (rotateVector H (position lidar_pose)
                        (orientation vehicle_pose) true))
                  laser
                  (current_horizontal_angle_ this
                   +f IEEE.convert IEEE.binary32
                        (IEEE.convert IEEE.binary64
                           (f32 (horizontal_rotation_frequency (params_ this))
                            *f f32 360) *d delta_time)
                      /f f32 per *f f32 i)))
             (counters per))
           (counters (number_of_channels (params_ this))),
         with_angle this
           (IEEE.fmod IEEE.binary32
              (current_horizontal_angle_ this
               +f IEEE.convert IEEE.binary32
                    (IEEE.convert IEEE.binary64
                       (f32 (horizontal_rotation_frequency (params_ this))
                        *f f32 360) *d delta_time))
              (f32 360)),
         (if draw_debug_points_ this
          then [DrawDebugPoint
                  (FVector_of
                     (Vector3r_add (position vehicle_pose)
                        (rotateVector H (position lidar_pose)
                           (orientation vehicle_pose) true))) Blue]
          else [])
         ++ flat_map (fun laser =>
              flat_map (fun i =>
                shot_trace H this lidar_pose vehicle_pose
                  (Vector3r_add (position vehicle_pose)
                     (rotateVector H (position lidar_pose)
                        (orientation vehicle_pose) true))
                  laser
                  (current_horizontal_angle_ this
                   +f IEEE.convert IEEE.binary32
                        (IEEE.convert IEEE.binary64
                           (f32 (horizontal_rotation_frequency (params_ this))
                            *f f32 360) *d delta_time)
                      /f f32 per *f f32 i))
                (counters per))
              (counters (number_of_channels (params_ this))))).
  { intros per. destruct (per <=? 0); [ reflexivity | ].
    match goal with
    | |- context [ for_uint ?n ?body ?acc ] => set (loops := for_uint n body acc)
    end.
    assert (Hl : loops this = loops this) by reflexivity.
    unfold loops at 2 in Hl. rewrite shoot_all in Hl. cbn [app] in Hl.
    unfold when, emit, bind, this_, ret, set_current_horizontal_angle, with_angle.
    destruct (draw_debug_points_ this); cbv beta iota zeta; rewrite Hl;
      cbn [app fst snd]; rewrite ?app_nil_r; reflexivity. }
  destruct (IEEE.gtb (f32 raw) MAX_POINTS_IN_SCAN) eqn:Hcap.
  - unfold bind at 1, emit at 1, ret at 1. cbn [app].
    fold (per_laser H (to_uint32 H MAX_POINTS_IN_SCAN) (number_of_channels (params_ this))).
    rewrite Hloops.
    destruct (per_laser H _ _ <=? 0); reflexivity.
  - unfold ret at 1. cbn [app].
    fold (per_laser H raw (number_of_channels (params_ this))).
    rewrite Hloops.
    destruct (per_laser H _ _ <=? 0); reflexivity.
Qed.
End Calls.


(** ** The table of laser angles *)

(** The loop of [createLasers] appends one angle per turn. *)
Lemma for_from_push (g : Z -> float) (count : nat) :
  forall i this,
    for_from count i (fun i (_ : unit) => laser_angles_emplace_back (g i)) tt this
    = (tt, with_lasers this (laser_angles_ this ++ map g (counters_from i count)), []).
Proof.
  induction count as [ | count IH ]; intros i this; simpl.
  - unfold ret, with_lasers, set_laser_angles. rewrite app_nil_r.
    destruct this; reflexivity.
  - unfold bind at 1, laser_angles_emplace_back at 1.
    unfold bind at 1, this_ at 1, set_laser_angles at 1.
    rewrite IH. cbn [app]. unfold with_lasers, set_laser_angles.
    cbn [fst snd laser_angles_ params_ actor_ ned_transform_ current_horizontal_angle_
         ignore_collision_actors_ ignore_pawn_collision_ draw_debug_points_].
    rewrite <- app_assoc. reflexivity.
Qed.

(** What [createLasers] leaves in [laser_angles_]. *)
Lemma createLasers_run (p : LidarSimpleParams) (this : UnrealLidarSensor) :
  createLasers p this
  = (tt,
     with_lasers this
       (if number_of_channels p <=? 0 then laser_angles_ this
        else if number_of_channels p =? 1 then [f32 0]
        else map (fun i =>
                    vertical_FOV_upper p
                    -f f32 i *f ((vertical_FOV_upper p -f vertical_FOV_lower p)
                                 /f f32 (number_of_channels p - 1)))
                 (counters (number_of_channels p))),
     []).
Proof.
  unfold createLasers.
  destruct (number_of_channels p <=? 0).
  - unfold ret, with_lasers, set_laser_angles. destruct this; reflexivity.
  - destruct (number_of_channels p =? 1).
    + reflexivity.
    + unfold bind at 1, laser_angles_clear, set_laser_angles at 1, for_uint.
      rewrite for_from_push. reflexivity.
Qed.

(** The constructor leaves in [laser_angles_] what [createLasers] computes
    from an empty table. *)
Lemma new_laser_angles (H : Host) (p : LidarSimpleParams) (a : AActor)
    (ned : option NedTransform) :
  laser_angles_ (UnrealLidarSensor_new H p a ned)
  = if number_of_channels p <=? 0 then []
    else if number_of_channels p =? 1 then [f32 0]
    else map (fun i =>
                vertical_FOV_upper p
                -f f32 i *f ((vertical_FOV_upper p -f vertical_FOV_lower p)
                             /f f32 (number_of_channels p - 1)))
             (counters (number_of_channels p)).
Proof.
  unfold UnrealLidarSensor_new, construct.
  unfold bind at 1, this_ at 1. unfold bind at 1.
  cbn [params_ member_init]. rewrite createLasers_run.
  unfold when, ignore_collision_actors_Add, bind, this_, set_ignore_pawn_collision,
    set_draw_debug_points, set_ignore_collision_actors, with_lasers, set_laser_angles, ret.
  cbn [fst snd laser_angles_ params_ actor_ ned_transform_ current_horizontal_angle_
       ignore_collision_actors_ ignore_pawn_collision_ draw_debug_points_ member_init].
  destruct (ignore_pawn_collision p), (is_AUrdfLink H a); reflexivity.
Qed.

(** The first angle is the upper bound: subtracting [0 * delta] changes
    nothing when [delta] is finite. *)
Lemma first_angle (U delta : float) :
  IEEE.is_finite delta = true -> IEEE.is_nan U = false ->
  IEEE.eqb (U -f f32 0 *f delta) U = true.
Proof.
  intros Hd HU. change (f32 0) with (S754_zero false).
  destruct delta as [ sd | | | sd md ed ]; try discriminate;
    destruct U as [ su | su | | su mu eu ]; try discriminate;
    cbn [IEEE.mul SFmul IEEE.sub SFsub xorb];
    try (destruct su, sd; reflexivity).
  - destruct su; unfold IEEE.eqb, SFeqb; cbn [SFcompare];
      rewrite Z.compare_refl; change (Pos.compare_cont Eq mu mu) with (Pos.compare mu mu);
      rewrite Pos.compare_refl; reflexivity.
  - destruct su; unfold IEEE.eqb, SFeqb; cbn [SFcompare];
      rewrite Z.compare_refl; change (Pos.compare_cont Eq mu mu) with (Pos.compare mu mu);
      rewrite Pos.compare_refl; reflexivity.
Qed.


(** C2 (as amended).  The constructor leaves an empty table for no
    channel, the table [{0}] for one channel and, for [N >= 2] channels, a
    table of length [N] whose entry [i] is
    [fovUpper - float(i) * ((fovUpper - fovLower) / float(N - 1))], every
    operation rounded to binary32; its first entry equals the upper bound
    whenever that step is finite and the bound is a number. *)
Theorem laser_table_built (H : Host) (p : LidarSimpleParams) (a : AActor)
    (ned : option NedTransform) :
  let table := laser_angles_ (UnrealLidarSensor_new H p a ned) in
  let N := number_of_channels p in
  let step := (vertical_FOV_upper p -f vertical_FOV_lower p) /f f32 (N - 1) in
  (N = 0 -> table = [])
  /\ (N = 1 -> table = [f32 0])
  /\ (2 <= N ->
      List.length table = Z.to_nat N
      /\ (forall i, 0 <= i < N ->
            nth_error table (Z.to_nat i)
            = Some (vertical_FOV_upper p -f f32 i *f step))
      /\ (IEEE.is_finite step = true -> IEEE.is_nan (vertical_FOV_upper p) = false ->
          exists first, nth_error table 0 = Some first
                        /\ IEEE.eqb first (vertical_FOV_upper p) = true)).
Proof.
  cbv zeta. rewrite new_laser_angles.
  split; [ intros -> ; reflexivity | ].
  split; [ intros -> ; reflexivity | ].
  intros HN.
  destruct (Z.leb_spec (number_of_channels p) 0); [ lia | ].
  destruct (Z.eqb_spec (number_of_channels p) 1); [ lia | ].
  assert (Hnth : forall i, 0 <= i < number_of_channels p ->
            nth_error
              (map (fun i => vertical_FOV_upper p
                      -f f32 i *f ((vertical_FOV_upper p -f vertical_FOV_lower p)
                                   /f f32 (number_of_channels p - 1)))
                   (counters (number_of_channels p))) (Z.to_nat i)
            = Some (vertical_FOV_upper p
                      -f f32 i *f ((vertical_FOV_upper p -f vertical_FOV_lower p)
                                   /f f32 (number_of_channels p - 1)))).
  { intros i Hi. rewrite nth_error_map. unfold counters.
    rewrite counters_from_nth_error by lia. cbn [option_map].
    do 4 f_equal. lia. }
  split; [ rewrite length_map; apply counters_length | ].
  split; [ exact Hnth | ].
  intros Hstep HU. eexists. split.
  - apply (Hnth 0). lia.
  - apply first_angle; assumption.
Qed.

(** The amended statement at four channels between +10 and -10 degrees:
    four angles, the first one the upper bound. *)
Lemma laser_table_built_witness :
  List.length (laser_angles_ (sensor_of empty_scene 4 400 None)) = 4%nat
  /\ exists first,
       nth_error (laser_angles_ (sensor_of empty_scene 4 400 None)) 0 = Some first
       /\ IEEE.eqb first (f32 10) = true.
Proof.
  destruct (laser_table_built empty_scene (params_of 4 400) (Actor 1) None)
    as (_ & _ & Hn).
  destruct (Hn ltac:(simpl; lia)) as (Hlen & _ & Hfirst).
  split; [ exact Hlen | ].
  apply Hfirst; reflexivity.
Defined.

(** C2, counterexample.  With 20 channels between +15 and -15 degrees the
    last angle is not the lower bound (it is -15.000002), and the angles
    are not uniformly spaced. *)
Lemma laser_table_not_exact :
  let table :=
    laser_angles_
      (UnrealLidarSensor_new empty_scene (params_fov 20 400 15 (-15)) (Actor 1) None) in
  List.length table = 20%nat
  /\ IEEE.eqb (last table S754_nan) (f32 (-15)) = false
  /\ ~ uniformly_spaced table.
Proof.
  cbv zeta. split; [ reflexivity | ]. split; [ reflexivity | ].
  intros Hu.
  specialize (Hu 0%nat 1%nat _ _ _ _ eq_refl eq_refl eq_refl eq_refl).
  vm_compute in Hu. discriminate Hu.
Qed.


(** ** Traces *)

(** Filtering and measuring a concatenation of blocks. *)
Lemma filter_flat_map (A B : Type) (f : B -> bool) (g : A -> list B) (l : list A) :
  filter f (flat_map g l) = flat_map (fun a => filter f (g a)) l.
Proof.
  induction l as [ | a l IH ]; simpl; [ reflexivity | ].
  rewrite filter_app, IH. reflexivity.
Qed.

Lemma flat_map_nil (A B : Type) (g : A -> list B) (l : list A) :
  (forall a, g a = []) -> flat_map g l = [].
Proof.
  intros Hg. induction l as [ | a l IH ]; simpl; [ reflexivity | ].
  rewrite Hg, IH. reflexivity.
Qed.

Lemma flat_map_length_const (A B : Type) (g : A -> list B) (c : nat) (l : list A) :
  (forall a, List.length (g a) = c) ->
  List.length (flat_map g l) = (c * List.length l)%nat.
Proof.
  intros Hg. induction l as [ | a l IH ]; simpl; [ lia | ].
  rewrite length_app, Hg, IH. lia.
Qed.

Section Traces.
Variable H : Host.

(** One call of [shootLaser] is one call of the raycast, and writes
    nothing to the log. *)
Lemma shot_trace_raycasts (this : UnrealLidarSensor) (lidar_pose vehicle_pose : Pose)
    (start : Vector3r) (laser : Z) (horizontalAngle : float) :
  List.length
    (filter is_raycast
       (shot_trace H this lidar_pose vehicle_pose start laser horizontalAngle)) = 1%nat
  /\ filter is_log
       (shot_trace H this lidar_pose vehicle_pose start laser horizontalAngle) = [].
Proof.
  unfold shot_trace, shootLaser, bind, this_, emit, when, ret.
  destruct (ned_transform_ this) as [ ned | ];
    match goal with
    | |- context [ raycast H ?a ?b ?c ?d ?e ] => destruct (raycast H a b c d e)
    end;
    destruct (IsInGameThread H), (draw_debug_points_ this); split; reflexivity.
Qed.

(** The log of a tick holds the capacity warning, or nothing. *)
Lemma tick_log (this : UnrealLidarSensor) (lidar_pose vehicle_pose : Pose)
    (delta_time : double) (point_cloud : list float) :
  filter is_log (snd (getPointCloud H lidar_pose vehicle_pose delta_time point_cloud this))
  = warning_of H this delta_time.
Proof.
  rewrite getPointCloud_run. cbv zeta.
  assert (Hw : filter is_log (warning_of H this delta_time) = warning_of H this delta_time)
    by (unfold warning_of; destruct (capped H (params_ this) delta_time); reflexivity).
  destruct (points_to_scan_with_one_laser H (params_ this) delta_time <=? 0);
    cbn [snd]; [ exact Hw | ].
  rewrite !filter_app, Hw, filter_flat_map.
  rewrite flat_map_nil.
  - destruct (draw_debug_points_ this); cbn [filter is_log]; rewrite ?app_nil_r; reflexivity.
  - intros laser. rewrite filter_flat_map. apply flat_map_nil.
    intros i. apply shot_trace_raycasts.
Qed.

(** The raycasts of a tick: one per sample of every laser. *)
Lemma tick_raycasts (this : UnrealLidarSensor) (lidar_pose vehicle_pose : Pose)
    (delta_time : double) (point_cloud : list float) :
  List.length
    (filter is_raycast
       (snd (getPointCloud H lidar_pose vehicle_pose delta_time point_cloud this)))
  = (Z.to_nat (number_of_channels (params_ this))
     * Z.to_nat (points_to_scan_with_one_laser H (params_ this) delta_time))%nat.
Proof.
  rewrite getPointCloud_run. cbv zeta.
  assert (Hw : filter is_raycast (warning_of H this delta_time) = [])
    by (unfold warning_of; destruct (capped H (params_ this) delta_time); reflexivity).
  destruct (Z.leb_spec (points_to_scan_with_one_laser H (params_ this) delta_time) 0)
    as [ Hle | Hgt ]; cbn [snd].
  - rewrite Hw. simpl. lia.
  - rewrite !filter_app, Hw, filter_flat_map. cbn [app].
    assert (Hd : filter is_raycast
                   (if draw_debug_points_ this
                    then [DrawDebugPoint
                            (FVector_of (ray_origin H lidar_pose vehicle_pose)) Blue]
                    else []) = [])
      by (destruct (draw_debug_points_ this); reflexivity).
    rewrite Hd. cbn [app].
    rewrite flat_map_length_const
      with (c := Z.to_nat (points_to_scan_with_one_laser H (params_ this) delta_time)).
    + rewrite counters_length. lia.
    + intros laser. rewrite filter_flat_map.
      rewrite flat_map_length_const with (c := 1%nat).
      * rewrite counters_length. lia.
      * intros i. apply shot_trace_raycasts.
Qed.

(** The cloud of a tick: three coordinates per sample of every laser. *)
Lemma tick_cloud_length (this : UnrealLidarSensor) (lidar_pose vehicle_pose : Pose)
    (delta_time : double) (point_cloud : list float) :
  List.length
    (fst (fst (getPointCloud H lidar_pose vehicle_pose delta_time point_cloud this)))
  = (3 * (Z.to_nat (number_of_channels (params_ this))
          * Z.to_nat (points_to_scan_with_one_laser H (params_ this) delta_time)))%nat.
Proof.
  rewrite getPointCloud_run. cbv zeta.
  destruct (Z.leb_spec (points_to_scan_with_one_laser H (params_ this) delta_time) 0)
    as [ Hle | Hgt ]; cbn [fst].
  - simpl. lia.
  - rewrite flat_map_length_const
      with (c := (3 * Z.to_nat (points_to_scan_with_one_laser H (params_ this) delta_time))%nat).
    + rewrite counters_length. lia.
    + intros laser. rewrite flat_map_length_const with (c := 3%nat).
      * rewrite counters_length. lia.
      * intros i. reflexivity.
Qed.

(** ** The budget *)

(** A conversion to [uint32] yields a [uint32]; it yields the truncated
    value when that is one. *)
Lemma to_uint32_range (v : spec_float) : 0 <= to_uint32 H v < 2 ^ 32.
Proof.
  unfold to_uint32.
  assert (0 <= out_of_range_uint32 H v mod 2 ^ 32 < 2 ^ 32)
    by (apply Z.mod_pos_bound; lia).
  destruct (IEEE.truncate v) as [ t | ]; [ | assumption ].
  destruct (Z.leb_spec 0 t), (Z.ltb_spec t (2 ^ 32)); cbn [andb]; lia.
Qed.

Lemma to_uint32_in_range (v : spec_float) (t : Z) :
  IEEE.truncate v = Some t -> 0 <= t < 2 ^ 32 -> to_uint32 H v = t.
Proof.
  intros Ht Hr. unfold to_uint32. rewrite Ht.
  destruct (Z.leb_spec 0 t), (Z.ltb_spec t (2 ^ 32)); cbn [andb]; lia.
Qed.

Lemma to_uint32_MAX_POINTS : to_uint32 H MAX_POINTS_IN_SCAN = 100000.
Proof. apply to_uint32_in_range with (t := 100000); [ reflexivity | lia ]. Qed.

(** Converting the rounded product or quotient yields the integer the
    value rounds to, when that is a [uint32]. *)
Lemma to_uint32_rounded_mul (f : IEEE.format) (a b : spec_float) (k : Z) :
  1 < IEEE.prec f -> IEEE.prec f < IEEE.emax f ->
  round_half_from_zero (IEEE.mul f a b) = Some k -> 0 <= k < 2 ^ 32 ->
  to_uint32 H (IEEE.RoundHalfFromZero f (IEEE.mul f a b)) = k.
Proof.
  intros P1 P2 Hk Hr. apply to_uint32_in_range; [ | assumption ].
  destruct (IEEE.mul f a b) as [ s | s | | s m e ] eqn:E; try discriminate.
  - exact Hk.
  - rewrite RoundHalfFromZero_truncate; try assumption.
    apply (@mul_bounded f P1 a b s m e E).
Qed.

Lemma to_uint32_rounded_div (f : IEEE.format) (a b : spec_float) (k : Z) :
  1 < IEEE.prec f -> IEEE.prec f < IEEE.emax f ->
  round_half_from_zero (IEEE.div f a b) = Some k -> 0 <= k < 2 ^ 32 ->
  to_uint32 H (IEEE.RoundHalfFromZero f (IEEE.div f a b)) = k.
Proof.
  intros P1 P2 Hk Hr. apply to_uint32_in_range; [ | assumption ].
  destruct (IEEE.div f a b) as [ s | s | | s m e ] eqn:E; try discriminate.
  - exact Hk.
  - rewrite RoundHalfFromZero_truncate; try assumption.
    apply (@div_bounded f P1 a b s m e E).
Qed.

(** The cap, as a comparison of integers. *)
Lemma capped_iff (p : LidarSimpleParams) (delta_time : double) :
  capped H p delta_time = (100000 <? raw_total H p delta_time).
Proof.
  unfold capped, MAX_POINTS_IN_SCAN. apply f32_gt_MAX_POINTS.
  apply to_uint32_range.
Qed.

Lemma total_points_to_scan_min (p : LidarSimpleParams) (delta_time : double) :
  total_points_to_scan H p delta_time = Z.min (raw_total H p delta_time) 100000.
Proof.
  unfold total_points_to_scan. rewrite capped_iff, to_uint32_MAX_POINTS.
  destruct (Z.ltb_spec 100000 (raw_total H p delta_time)); lia.
Qed.

End Traces.

(** The rounding of the specification is the rounding of the code: an
    integer within a half of the value, on the side away from zero at a
    tie, is the integer [RoundHalfFromZero] returns. *)
Lemma rounds_half_away_to_code (v : spec_float) (k : Z) :
  rounds_half_away_to v k = true -> round_half_from_zero v = Some k.
Proof.
  unfold rounds_half_away_to, round_half_from_zero.
  destruct v as [ s | s | | s m e ]; try discriminate.
  - intros Hk. apply Z.eqb_eq in Hk. subst k. reflexivity.
  - cbv zeta. intros Hk.
    apply andb_prop in Hk. destruct Hk as [Hk Hu].
    apply andb_prop in Hk. destruct Hk as [Hs Hl].
    apply Z.eqb_eq in Hs. apply Z.leb_le in Hl. apply Z.ltb_lt in Hu.
    pose proof (Z.abs_nonneg k) as Hn.
    set (n := Z.abs k) in *.
    rewrite Hs. do 2 f_equal.
    destruct e as [ | p | p ].
    + change (Z.max 0 0) with 0 in *. change (Z.max (- 0) 0) with 0 in *.
      change (2 ^ 0) with 1 in *. cbn [IEEE.round_half_up_mag Z.shiftl]. lia.
    + replace (Z.max (Zpos p) 0) with (Zpos p) in * by lia.
      replace (Z.max (- Zpos p) 0) with 0 in * by lia.
      change (2 ^ 0) with 1 in *.
      unfold IEEE.round_half_up_mag. rewrite Z.shiftl_mul_pow2 by lia. lia.
    + replace (Z.max (Zneg p) 0) with 0 in * by lia.
      replace (Z.max (- Zneg p) 0) with (Zpos p) in * by lia.
      change (2 ^ 0) with 1 in *.
      pose proof (round_half_up_mag_nearest m p) as N. cbv zeta in N.
      set (k0 := IEEE.round_half_up_mag m (Zneg p)) in *.
      assert (Hd : 0 < 2 ^ Zpos p) by (apply Z.pow_pos_nonneg; lia).
      set (d := 2 ^ Zpos p) in *. nia.
Qed.

(** Conversely, what [RoundHalfFromZero] returns is within a half of the
    value. *)
Lemma round_half_from_zero_rounds (v : spec_float) (k : Z) :
  round_half_from_zero v = Some k -> rounds_half_away_to v k = true.
Proof.
  unfold rounds_half_away_to, round_half_from_zero.
  destruct v as [ s | s | | s m e ]; try discriminate.
  - intros E. injection E as <-. reflexivity.
  - intros E. injection E as <-. cbv zeta.
    set (n := IEEE.round_half_up_mag m e).
    assert (Hn : 0 <= n
                 /\ (2 * n - 1) * 2 ^ Z.max (- e) 0 <= 2 * (Zpos m * 2 ^ Z.max e 0)
                    < (2 * n + 1) * 2 ^ Z.max (- e) 0).
    { subst n. destruct e as [ | p | p ].
      - change (Z.max 0 0) with 0. change (Z.max (- 0) 0) with 0.
        change (2 ^ 0) with 1. cbn [IEEE.round_half_up_mag Z.shiftl]. lia.
      - replace (Z.max (Zpos p) 0) with (Zpos p) by lia.
        replace (Z.max (- Zpos p) 0) with 0 by lia.
        change (2 ^ 0) with 1.
        unfold IEEE.round_half_up_mag. rewrite Z.shiftl_mul_pow2 by lia.
        assert (0 < 2 ^ Zpos p) by (apply Z.pow_pos_nonneg; lia). nia.
      - replace (Z.max (Zneg p) 0) with 0 by lia.
        replace (Z.max (- Zneg p) 0) with (Zpos p) by lia.
        change (2 ^ 0) with 1.
        pose proof (round_half_up_mag_nearest m p) as N. cbv zeta in N.
        assert (Hd : 0 < 2 ^ Zpos p) by (apply Z.pow_pos_nonneg; lia).
        split; [ nia | lia ]. }
    destruct Hn as [Hn0 [Hl Hu]].
    assert (Habs : Z.abs (cond_Zopp s n) = n) by (destruct s; cbn [cond_Zopp]; lia).
    rewrite Habs.
    apply andb_true_intro. split; [ apply andb_true_intro; split | ].
    + apply Z.eqb_eq. reflexivity.
    + apply Z.leb_le. exact Hl.
    + apply Z.ltb_lt. exact Hu.
Qed.

Section Low.
Variable f : IEEE.format.
Hypothesis prec_gt_1 : 1 < IEEE.prec f.

Lemma shr_fexp_snd (m e : Z) (l : location) :
  snd (shr_fexp (IEEE.prec f) (IEEE.emax f) m e l)
  = Z.max e (fexp (IEEE.prec f) (IEEE.emax f) (Zdigits2 m + e)).
Proof.
  unfold shr_fexp, shr.
  destruct (fexp (IEEE.prec f) (IEEE.emax f) (Zdigits2 m + e) - e) as [ | k | k ] eqn:Hk;
    cbn [snd]; lia.
Qed.

Lemma Zdigits2_le (m B : Z) : 0 <= m -> 0 <= B -> m <= 2 ^ B -> Zdigits2 m <= B + 1.
Proof.
  intros Hm HB Hle. destruct m as [ | p | p ]; cbn [Zdigits2]; [ lia | | lia ].
  pose proof (digits2_pos_bounds p) as [Bl _].
  destruct (Z_le_gt_dec (Zpos (digits2_pos p)) (B + 1)) as [ | Hgt ]; [ assumption | ].
  assert (2 ^ (B + 1) <= 2 ^ (Zpos (digits2_pos p) - 1))
    by (apply Z.pow_le_mono_r; lia).
  assert (2 ^ (B + 1) = 2 * 2 ^ B)
    by (rewrite <- Z.pow_succ_r by lia; f_equal; lia).
  assert (0 < 2 ^ B) by (apply Z.pow_pos_nonneg; lia). lia.
Qed.

(** A small value rounds to a float with a low exponent. *)
Lemma binary_round_aux_low (s : bool) (m e : Z) (l : location) (E : Z) :
  0 <= m -> emin (IEEE.prec f) (IEEE.emax f) <= E -> e <= E ->
  Zdigits2 m + e <= IEEE.prec f + E -> E + 1 <= IEEE.emax f - IEEE.prec f ->
  binary_round_aux (IEEE.prec f) (IEEE.emax f) s m e l = S754_zero s
  \/ exists m' e',
       binary_round_aux (IEEE.prec f) (IEEE.emax f) s m e l = S754_finite s m' e'
       /\ e' <= E + 1 /\ Zpos m' < 2 ^ IEEE.prec f.
Proof.
  intros Hm HE He Hd Hmax. unfold binary_round_aux.
  pose proof (@shr_fexp_bounded f prec_gt_1 m e l Hm) as B1.
  pose proof (shr_fexp_snd m e l) as S1.
  destruct (shr_fexp (IEEE.prec f) (IEEE.emax f) m e l) as [mrs1 e1].
  cbn [fst snd] in B1, S1.
  assert (He1 : e1 <= E) by (rewrite S1; unfold fexp; lia).
  pose proof (round_nearest_even_bounds (shr_m mrs1) (loc_of_shr_record mrs1)) as R.
  set (m2 := round_nearest_even (shr_m mrs1) (loc_of_shr_record mrs1)) in *.
  assert (Hm2 : 0 <= m2) by lia.
  pose proof (@shr_fexp_bounded f prec_gt_1 m2 e1 loc_Exact Hm2) as B2.
  pose proof (shr_fexp_snd m2 e1 loc_Exact) as S2.
  destruct (shr_fexp (IEEE.prec f) (IEEE.emax f) m2 e1 loc_Exact) as [mrs2 e2].
  cbn [fst snd] in B2, S2.
  assert (Hd2 : Zdigits2 m2 <= IEEE.prec f + 1)
    by (apply Zdigits2_le; lia).
  assert (He2 : e2 <= E + 1) by (rewrite S2; unfold fexp; lia).
  destruct (shr_m mrs2) as [ | q | q ]; [ left; reflexivity | | lia ].
  right. exists q, e2.
  replace (e2 <=? IEEE.emax f - IEEE.prec f) with true
    by (symmetry; apply Z.leb_le; lia).
  split; [ reflexivity | split; [ exact He2 | lia ] ].
Qed.

End Low.

(** The quotient of a total of at most 100,000 by the number of channels,
    one at least, is zero or a float with a negative exponent. *)
Lemma quotient_per_laser (total channels : Z) :
  0 <= total <= 100000 -> 1 <= channels ->
  f32 total /f f32 channels = S754_zero false
  \/ exists m e, f32 total /f f32 channels = S754_finite false m e
                 /\ e < 0 /\ Zpos m < 2 ^ 24.
Proof.
  intros Ht Hc. destruct binary32_ok as [P1 P2].
  assert (Hden : f32 channels = S754_infinity false
                 \/ exists m2 e2, f32 channels = S754_finite false m2 e2
                                  /\ 1 <= Zpos (digits2_pos m2) + e2).
  { unfold f32, IEEE.of_Z, binary_normalize.
    destruct channels as [ | n | n ]; [ lia | | lia ].
    destruct (Z_lt_le_dec (Zpos n) (2 ^ IEEE.prec IEEE.binary32)) as [ Hs | Hl ].
    - destruct (@binary_round_small _ P1 P2 false n Hs) as (m2 & e2 & E & He & Hm & Hd).
      right. exists m2, e2. split; [ exact E | ].
      change (IEEE.prec IEEE.binary32) with 24 in *.
      pose proof (digits2_pos_bounds m2) as [_ Bu]. rewrite Hd in *.
      assert (Hp : 0 < 2 ^ (- e2)) by (apply Z.pow_pos_nonneg; lia).
      assert (2 ^ (- e2) < 2 ^ 24) by nia.
      assert (- e2 < 24) by (apply Z.pow_lt_mono_r_iff with (a := 2); lia).
      lia.
    - destruct (@binary_round_pos _ P1 P2 false n) as [(m2 & e2 & E & He) | E];
        [ right | left; exact E ].
      exists m2, e2. split; [ exact E | ]. specialize (He Hl). lia. }
  destruct (Z.eq_dec total 0) as [ -> | Hpos ].
  - left. change (f32 0) with (S754_zero false).
    destruct Hden as [ -> | (m2 & e2 & -> & _) ]; reflexivity.
  - assert (Hnum : exists m1 e1, f32 total = S754_finite false m1 e1
                                 /\ Zpos (digits2_pos m1) + e1 <= 17
                                 /\ Zpos (digits2_pos m1) = 24).
    { unfold f32, IEEE.of_Z, binary_normalize.
      destruct total as [ | a | a ]; [ lia | | lia ].
      assert (Hs : Zpos a < 2 ^ IEEE.prec IEEE.binary32)
        by (change (2 ^ IEEE.prec IEEE.binary32) with 16777216; lia).
      destruct (@binary_round_small _ P1 P2 false a Hs) as (m1 & e1 & E & He & Hm & Hd).
      exists m1, e1. split; [ exact E | ].
      change (IEEE.prec IEEE.binary32) with 24 in *. split; [ | exact Hd ].
      pose proof (digits2_pos_bounds m1) as [Bl _]. rewrite Hd in *.
      change (2 ^ (24 - 1)) with 8388608 in Bl.
      assert (Hp : 0 < 2 ^ (- e1)) by (apply Z.pow_pos_nonneg; lia).
      assert (2 ^ 6 < 2 ^ (- e1)) by (change (2 ^ 6) with 64; nia).
      assert (6 < - e1) by (apply Z.pow_lt_mono_r_iff with (a := 2); lia).
      lia. }
    destruct Hnum as (m1 & e1 & -> & Hd1 & Hd1').
    destruct Hden as [ -> | (m2 & e2 & -> & Hd2) ]; [ left; reflexivity | ].
    unfold IEEE.div, SFdiv, SFdiv_core_binary. cbn [xorb Zdigits2].
    change (IEEE.prec IEEE.binary32) with 24. change (IEEE.emax IEEE.binary32) with 128.
    set (d1 := Zpos (digits2_pos m1)) in *. set (d2 := Zpos (digits2_pos m2)) in *.
    set (e' := Z.min (fexp 24 128 (d1 + e1 - (d2 + e2))) (e1 - e2)).
    assert (He' : e' <= -8 /\ e' <= e1 - e2) by (subst e'; unfold fexp, emin; lia).
    set (s := e1 - e2 - e').
    assert (Hs : 0 <= s) by (subst s; lia).
    set (m' := match s with Zpos _ => Z.shiftl (Zpos m1) s | Z0 => Zpos m1 | Zneg _ => 0 end).
    assert (Hm' : m' = Zpos m1 * 2 ^ s).
    { subst m'. destruct s as [ | ps | ps ] eqn:Es; [ simpl; lia | | lia ].
      rewrite Z.shiftl_mul_pow2 by lia. reflexivity. }
    assert (Hq : 0 <= m' / Zpos m2 /\ (m' / Zpos m2) * Zpos m2 <= m').
    { assert (0 <= m') by (rewrite Hm'; apply Z.mul_nonneg_nonneg;
                           [ lia | apply Z.pow_nonneg; lia ]).
      split; [ apply Z.div_pos; lia | ].
      rewrite Z.mul_comm. apply Z.mul_div_le. lia. }
    destruct (Z.div_eucl m' (Zpos m2)) as [q r] eqn:Ediv.
    assert (Eq' : m' / Zpos m2 = q) by (unfold Z.div; rewrite Ediv; reflexivity).
    rewrite Eq' in Hq. clear Eq'.
    assert (Hdq : Zdigits2 q + e' <= 24 + -7).
    { destruct q as [ | pq | pq ] eqn:Eq; cbn [Zdigits2]; [ lia | | lia ].
      pose proof (digits2_pos_bounds pq) as [Bq _].
      pose proof (digits2_pos_bounds m2) as [B2 _]. fold d2 in B2.
      pose proof (digits2_pos_bounds m1) as [_ B1]. fold d1 in B1.
      set (dq := Zpos (digits2_pos pq)) in *.
      assert (Hdqp : 1 <= dq) by (subst dq; lia).
      assert (Hd2p : 1 <= d2) by (subst d2; lia).
      assert (Hchain : 2 ^ (dq - 1) * 2 ^ (d2 - 1) < 2 ^ d1 * 2 ^ s).
      { assert (0 < 2 ^ (dq - 1)) by (apply Z.pow_pos_nonneg; lia).
        assert (0 < 2 ^ (d2 - 1)) by (apply Z.pow_pos_nonneg; lia).
        assert (0 < 2 ^ s) by (apply Z.pow_pos_nonneg; lia).
        destruct Hq as [_ Hq]. rewrite Hm' in Hq. nia. }
      rewrite <- !Z.pow_add_r in Hchain by lia.
      apply Z.pow_lt_mono_r_iff in Hchain; lia. }
    destruct (@binary_round_aux_low IEEE.binary32 P1 false q e'
                (new_location (Zpos m2) r) (-7))
      as [ E | (m & e & E & He & Hm) ].
    + lia.
    + cbv. discriminate.
    + lia.
    + exact Hdq.
    + cbv. discriminate.
    + left. exact E.
    + right. exists m, e. split; [ exact E | split; [ lia | exact Hm ] ].
Qed.

(** With one channel at least, the budget of a laser follows the rounding
    of the specification, and a [uint32] holds it. *)
Lemma per_laser_rounds (total channels : Z) :
  0 <= total <= 100000 -> 1 <= channels ->
  exists k, rounds_half_away_to (f32 total /f f32 channels) k = true
            /\ 0 <= k < 2 ^ 32.
Proof.
  intros Ht Hc.
  destruct (quotient_per_laser Ht Hc) as [ -> | (m & e & -> & He & Hm) ].
  - exists 0. split; [ reflexivity | lia ].
  - exists (IEEE.round_half_up_mag m e). split.
    + apply round_half_from_zero_rounds. reflexivity.
    + destruct e as [ | p | p ]; try lia.
      pose proof (@round_half_up_mag_bound 24 m p ltac:(lia) Hm) as [K0 K1].
      assert (2 ^ 24 < 2 ^ 32) by (apply Z.pow_lt_mono_r; lia). lia.
Qed.

(** C3 (as amended).  When the product [pointsPerSecond * deltaTime] (in
    binary64) rounds, half away from zero, to a number [rawTotal] that a
    [uint32] holds: the scheduler's raw total is [rawTotal]; the total it
    uses is [rawTotal] clamped to 100,000; the log of the tick holds the
    capacity warning when [rawTotal] exceeds 100,000 and nothing
    otherwise, and the tick goes on either way; the budget of a laser is
    the quotient of the clamped total by the number of channels (in
    binary32) rounded half away from zero, whenever a [uint32] holds that,
    and the tick then casts that many rays and returns that many points
    for each channel; with one channel at least the quotient does round to
    a number a [uint32] holds.  The rounding is that of the specification:
    the integer within a half of the value, away from zero at a tie. *)
Theorem scan_budget (H : Host) (this : UnrealLidarSensor)
    (lidar_pose vehicle_pose : Pose) (delta_time : double) (point_cloud : list float)
    (rawTotal : Z) :
  let p := params_ this in
  rounds_half_away_to (f64 (points_per_second p) *d delta_time) rawTotal = true ->
  0 <= rawTotal < 2 ^ 32 ->
  let clampedTotal := Z.min rawTotal 100000 in
  let result := getPointCloud H lidar_pose vehicle_pose delta_time point_cloud this in
  raw_total H p delta_time = rawTotal
  /\ total_points_to_scan H p delta_time = clampedTotal
  /\ filter is_log (snd result)
     = (if 100000 <? rawTotal then [capacity_warning] else [])
  /\ (forall pointsPerLaser,
        rounds_half_away_to (f32 clampedTotal /f f32 (number_of_channels p))
          pointsPerLaser = true ->
        0 <= pointsPerLaser < 2 ^ 32 ->
        points_to_scan_with_one_laser H p delta_time = pointsPerLaser
        /\ List.length (filter is_raycast (snd result))
           = (Z.to_nat (number_of_channels p) * Z.to_nat pointsPerLaser)%nat
        /\ List.length (fst (fst result))
           = (3 * (Z.to_nat (number_of_channels p) * Z.to_nat pointsPerLaser))%nat)
  /\ (1 <= number_of_channels p ->
      exists pointsPerLaser,
        rounds_half_away_to (f32 clampedTotal /f f32 (number_of_channels p))
          pointsPerLaser = true
        /\ 0 <= pointsPerLaser < 2 ^ 32).
Proof.
  cbv zeta. intros Hraw Hrange.
  apply rounds_half_away_to_code in Hraw.
  destruct binary64_ok as [P1 P2]. destruct binary32_ok as [Q1 Q2].
  assert (E1 : raw_total H (params_ this) delta_time = rawTotal)
    by (unfold raw_total, rounded_total; apply to_uint32_rounded_mul; assumption).
  assert (E2 : total_points_to_scan H (params_ this) delta_time = Z.min rawTotal 100000)
    by (rewrite total_points_to_scan_min, E1; reflexivity).
  split; [ exact E1 | ]. split; [ exact E2 | ].
  split; [ | split ].
  - rewrite tick_log. unfold warning_of. rewrite capped_iff, E1. reflexivity.
  - intros k Hk Hkr. apply rounds_half_away_to_code in Hk.
    assert (E3 : points_to_scan_with_one_laser H (params_ this) delta_time = k).
    { unfold points_to_scan_with_one_laser, per_laser. rewrite E2.
      apply to_uint32_rounded_div; assumption. }
    split; [ exact E3 | split ].
    + rewrite tick_raycasts, E3. reflexivity.
    + rewrite tick_cloud_length, E3. reflexivity.
  - intros Hn. apply per_laser_rounds; lia.
Qed.

(** The budget at one million points per second over one second, with
    four channels: the raw total of 1,000,000 is clamped to 100,000, the
    warning is logged and each laser gets 25,000 points.  At five points
    per second over half a second, with one channel: the product 2.5
    rounds away from zero to 3, nothing is logged and the tick returns
    three points. *)
Lemma scan_budget_witness :
  let this := sensor_of empty_scene 4 1000000 None in
  let result := getPointCloud empty_scene at_origin at_origin one_second [] this in
  let slow := sensor_of empty_scene 1 5 None in
  let half := IEEE.div IEEE.binary64 (f64 1) (f64 2) in
  let result' := getPointCloud empty_scene at_origin at_origin half [] slow in
  (raw_total empty_scene (params_ this) one_second = 1000000
   /\ total_points_to_scan empty_scene (params_ this) one_second = 100000
   /\ filter is_log (snd result) = [capacity_warning]
   /\ points_to_scan_with_one_laser empty_scene (params_ this) one_second = 25000)
  /\ (raw_total empty_scene (params_ slow) half = 3
      /\ filter is_log (snd result') = []
      /\ points_to_scan_with_one_laser empty_scene (params_ slow) half = 3
      /\ List.length (fst (fst result')) = 9%nat).
Proof.
  cbv zeta. split.
  - destruct (@scan_budget empty_scene (sensor_of empty_scene 4 1000000 None)
                at_origin at_origin one_second [] 1000000 eq_refl ltac:(lia))
      as (E1 & E2 & E3 & E4 & _).
    destruct (E4 25000 eq_refl ltac:(lia)) as (E5 & _).
    split; [ exact E1 | ]. split; [ exact E2 | ]. split; [ exact E3 | exact E5 ].
  - destruct (@scan_budget empty_scene (sensor_of empty_scene 1 5 None)
                at_origin at_origin (IEEE.div IEEE.binary64 (f64 1) (f64 2)) []
                3 eq_refl ltac:(lia))
      as (E1 & _ & E3 & E4 & _).
    destruct (E4 3 eq_refl ltac:(lia)) as (E5 & _ & E6).
    split; [ exact E1 | ]. split; [ exact E3 | ]. split; [ exact E5 | exact E6 ].
Defined.

(** C3, counterexample.  The rounded product is stored in a [uint32]
    before it is compared with the ceiling.  At 100,000 points per second
    over 42,950 s the product is 4,295,000,000, which exceeds 100,000; its
    conversion to [uint32], as a 64-bit x86 compiler emits it, leaves
    32,704: nothing is clamped, nothing is logged, and with 16 channels
    each laser gets 2,044 points, where the quotient of 100,000 by 16
    rounds to 6,250.  At 400 points per second over -0.01 s the product
    rounds to -4, which does not exceed 100,000; its conversion leaves
    4,294,967,292: the total is clamped to 100,000 and the warning is
    logged.  With no channel the quotient is an infinity, which rounds to
    no integer. *)
Lemma scan_budget_wraps :
  let this := sensor_of empty_scene 16 100000 None in
  let long := f64 42950 in
  let result := getPointCloud empty_scene at_origin at_origin long [] this in
  let that := sensor_of empty_scene 4 400 None in
  let back := IEEE.div IEEE.binary64 (f64 (-1)) (f64 100) in
  let result' := getPointCloud empty_scene at_origin at_origin back [] that in
  (rounds_half_away_to (f64 100000 *d long) 4295000000 = true
   /\ (100000 <? 4295000000) = true
   /\ raw_total empty_scene (params_ this) long = 32704
   /\ total_points_to_scan empty_scene (params_ this) long = 32704
   /\ filter is_log (snd result) = []
   /\ points_to_scan_with_one_laser empty_scene (params_ this) long = 2044
   /\ rounds_half_away_to (f32 100000 /f f32 16) 6250 = true)
  /\ (rounds_half_away_to (f64 400 *d back) (-4) = true
      /\ (100000 <? -4) = false
      /\ total_points_to_scan empty_scene (params_ that) back = 100000
      /\ filter is_log (snd result') = [capacity_warning])
  /\ (f32 400 /f f32 0 = S754_infinity false
      /\ rounds_half_away_to (f32 400 /f f32 0) 0 = false).
Proof.
  cbv zeta. split; [ | split ].
  - split; [ reflexivity | ]. split; [ reflexivity | ]. split; [ reflexivity | ].
    split; [ reflexivity | ]. split; [ rewrite tick_log; reflexivity | ].
    split; reflexivity.
  - split; [ reflexivity | ]. split; [ reflexivity | ]. split; [ reflexivity | ].
    rewrite tick_log. reflexivity.
  - split; reflexivity.
Qed.

(** ** The sweep *)

(** C4 (as amended).  A tick with a positive budget per laser leaves the
    sensor as it was but for the sweep angle, which becomes
    [fmod(old + frequency * 360 * deltaTime, 360)], and every sample [i]
    of the tick is shot from the sensor as it was before, at the
    horizontal angle [old + i * step]; a tick without budget leaves the
    sensor, sweep angle included, as it was.  From 350 degrees, at one
    revolution per second and a delta-time of 0.1 s, a tick with a
    positive budget leaves the sweep at 26 degrees. *)
Theorem scan_state_advance (H : Host) (this : UnrealLidarSensor)
    (lidar_pose vehicle_pose : Pose) (delta_time : double) (point_cloud : list float) :
  let p := params_ this in
  let old := current_horizontal_angle_ this in
  let per := points_to_scan_with_one_laser H p delta_time in
  let step := angle_distance_of_laser_measure H p delta_time in
  let result := getPointCloud H lidar_pose vehicle_pose delta_time point_cloud this in
  (0 < per ->
     snd (fst result)
     = with_angle this
         (IEEE.fmod IEEE.binary32 (old +f angle_distance_of_tick p delta_time) (f32 360))
     /\ fst (fst result)
        = flat_map (fun laser =>
            flat_map (fun i =>
              coordinates
                (shot_point H this lidar_pose vehicle_pose
                   (ray_origin H lidar_pose vehicle_pose) laser (old +f step *f f32 i)))
              (counters per))
            (counters (number_of_channels p))
     /\ snd result
        = warning_of H this delta_time
          ++ (if draw_debug_points_ this
              then [DrawDebugPoint (FVector_of (ray_origin H lidar_pose vehicle_pose)) Blue]
              else [])
          ++ flat_map (fun laser =>
               flat_map (fun i =>
                 shot_trace H this lidar_pose vehicle_pose
                   (ray_origin H lidar_pose vehicle_pose) laser (old +f step *f f32 i))
                 (counters per))
               (counters (number_of_channels p)))
  /\ (per <= 0 -> snd (fst result) = this)
  /\ (0 < per -> old = f32 350 -> horizontal_rotation_frequency p = 1 ->
      delta_time = tenth ->
      current_horizontal_angle_ (snd (fst result)) = f32 26).
Proof.
  cbv zeta. rewrite getPointCloud_run. cbv zeta.
  destruct (Z.leb_spec (points_to_scan_with_one_laser H (params_ this) delta_time) 0)
    as [ Hle | Hgt ]; cbn [fst snd].
  - split; [ lia | ]. split; [ reflexivity | lia ].
  - split; [ intros _; repeat split | ]. split; [ lia | ].
    intros _ Hold Hfreq Hdt. unfold with_angle, set_current_horizontal_angle.
    cbn [fst snd current_horizontal_angle_].
    unfold advanced_angle, angle_distance_of_tick. rewrite Hold, Hfreq, Hdt.
    reflexivity.
Qed.

(** The amended statement at four channels and 400 points per second,
    from 350 degrees over 0.1 s: the budget is positive and the sweep ends
    at 26 degrees. *)
Lemma scan_state_advance_witness :
  let this := swept_to 350 (sensor_of empty_scene 4 400 None) in
  0 < points_to_scan_with_one_laser empty_scene (params_ this) tenth
  /\ current_horizontal_angle_
       (snd (fst (getPointCloud empty_scene at_origin at_origin tenth [] this)))
     = f32 26.
Proof.
  cbv zeta.
  assert (Hper : 0 < points_to_scan_with_one_laser empty_scene
                       (params_ (swept_to 350 (sensor_of empty_scene 4 400 None))) tenth)
    by reflexivity.
  split; [ exact Hper | ].
  destruct (scan_state_advance empty_scene (swept_to 350 (sensor_of empty_scene 4 400 None))
              at_origin at_origin tenth []) as (_ & _ & Hex).
  apply Hex; [ exact Hper | reflexivity | reflexivity | reflexivity ].
Defined.

(** C4, counterexample.  At four points per second the budget of a tick
    of 0.1 s is zero: from 350 degrees at one revolution per second the
    sweep angle stays at 350 degrees, where the advance
    [(350 + 36) mod 360] is 26 degrees. *)
Lemma scan_state_kept_without_budget :
  let this := swept_to 350 (sensor_of empty_scene 4 4 None) in
  let result := getPointCloud empty_scene at_origin at_origin tenth [] this in
  horizontal_rotation_frequency (params_ this) = 1
  /\ current_horizontal_angle_ this = f32 350
  /\ advanced_angle (f32 350) (params_ this) tenth = f32 26
  /\ current_horizontal_angle_ (snd (fst result)) = f32 350
  /\ IEEE.eqb (current_horizontal_angle_ (snd (fst result))) (f32 26) = false.
Proof. cbv zeta. repeat split; reflexivity. Qed.


(** ** Ticks without points *)

Lemma length_zero_nil (A : Type) (l : list A) : List.length l = 0%nat -> l = [].
Proof. destruct l; [ reflexivity | discriminate ]. Qed.

(** Over a delta-time of zero the budget of a laser is zero. *)
Lemma no_budget_at_zero (H : Host) (p : LidarSimpleParams) (s : bool) :
  0 <= points_per_second p < 2 ^ 32 -> 0 < number_of_channels p ->
  points_to_scan_with_one_laser H p (S754_zero s) = 0.
Proof.
  intros Hpps Hn.
  destruct binary64_ok as [P1 P2]. destruct binary32_ok as [Q1 Q2].
  assert (Hraw : raw_total H p (S754_zero s) = 0).
  { unfold raw_total, rounded_total.
    destruct (@of_Z_nonneg IEEE.binary64 (points_per_second p) P1 P2 ltac:(lia))
      as [ [_ E] | [Hpos [ (m & e & E) | E ] ] ].
    - unfold f64. rewrite E. reflexivity.
    - unfold f64. rewrite E. reflexivity.
    - exfalso. unfold IEEE.of_Z, binary_normalize in E.
      destruct (points_per_second p) as [ | n | n ] eqn:En; try lia.
      destruct (@binary_round_small _ P1 P2 false n) as (m & e & E' & _).
      + change (IEEE.prec IEEE.binary64) with 53.
        assert (2 ^ 32 < 2 ^ 53) by (apply Z.pow_lt_mono_r; lia). lia.
      + rewrite E' in E. discriminate. }
  unfold points_to_scan_with_one_laser. rewrite total_points_to_scan_min, Hraw.
  change (Z.min 0 100000) with 0. unfold per_laser.
  change (f32 0) with (S754_zero false).
  destruct (@of_Z_nonneg IEEE.binary32 (number_of_channels p) Q1 Q2 ltac:(lia))
    as [ [E0 _] | [_ [ (m & e & E) | E ] ] ]; [ lia | | ];
    unfold f32; rewrite E; reflexivity.
Qed.

(** C6 (as amended).  A tick over a delta-time of zero, a tick of a sensor
    without channels and, more generally, a tick whose budget per laser is
    zero returns an empty cloud and never calls the raycast, whatever an
    out-of-range conversion to [uint32] yields. *)
Theorem empty_tick (H : Host) (this : UnrealLidarSensor)
    (lidar_pose vehicle_pose : Pose) (delta_time : double) (point_cloud : list float) :
  let p := params_ this in
  let result := getPointCloud H lidar_pose vehicle_pose delta_time point_cloud this in
  0 <= points_per_second p < 2 ^ 32 ->
  0 <= number_of_channels p < 2 ^ 32 ->
  (exists s, delta_time = S754_zero s)
  \/ number_of_channels p = 0
  \/ points_to_scan_with_one_laser H p delta_time <= 0 ->
  fst (fst result) = [] /\ filter is_raycast (snd result) = [].
Proof.
  cbv zeta. intros Hpps Hn Hcase.
  assert (Hzero : number_of_channels (params_ this) = 0
                  \/ points_to_scan_with_one_laser H (params_ this) delta_time <= 0).
  { destruct Hcase as [ [s ->] | [ Hc | Hc ] ]; [ | left; exact Hc | right; exact Hc ].
    destruct (Z.eq_dec (number_of_channels (params_ this)) 0) as [ E | NE ];
      [ left; exact E | right ].
    rewrite no_budget_at_zero by lia. lia. }
  split; apply length_zero_nil.
  - rewrite tick_cloud_length. destruct Hzero as [ -> | Hle ]; [ reflexivity | ].
    replace (Z.to_nat (points_to_scan_with_one_laser H (params_ this) delta_time))
      with 0%nat by lia. lia.
  - rewrite tick_raycasts. destruct Hzero as [ -> | Hle ]; [ reflexivity | ].
    replace (Z.to_nat (points_to_scan_with_one_laser H (params_ this) delta_time))
      with 0%nat by lia. lia.
Qed.

(** The amended statement over a delta-time of zero, at four channels and
    400 points per second. *)
Lemma empty_tick_witness :
  let this := sensor_of empty_scene 4 400 None in
  let result := getPointCloud empty_scene at_origin at_origin (f64 0) [] this in
  fst (fst result) = [] /\ filter is_raycast (snd result) = [].
Proof.
  cbv zeta.
  apply (@empty_tick empty_scene (sensor_of empty_scene 4 400 None)
           at_origin at_origin (f64 0) []).
  - simpl. lia.
  - simpl. lia.
  - left. exists false. reflexivity.
Defined.

(** C6, counterexample.  Over a delta-time of -0.01 s, at 400 points per
    second, the product rounds to -4; the conversion of -4 to [uint32], as
    a 64-bit x86 compiler emits it, yields 4294967292, which is capped at
    100,000: with four channels the tick casts 100,000 rays and returns
    100,000 points. *)
Lemma negative_delta_time_casts_rays :
  let this := sensor_of empty_scene 4 400 None in
  let delta_time := IEEE.div IEEE.binary64 (f64 (-1)) (f64 100) in
  let result := getPointCloud empty_scene at_origin at_origin delta_time [] this in
  IEEE.ltb delta_time (f64 0) = true
  /\ round_half_from_zero (f64 400 *d delta_time) = Some (-4)
  /\ raw_total empty_scene (params_ this) delta_time = 4294967292
  /\ points_to_scan_with_one_laser empty_scene (params_ this) delta_time = 25000
  /\ Z.of_nat (List.length (filter is_raycast (snd result))) = 100000
  /\ Z.of_nat (List.length (fst (fst result))) = 300000.
Proof.
  cbv zeta.
  split; [ reflexivity | ]. split; [ reflexivity | ]. split; [ reflexivity | ].
  split; [ reflexivity | ]. split.
  - rewrite tick_raycasts. vm_compute. reflexivity.
  - rewrite tick_cloud_length. vm_compute. reflexivity.
Qed.


(** ** One ray *)

Ltac run_shot :=
  unfold shot_point, shot_trace, shootLaser, bind, this_, emit, when, ret,
    direct_end, to_sensor_frame, pose_rotator.

Section Rays.
Variable H : Host.
Variable this : UnrealLidarSensor.
Variables lidar_pose vehicle_pose : Pose.
Variable start : Vector3r.
Variable laser : Z.
Variable horizontalAngle : float.

(** Without a transform the ray runs from the origin to [direct_end]. *)
Lemma direct_ray :
  ned_transform_ this = None ->
  filter is_raycast
    (shot_trace H this lidar_pose vehicle_pose start laser horizontalAngle)
  = [GetObstacle (actor_ this) (FVector_of start)
       (direct_end H this lidar_pose start laser horizontalAngle)
       (ignore_collision_actors_ this) (ignore_pawn_collision_ this)].
Proof.
  intros Hned. run_shot. rewrite Hned.
  match goal with
  | |- context [ raycast H ?a ?b ?c ?d ?e ] => destruct (raycast H a b c d e)
  end;
  destruct (IsInGameThread H), (draw_debug_points_ this); reflexivity.
Qed.

(** A hit, without a transform: the impact seen from the origin, in the
    frame of the sensor. *)
Lemma direct_hit (impact : FVector) :
  ned_transform_ this = None ->
  raycast H (actor_ this) (FVector_of start)
    (direct_end H this lidar_pose start laser horizontalAngle)
    (ignore_collision_actors_ this) (ignore_pawn_collision_ this) = Some impact ->
  shot_point H this lidar_pose vehicle_pose start laser horizontalAngle
  = to_sensor_frame H this lidar_pose (FVector_sub impact (FVector_of start)).
Proof.
  intros Hned. run_shot. rewrite Hned. intros ->.
  destruct (IsInGameThread H), (draw_debug_points_ this); reflexivity.
Qed.

(** A hit, with a transform: the impact taken to the local NED frame. *)
Lemma ned_hit (ned : NedTransform) (impact : FVector) :
  ned_transform_ this = Some ned ->
  raycast H (actor_ this) (fromLocalNed ned start) (fromLocalNed ned Vector3r_Zero)
    (ignore_collision_actors_ this) (ignore_pawn_collision_ this) = Some impact ->
  shot_point H this lidar_pose vehicle_pose start laser horizontalAngle
  = toLocalNed ned impact.
Proof.
  intros Hned. run_shot. rewrite Hned. intros ->.
  destruct (IsInGameThread H), (draw_debug_points_ this); reflexivity.
Qed.

End Rays.

(** C1.  With a transform, the end point handed to the raycast is the
    image of the zero vector: the end point computed from the quaternions
    is stored in a local of the inner block, and the function-level [end],
    still zero, is what [fromLocalNed] receives. *)
Theorem ned_ray_ends_at_zero (H : Host) (this : UnrealLidarSensor) (ned : NedTransform)
    (lidar_pose vehicle_pose : Pose) (start : Vector3r) (laser : Z)
    (horizontalAngle : float) :
  ned_transform_ this = Some ned ->
  filter is_raycast
    (shot_trace H this lidar_pose vehicle_pose start laser horizontalAngle)
  = [GetObstacle (actor_ this) (fromLocalNed ned start)
       (fromLocalNed ned Vector3r_Zero)
       (ignore_collision_actors_ this) (ignore_pawn_collision_ this)].
Proof.
  intros Hned. run_shot. rewrite Hned.
  match goal with
  | |- context [ raycast H ?a ?b ?c ?d ?e ] => destruct (raycast H a b c d e)
  end;
  destruct (IsInGameThread H), (draw_debug_points_ this); reflexivity.
Qed.

(** C1 at a sensor 5 units along x, without any rotation, with a range of
    100 and frames that coincide: the end point of the specification is
    (105, 0, 0), the raycast receives (0, 0, 0). *)
Lemma ned_ray_ends_at_zero_witness :
  let this := sensor_of empty_scene 1 1 (Some same_frame) in
  let start := ray_origin empty_scene at_origin (at_x 5) in
  fromLocalNed same_frame
    (quaternion_end empty_scene this at_origin (at_x 5) start 0 (f32 0))
  = mkFVector (f32 105) (f32 0) (f32 0)
  /\ filter is_raycast (shot_trace empty_scene this at_origin (at_x 5) start 0 (f32 0))
     = [GetObstacle (Actor 1) (mkFVector (f32 5) (f32 0) (f32 0))
          (mkFVector (f32 0) (f32 0) (f32 0)) [] false].
Proof.
  cbv zeta. split; [ reflexivity | ].
  exact (@ned_ray_ends_at_zero empty_scene (sensor_of empty_scene 1 1 (Some same_frame))
           same_frame at_origin (at_x 5) (ray_origin empty_scene at_origin (at_x 5))
           0 (f32 0) eq_refl).
Defined.

(** C5.  With a transform, the point reported for a ray that hits nothing
    is the difference between the image of the zero vector and the image
    of the origin, un-rotated by two rotators that were never given a
    value, as the call finds them; the end of the ray computed from the
    range and the angles has no part in it. *)
Theorem ned_miss_point (H : Host) (this : UnrealLidarSensor) (ned : NedTransform)
    (lidar_pose vehicle_pose : Pose) (start : Vector3r) (laser : Z)
    (horizontalAngle : float) :
  ned_transform_ this = Some ned ->
  raycast H (actor_ this) (fromLocalNed ned start) (fromLocalNed ned Vector3r_Zero)
    (ignore_collision_actors_ this) (ignore_pawn_collision_ this) = None ->
  shot_point H this lidar_pose vehicle_pose start laser horizontalAngle
  = Vector3r_of
      (UnrotateVector H
         (uninitialized_poseRotator H this lidar_pose vehicle_pose start laser
            horizontalAngle (params_ this))
         (UnrotateVector H
            (uninitialized_actorRotator H this lidar_pose vehicle_pose start laser
               horizontalAngle (params_ this))
            (FVector_sub (fromLocalNed ned Vector3r_Zero) (fromLocalNed ned start)))).
Proof.
  intros Hned. run_shot. rewrite Hned. intros ->.
  destruct (draw_debug_points_ this); reflexivity.
Qed.

(** C5 at a sensor 5 units along x, without any rotation, in an empty
    scene, with a range of 100 and frames that coincide: the tick of one
    sample returns the point (-5, 0, 0), where the end of the ray at
    maximum range, seen from the sensor, is (100, 0, 0). *)
Lemma ned_miss_point_witness :
  let this := sensor_of empty_scene 1 1 (Some same_frame) in
  let start := ray_origin empty_scene at_origin (at_x 5) in
  shot_point empty_scene this at_origin (at_x 5) start 0 (f32 0)
  = mkVector3r (f32 (-5)) (f32 0) (f32 0)
  /\ fst (fst (getPointCloud empty_scene at_origin (at_x 5) one_second [] this))
     = [f32 (-5); f32 0; f32 0]
  /\ to_sensor_frame empty_scene this at_origin
       (FVector_sub
          (fromLocalNed same_frame
             (quaternion_end empty_scene this at_origin (at_x 5) start 0 (f32 0)))
          (fromLocalNed same_frame start))
     = mkVector3r (f32 100) (f32 0) (f32 0).
Proof.
  cbv zeta. split; [ | split; reflexivity ].
  rewrite (@ned_miss_point empty_scene (sensor_of empty_scene 1 1 (Some same_frame))
             same_frame at_origin (at_x 5) (ray_origin empty_scene at_origin (at_x 5))
             0 (f32 0) eq_refl eq_refl).
  reflexivity.
Defined.

(** C7 (as amended).  For a hit the raycast reports at a given position,
    whatever the ray: without a transform the ray runs from the origin to
    the forward vector rotated by the ray, the mount and the actor, scaled
    by the range and moved to the origin, and the point is the impact seen
    from the origin, un-rotated by the rotation of the actor and then by
    that of the mount; with a transform the point is the impact taken to
    the local NED frame, which is not relative to the sensor. *)
Theorem hit_point_by_pipeline (H : Host) (this : UnrealLidarSensor)
    (lidar_pose vehicle_pose : Pose) (start : Vector3r) (laser : Z)
    (horizontalAngle : float) (impact : FVector) :
  (forall a s e ignore pawn, raycast H a s e ignore pawn = Some impact) ->
  (ned_transform_ this = None ->
     filter is_raycast
       (shot_trace H this lidar_pose vehicle_pose start laser horizontalAngle)
     = [GetObstacle (actor_ this) (FVector_of start)
          (direct_end H this lidar_pose start laser horizontalAngle)
          (ignore_collision_actors_ this) (ignore_pawn_collision_ this)]
     /\ shot_point H this lidar_pose vehicle_pose start laser horizontalAngle
        = to_sensor_frame H this lidar_pose (FVector_sub impact (FVector_of start)))
  /\ (forall ned, ned_transform_ this = Some ned ->
        shot_point H this lidar_pose vehicle_pose start laser horizontalAngle
        = toLocalNed ned impact).
Proof.
  intros Hhit. split.
  - intros Hned. split; [ apply direct_ray; exact Hned | ].
    apply direct_hit; [ exact Hned | apply Hhit ].
  - intros ned Hned. apply ned_hit with (ned := ned); [ exact Hned | apply Hhit ].
Qed.

(** The amended statement for a wall at (1050, 0, 0) and a sensor at
    (1000, 0, 0), without any rotation and with frames that coincide. *)
Lemma hit_point_by_pipeline_witness :
  let wall := mkFVector (f32 1050) (f32 0) (f32 0) in
  let start := ray_origin (wall_at wall) at_origin (at_x 1000) in
  shot_point (wall_at wall) (sensor_of (wall_at wall) 1 1 None)
    at_origin (at_x 1000) start 0 (f32 0)
  = mkVector3r (f32 50) (f32 0) (f32 0)
  /\ shot_point (wall_at wall) (sensor_of (wall_at wall) 1 1 (Some same_frame))
       at_origin (at_x 1000) start 0 (f32 0)
     = mkVector3r (f32 1050) (f32 0) (f32 0).
Proof.
  cbv zeta.
  pose (wall := mkFVector (f32 1050) (f32 0) (f32 0)).
  pose (start := ray_origin (wall_at wall) at_origin (at_x 1000)).
  split.
  - destruct (@hit_point_by_pipeline (wall_at wall) (sensor_of (wall_at wall) 1 1 None)
                at_origin (at_x 1000) start 0 (f32 0) wall
                (fun _ _ _ _ _ => eq_refl)) as [ Hdirect _ ].
    destruct (Hdirect eq_refl) as [ _ Hpoint ]. exact Hpoint.
  - destruct (@hit_point_by_pipeline (wall_at wall)
                (sensor_of (wall_at wall) 1 1 (Some same_frame))
                at_origin (at_x 1000) start 0 (f32 0) wall
                (fun _ _ _ _ _ => eq_refl)) as [ _ Hned ].
    exact (Hned same_frame eq_refl).
Defined.

(** C7, counterexample.  A sensor at (1000, 0, 0), without any rotation,
    with a range of 100 and frames that coincide, and a hit reported at
    (1050, 0, 0).  Without a transform the ray ends at (1100, 0, 0) and the
    point is (50, 0, 0); with a transform the ray ends at (0, 0, 0) and the
    point is (1050, 0, 0): the two points are 1000 apart. *)
Lemma pipelines_disagree :
  let wall := mkFVector (f32 1050) (f32 0) (f32 0) in
  let start := ray_origin (wall_at wall) at_origin (at_x 1000) in
  let direct := sensor_of (wall_at wall) 1 1 None in
  let quaternion := sensor_of (wall_at wall) 1 1 (Some same_frame) in
  filter is_raycast (shot_trace (wall_at wall) direct at_origin (at_x 1000) start 0 (f32 0))
  = [GetObstacle (Actor 1) (mkFVector (f32 1000) (f32 0) (f32 0))
       (mkFVector (f32 1100) (f32 0) (f32 0)) [] false]
  /\ filter is_raycast
       (shot_trace (wall_at wall) quaternion at_origin (at_x 1000) start 0 (f32 0))
     = [GetObstacle (Actor 1) (mkFVector (f32 1000) (f32 0) (f32 0))
          (mkFVector (f32 0) (f32 0) (f32 0)) [] false]
  /\ shot_point (wall_at wall) direct at_origin (at_x 1000) start 0 (f32 0)
     = mkVector3r (f32 50) (f32 0) (f32 0)
  /\ shot_point (wall_at wall) quaternion at_origin (at_x 1000) start 0 (f32 0)
     = mkVector3r (f32 1050) (f32 0) (f32 0)
  /\ close_to (f32 999)
       (shot_point (wall_at wall) direct at_origin (at_x 1000) start 0 (f32 0))
       (shot_point (wall_at wall) quaternion at_origin (at_x 1000) start 0 (f32 0))
     = false.
Proof. cbv zeta. repeat split; reflexivity. Qed.


(** ** The order of the cloud *)

Lemma flat_map_flat_map (A B C : Type) (f : B -> list C) (g : A -> list B) (l : list A) :
  flat_map f (flat_map g l) = flat_map (fun a => flat_map f (g a)) l.
Proof.
  induction l as [ | a l IH ]; simpl; [ reflexivity | ].
  rewrite flat_map_app, IH. reflexivity.
Qed.

Lemma flat_map_map (A B C : Type) (f : B -> list C) (h : A -> B) (l : list A) :
  flat_map f (map h l) = flat_map (fun a => f (h a)) l.
Proof.
  induction l as [ | a l IH ]; simpl; [ reflexivity | ].
  rewrite IH. reflexivity.
Qed.

(** In a concatenation of blocks of [c] elements, element [j] of block
    [k] is at position [k * c + j]. *)
Lemma nth_error_flat_map_block (A B : Type) (g : A -> list B) (c : nat) (l : list A) :
  (forall a, List.length (g a) = c) ->
  forall k j a, nth_error l k = Some a -> (j < c)%nat ->
    nth_error (flat_map g l) (k * c + j) = nth_error (g a) j.
Proof.
  intros Hg. induction l as [ | a0 l IH ]; intros k j a Hk Hj.
  - destruct k; discriminate.
  - destruct k as [ | k ]; simpl in Hk |- *.
    + injection Hk as ->. apply nth_error_app1. rewrite Hg. exact Hj.
    + rewrite nth_error_app2 by (rewrite Hg; lia).
      rewrite Hg. replace (c + k * c + j - c)%nat with (k * c + j)%nat by lia.
      apply IH; assumption.
Qed.

Lemma counters_nth_error (n i : Z) :
  0 <= i < n -> nth_error (counters n) (Z.to_nat i) = Some i.
Proof.
  intros Hi. unfold counters. rewrite counters_from_nth_error by lia.
  f_equal. lia.
Qed.

(** The position of a sample in the emission order. *)
Lemma emission_order_nth_error (H : Host) (p : LidarSimpleParams) (delta_time : double)
    (laser i : Z) :
  0 <= laser < number_of_channels p ->
  0 <= i < points_to_scan_with_one_laser H p delta_time ->
  nth_error (emission_order H p delta_time)
    (Z.to_nat laser * Z.to_nat (points_to_scan_with_one_laser H p delta_time)
     + Z.to_nat i)
  = Some (laser, i).
Proof.
  intros Hl Hi. unfold emission_order.
  rewrite nth_error_flat_map_block with (a := laser).
  - rewrite nth_error_map, counters_nth_error by assumption. reflexivity.
  - intros a. rewrite length_map. apply counters_length.
  - apply counters_nth_error. assumption.
  - lia.
Qed.

(** C8.  The content of the caller's buffer has no part in the result of
    a tick; the cloud holds three floats per sample; and it is the
    concatenation, in emission order (laser by laser, and for each laser
    by increasing sample index), of the coordinates x, y, z of the point
    of each sample: sample [i] of laser [laser] is sample number
    [laser * pointsPerLaser + i], and its coordinates are at three times
    that position. *)
Theorem point_cloud_fresh_ordered (H : Host) (this : UnrealLidarSensor)
    (lidar_pose vehicle_pose : Pose) (delta_time : double) (point_cloud : list float) :
  let p := params_ this in
  let per := points_to_scan_with_one_laser H p delta_time in
  let cloud :=
    fst (fst (getPointCloud H lidar_pose vehicle_pose delta_time point_cloud this)) in
  (forall other,
     getPointCloud H lidar_pose vehicle_pose delta_time other this
     = getPointCloud H lidar_pose vehicle_pose delta_time point_cloud this)
  /\ List.length cloud = (3 * List.length (emission_order H p delta_time))%nat
  /\ cloud
     = flat_map (fun s =>
                   coordinates
                     (sample_point H this lidar_pose vehicle_pose delta_time (fst s) (snd s)))
                (emission_order H p delta_time)
  /\ (forall laser i,
        0 <= laser < number_of_channels p -> 0 <= i < per ->
        let k := (Z.to_nat laser * Z.to_nat per + Z.to_nat i)%nat in
        let point := sample_point H this lidar_pose vehicle_pose delta_time laser i in
        nth_error (emission_order H p delta_time) k = Some (laser, i)
        /\ nth_error cloud (k * 3) = Some (vx point)
        /\ nth_error cloud (k * 3 + 1) = Some (vy point)
        /\ nth_error cloud (k * 3 + 2) = Some (vz point)).
Proof.
  cbv zeta.
  assert (Hcloud :
    fst (fst (getPointCloud H lidar_pose vehicle_pose delta_time point_cloud this))
    = flat_map (fun s =>
                  coordinates
                    (sample_point H this lidar_pose vehicle_pose delta_time (fst s) (snd s)))
               (emission_order H (params_ this) delta_time)).
  { rewrite getPointCloud_run. cbv zeta. unfold emission_order.
    rewrite flat_map_flat_map.
    destruct (Z.leb_spec (points_to_scan_with_one_laser H (params_ this) delta_time) 0)
      as [ Hle | Hgt ]; cbn [fst].
    - symmetry. apply flat_map_nil. intros a. unfold counters.
      replace (Z.to_nat (points_to_scan_with_one_laser H (params_ this) delta_time))
        with 0%nat by lia.
      reflexivity.
    - apply flat_map_ext. intros laser. rewrite flat_map_map. reflexivity. }
  assert (Hblock : forall s : Z * Z,
            List.length
              (coordinates
                 (sample_point H this lidar_pose vehicle_pose delta_time (fst s) (snd s)))
            = 3%nat) by reflexivity.
  split; [ intros other; rewrite !getPointCloud_run; reflexivity | ].
  split; [ rewrite Hcloud; apply flat_map_length_const; exact Hblock | ].
  split; [ exact Hcloud | ].
  intros laser i Hl Hi.
  pose proof (emission_order_nth_error H (params_ this) delta_time Hl Hi) as Hnth.
  split; [ exact Hnth | ].
  rewrite Hcloud.
  replace (Z.to_nat laser * Z.to_nat (points_to_scan_with_one_laser H (params_ this) delta_time)
           + Z.to_nat i)%nat
    with ((Z.to_nat laser * Z.to_nat (points_to_scan_with_one_laser H (params_ this) delta_time)
           + Z.to_nat i) * 1)%nat in Hnth by lia.
  rewrite Nat.mul_1_r in Hnth.
  split; [ | split ].
  - rewrite <- (Nat.add_0_r (_ * 3)).
    rewrite nth_error_flat_map_block with (a := (laser, i)) (c := 3%nat);
      [ reflexivity | exact Hblock | exact Hnth | lia ].
  - rewrite nth_error_flat_map_block with (a := (laser, i)) (c := 3%nat);
      [ reflexivity | exact Hblock | exact Hnth | lia ].
  - rewrite nth_error_flat_map_block with (a := (laser, i)) (c := 3%nat);
      [ reflexivity | exact Hblock | exact Hnth | lia ].
Qed.

(** The statement at two lasers of three samples each: sample 1 of laser 1
    is sample number 4, its coordinates are at positions 12, 13 and 14 of
    a cloud of 18 floats. *)
Lemma point_cloud_fresh_ordered_witness :
  let this := sensor_of empty_scene 2 6 None in
  let cloud := fst (fst (getPointCloud empty_scene at_origin at_origin one_second [] this)) in
  let point := sample_point empty_scene this at_origin at_origin one_second 1 1 in
  List.length cloud = 18%nat
  /\ nth_error (emission_order empty_scene (params_ this) one_second) 4 = Some (1, 1)
  /\ nth_error cloud 12 = Some (vx point)
  /\ nth_error cloud 13 = Some (vy point)
  /\ nth_error cloud 14 = Some (vz point).
Proof.
  cbv zeta.
  destruct (point_cloud_fresh_ordered empty_scene (sensor_of empty_scene 2 6 None)
              at_origin at_origin one_second []) as (_ & Hlen & _ & Hpos).
  split; [ exact Hlen | ].
  apply (Hpos 1 1); [ change (0 <= 1 < 2) | change (0 <= 1 < 3) ]; lia.
Defined.


(** ** The calls of one tick, sample by sample *)

Section Tick_rays.
Variable H : Host.

(** One call of [shootLaser]: its call of the raycast, and what it draws. *)
Lemma shot_ray (this : UnrealLidarSensor) (lidar_pose vehicle_pose : Pose)
    (start : Vector3r) (laser : Z) (horizontalAngle : float) :
  filter is_raycast
    (shot_trace H this lidar_pose vehicle_pose start laser horizontalAngle)
  = [GetObstacle (actor_ this) (shot_start this start)
       (shot_end H this lidar_pose start laser horizontalAngle)
       (ignore_collision_actors_ this) (ignore_pawn_collision_ this)].
Proof.
  unfold shot_start, shot_end. run_shot.
  destruct (ned_transform_ this) as [ ned | ];
    match goal with
    | |- context [ raycast H ?a ?b ?c ?d ?e ] => destruct (raycast H a b c d e)
    end;
    destruct (IsInGameThread H), (draw_debug_points_ this); reflexivity.
Qed.

Lemma shot_drawing (this : UnrealLidarSensor) (lidar_pose vehicle_pose : Pose)
    (start : Vector3r) (laser : Z) (horizontalAngle : float) :
  filter is_drawing
    (shot_trace H this lidar_pose vehicle_pose start laser horizontalAngle)
  = if draw_debug_points_ this then
      match shot_answer H this lidar_pose start laser horizontalAngle with
      | Some impact => if IsInGameThread H then [DrawDebugPoint impact Red] else []
      | None =>
          [DrawDebugPoint (shot_end H this lidar_pose start laser horizontalAngle) Green]
      end
    else [].
Proof.
  unfold shot_answer, shot_start, shot_end. run_shot.
  destruct (ned_transform_ this) as [ ned | ];
    match goal with
    | |- context [ raycast H ?a ?b ?c ?d ?e ] => destruct (raycast H a b c d e)
    end;
    destruct (IsInGameThread H), (draw_debug_points_ this); reflexivity.
Qed.

(** The emission order is empty when there is no budget. *)
Lemma emission_order_without_budget (p : LidarSimpleParams) (delta_time : double) :
  points_to_scan_with_one_laser H p delta_time <= 0 ->
  emission_order H p delta_time = [].
Proof.
  intros Hle. unfold emission_order. apply flat_map_nil. intros laser.
  unfold counters.
  replace (Z.to_nat (points_to_scan_with_one_laser H p delta_time)) with 0%nat by lia.
  reflexivity.
Qed.

(** A concatenation over lasers and samples, over the emission order. *)
Lemma flat_map_emission_order (A : Type) (g : Z -> Z -> list A) (p : LidarSimpleParams)
    (delta_time : double) :
  flat_map (fun laser =>
              flat_map (g laser) (counters (points_to_scan_with_one_laser H p delta_time)))
           (counters (number_of_channels p))
  = flat_map (fun s => g (fst s) (snd s)) (emission_order H p delta_time).
Proof.
  unfold emission_order. rewrite flat_map_flat_map.
  apply flat_map_ext. intros laser. rewrite flat_map_map. reflexivity.
Qed.

Lemma flat_map_singleton (A B : Type) (f : A -> B) (l : list A) :
  flat_map (fun a => [f a]) l = map f l.
Proof. induction l as [ | a l IH ]; simpl; [ reflexivity | rewrite IH; reflexivity ]. Qed.

End Tick_rays.

(** ** Debug drawing *)

(** With a transform, the point of a call of [shootLaser]. *)
Lemma ned_shot_point (H : Host) (this : UnrealLidarSensor) (ned : NedTransform)
    (lidar_pose vehicle_pose : Pose) (start : Vector3r) (laser : Z)
    (horizontalAngle : float) :
  ned_transform_ this = Some ned ->
  shot_point H this lidar_pose vehicle_pose start laser horizontalAngle
  = match ned_answer H this ned start with
    | Some impact => toLocalNed ned impact
    | None => ned_miss H this ned lidar_pose vehicle_pose start laser horizontalAngle
    end.
Proof.
  intros Hned. unfold ned_answer, ned_miss. run_shot. rewrite Hned.
  match goal with
  | |- context [ raycast H ?a ?b ?c ?d ?e ] => destruct (raycast H a b c d e)
  end;
  destruct (IsInGameThread H), (draw_debug_points_ this); reflexivity.
Qed.

(** The drawing flags do not change the call of the raycast, nor the point
    of a ray cast without a transform. *)
Lemma shot_debug_blind (H : Host) (this : UnrealLidarSensor) (member field : bool)
    (lidar_pose vehicle_pose : Pose) (start : Vector3r) (laser : Z)
    (horizontalAngle : float) :
  filter is_raycast
    (shot_trace H (with_debug member field this) lidar_pose vehicle_pose start laser
       horizontalAngle)
  = filter is_raycast
      (shot_trace H this lidar_pose vehicle_pose start laser horizontalAngle)
  /\ (ned_transform_ this = None ->
      shot_point H (with_debug member field this) lidar_pose vehicle_pose start laser
        horizontalAngle
      = shot_point H this lidar_pose vehicle_pose start laser horizontalAngle).
Proof.
  split.
  - rewrite !shot_ray. reflexivity.
  - intros Hned. run_shot. unfold with_debug, laser_angle.
    cbn [params_ actor_ ned_transform_ laser_angles_ current_horizontal_angle_
         ignore_collision_actors_ ignore_pawn_collision_ draw_debug_points_ range].
    rewrite Hned.
    match goal with
    | |- context [ raycast H ?a ?b ?c ?d ?e ] => destruct (raycast H a b c d e)
    end;
    destruct (IsInGameThread H), (draw_debug_points_ this), member; reflexivity.
Qed.

(** C9.  Two ticks that differ only in the debug-drawing flags of the
    sensor leave the same sweep angle, make the same calls of the raycast,
    write the same to the log and return as many points.  They return the
    same cloud when the sensor has no transform, and when it has one and
    the ray of the tick hits.  When, with a transform, the ray hits
    nothing, every point of either cloud is the same difference un-rotated
    by the two rotators that were never assigned, as the call that computes
    the point finds them: nothing makes them the same in the two runs. *)
Theorem debug_drawing_is_silent (H : Host) (this : UnrealLidarSensor)
    (member field : bool) (lidar_pose vehicle_pose : Pose) (delta_time : double)
    (point_cloud : list float) :
  let other := with_debug member field this in
  let plain := getPointCloud H lidar_pose vehicle_pose delta_time point_cloud this in
  let drawn := getPointCloud H lidar_pose vehicle_pose delta_time point_cloud other in
  let start := ray_origin H lidar_pose vehicle_pose in
  let samples := emission_order H (params_ this) delta_time in
  current_horizontal_angle_ (snd (fst drawn))
  = current_horizontal_angle_ (snd (fst plain))
  /\ filter is_raycast (snd drawn) = filter is_raycast (snd plain)
  /\ filter is_log (snd drawn) = filter is_log (snd plain)
  /\ List.length (fst (fst drawn)) = List.length (fst (fst plain))
  /\ (ned_transform_ this = None -> fst (fst drawn) = fst (fst plain))
  /\ (forall ned impact,
        ned_transform_ this = Some ned ->
        ned_answer H this ned start = Some impact ->
        fst (fst drawn) = fst (fst plain))
  /\ (forall ned,
        ned_transform_ this = Some ned ->
        ned_answer H this ned start = None ->
        fst (fst plain)
        = flat_map (fun s =>
                      coordinates
                        (sample_ned_miss H this ned lidar_pose vehicle_pose delta_time
                           (fst s) (snd s)))
                   samples
        /\ fst (fst drawn)
           = flat_map (fun s =>
                         coordinates
                           (sample_ned_miss H other ned lidar_pose vehicle_pose delta_time
                              (fst s) (snd s)))
                      samples).
Proof.
  cbv zeta.
  assert (Hper : points_to_scan_with_one_laser H (params_ (with_debug member field this))
                   delta_time
                 = points_to_scan_with_one_laser H (params_ this) delta_time)
    by reflexivity.
  assert (Hwarn : warning_of H (with_debug member field this) delta_time
                  = warning_of H this delta_time) by reflexivity.
  assert (Hangle : forall i,
            sample_angle H (current_horizontal_angle_ (with_debug member field this))
              (params_ (with_debug member field this)) delta_time i
            = sample_angle H (current_horizontal_angle_ this) (params_ this) delta_time i)
    by reflexivity.
  assert (Horder : emission_order H (params_ (with_debug member field this)) delta_time
                   = emission_order H (params_ this) delta_time) by reflexivity.
  assert (Hcloud : forall that,
            fst (fst (getPointCloud H lidar_pose vehicle_pose delta_time point_cloud that))
            = flat_map (fun s =>
                          coordinates
                            (sample_point H that lidar_pose vehicle_pose delta_time
                               (fst s) (snd s)))
                       (emission_order H (params_ that) delta_time)).
  { intros that. rewrite getPointCloud_run. cbv zeta.
    destruct (Z.leb_spec (points_to_scan_with_one_laser H (params_ that) delta_time) 0)
      as [ Hle | Hgt ]; cbn [fst].
    - rewrite emission_order_without_budget by exact Hle. reflexivity.
    - apply (flat_map_emission_order H
               (fun laser i =>
                  coordinates
                    (sample_point H that lidar_pose vehicle_pose delta_time laser i))). }
  split; [ | split; [ | split; [ | split; [ | split; [ | split ] ] ] ] ].
  - rewrite !getPointCloud_run. cbv zeta. rewrite Hper.
    destruct (points_to_scan_with_one_laser H (params_ this) delta_time <=? 0);
      reflexivity.
  - rewrite !getPointCloud_run. cbv zeta. rewrite Hper, Hwarn.
    destruct (points_to_scan_with_one_laser H (params_ this) delta_time <=? 0);
      cbn [snd]; [ reflexivity | ].
    rewrite !filter_app. f_equal. f_equal.
    + cbn [draw_debug_points_ with_debug].
      destruct member, (draw_debug_points_ this); reflexivity.
    + rewrite !filter_flat_map.
      apply flat_map_ext. intros laser. rewrite !filter_flat_map.
      apply flat_map_ext. intros i. unfold sample_trace. rewrite Hangle.
      apply shot_debug_blind.
  - rewrite !tick_log. exact Hwarn.
  - rewrite !tick_cloud_length, Hper. reflexivity.
  - intros Hned. rewrite !Hcloud, Horder.
    apply flat_map_ext. intros s. f_equal. unfold sample_point. rewrite Hangle.
    apply shot_debug_blind. exact Hned.
  - intros ned impact Hned Hhit. rewrite !Hcloud, Horder.
    apply flat_map_ext. intros s. f_equal. unfold sample_point. rewrite Hangle.
    rewrite (@ned_shot_point H (with_debug member field this) ned) by exact Hned.
    rewrite (@ned_shot_point H this ned) by exact Hned.
    change (ned_answer H (with_debug member field this) ned
              (ray_origin H lidar_pose vehicle_pose))
      with (ned_answer H this ned (ray_origin H lidar_pose vehicle_pose)).
    rewrite Hhit. reflexivity.
  - intros ned Hned Hmiss. rewrite !Hcloud, Horder. split.
    + apply flat_map_ext. intros s. f_equal. unfold sample_point, sample_ned_miss.
      rewrite (@ned_shot_point H this ned) by exact Hned.
      rewrite Hmiss. reflexivity.
    + apply flat_map_ext. intros s. f_equal. unfold sample_point, sample_ned_miss.
      rewrite (@ned_shot_point H (with_debug member field this) ned) by exact Hned.
      change (ned_answer H (with_debug member field this) ned
                (ray_origin H lidar_pose vehicle_pose))
        with (ned_answer H this ned (ray_origin H lidar_pose vehicle_pose)).
      rewrite Hmiss. reflexivity.
Qed.

(** C9 at a sensor 5 units along x with a transform, in an empty scene,
    over a tick of one sample, in a host where the place of the two
    rotators holds half a turn when the sensor draws and the zero rotator
    when it does not: the tick returns (-5, 0, 0) without drawing and
    (5, -0, 0) with it. *)
Lemma debug_drawing_is_silent_witness :
  let this := sensor_of stale_stack 1 1 (Some same_frame) in
  let plain := getPointCloud stale_stack at_origin (at_x 5) one_second [] this in
  let drawn :=
    getPointCloud stale_stack at_origin (at_x 5) one_second []
      (with_debug true true this) in
  fst (fst plain) = [f32 (-5); f32 0; f32 0]
  /\ fst (fst drawn) = [f32 5; S754_zero true; f32 0]
  /\ filter is_raycast (snd drawn) = filter is_raycast (snd plain)
  /\ IEEE.eqb (nth 0 (fst (fst drawn)) (f32 0)) (nth 0 (fst (fst plain)) (f32 0)) = false.
Proof.
  cbv zeta.
  destruct (@debug_drawing_is_silent stale_stack
              (sensor_of stale_stack 1 1 (Some same_frame)) true true
              at_origin (at_x 5) one_second [])
    as (_ & Hrays & _ & _ & _ & _ & Hmiss).
  destruct (Hmiss same_frame eq_refl eq_refl) as [Hplain Hdrawn].
  split; [ rewrite Hplain; reflexivity | ].
  split; [ rewrite Hdrawn; reflexivity | ].
  split; [ exact Hrays | ].
  rewrite Hplain, Hdrawn. reflexivity.
Defined.

(** ** What a tick leaves alone *)

(** A tick changes no member but the sweep angle. *)
Lemma tick_frame (H : Host) (this : UnrealLidarSensor) (t : Tick) :
  params_ (tick H this t) = params_ this
  /\ actor_ (tick H this t) = actor_ this
  /\ ned_transform_ (tick H this t) = ned_transform_ this
  /\ laser_angles_ (tick H this t) = laser_angles_ this
  /\ ignore_collision_actors_ (tick H this t) = ignore_collision_actors_ this
  /\ ignore_pawn_collision_ (tick H this t) = ignore_pawn_collision_ this
  /\ draw_debug_points_ (tick H this t) = draw_debug_points_ this.
Proof.
  unfold tick. rewrite getPointCloud_run. cbv zeta.
  destruct (points_to_scan_with_one_laser H (params_ this) (tick_delta_time t) <=? 0);
    repeat split.
Qed.

(** The sensor the constructor builds. *)
Lemma new_sensor (H : Host) (p : LidarSimpleParams) (a : AActor)
    (ned : option NedTransform) :
  UnrealLidarSensor_new H p a ned
  = mkSensor p a ned
      (laser_angles_ (UnrealLidarSensor_new H p a ned)) (f32 0)
      (if ignore_pawn_collision p && is_AUrdfLink H a then [GetOwningActor H a] else [])
      (ignore_pawn_collision p) (draw_debug_points p).
Proof.
  rewrite new_laser_angles.
  unfold UnrealLidarSensor_new, construct.
  unfold bind at 1, this_ at 1. unfold bind at 1.
  cbn [params_ member_init]. rewrite createLasers_run.
  unfold when, ignore_collision_actors_Add, bind, this_, set_ignore_pawn_collision,
    set_draw_debug_points, set_ignore_collision_actors, with_lasers, set_laser_angles, ret.
  cbn [fst snd laser_angles_ params_ actor_ ned_transform_ current_horizontal_angle_
       ignore_collision_actors_ ignore_pawn_collision_ draw_debug_points_ member_init].
  destruct (number_of_channels p <=? 0), (number_of_channels p =? 1),
    (ignore_pawn_collision p), (is_AUrdfLink H a); reflexivity.
Qed.

(** C10.  Whatever the ticks, a run of them leaves the parameters, the
    actor, the transform, the table of laser angles, the ignore set and
    the two flags of the sensor as they were; for a sensor fresh from the
    constructor these are the parameters it was given, the table
    [createLasers] built, the owner of the link if the pawn is to be
    ignored and the actor is a link (nothing otherwise), and the two flags
    of the parameters. *)
Theorem ticks_leave_the_sensor_alone (H : Host) (ticks : list Tick) :
  (forall this,
     params_ (run_ticks H ticks this) = params_ this
     /\ actor_ (run_ticks H ticks this) = actor_ this
     /\ ned_transform_ (run_ticks H ticks this) = ned_transform_ this
     /\ laser_angles_ (run_ticks H ticks this) = laser_angles_ this
     /\ ignore_collision_actors_ (run_ticks H ticks this) = ignore_collision_actors_ this
     /\ ignore_pawn_collision_ (run_ticks H ticks this) = ignore_pawn_collision_ this
     /\ draw_debug_points_ (run_ticks H ticks this) = draw_debug_points_ this)
  /\ (forall p a ned,
        let fresh := UnrealLidarSensor_new H p a ned in
        params_ (run_ticks H ticks fresh) = p
        /\ laser_angles_ (run_ticks H ticks fresh) = laser_angles_ fresh
        /\ ignore_collision_actors_ (run_ticks H ticks fresh)
           = (if ignore_pawn_collision p && is_AUrdfLink H a
              then [GetOwningActor H a] else [])
        /\ ignore_pawn_collision_ (run_ticks H ticks fresh) = ignore_pawn_collision p
        /\ draw_debug_points_ (run_ticks H ticks fresh) = draw_debug_points p).
Proof.
  assert (Hframe : forall this,
     params_ (run_ticks H ticks this) = params_ this
     /\ actor_ (run_ticks H ticks this) = actor_ this
     /\ ned_transform_ (run_ticks H ticks this) = ned_transform_ this
     /\ laser_angles_ (run_ticks H ticks this) = laser_angles_ this
     /\ ignore_collision_actors_ (run_ticks H ticks this) = ignore_collision_actors_ this
     /\ ignore_pawn_collision_ (run_ticks H ticks this) = ignore_pawn_collision_ this
     /\ draw_debug_points_ (run_ticks H ticks this) = draw_debug_points_ this).
  { unfold run_ticks. induction ticks as [ | t ticks' IH ]; intros this; cbn [fold_left].
    - repeat split.
    - destruct (IH (tick H this t)) as (I1 & I2 & I3 & I4 & I5 & I6 & I7).
      destruct (tick_frame H this t) as (T1 & T2 & T3 & T4 & T5 & T6 & T7).
      rewrite I1, I2, I3, I4, I5, I6, I7. repeat split; assumption. }
  split; [ exact Hframe | ].
  intros p a ned. cbv zeta.
  destruct (Hframe (UnrealLidarSensor_new H p a ned)) as (F1 & _ & _ & F4 & F5 & F6 & F7).
  rewrite F1, F4, F5, F6, F7.
  pose proof (new_sensor H p a ned) as E.
  split; [ rewrite E; reflexivity | ]. split; [ reflexivity | ].
  split; [ rewrite E; reflexivity | ]. split; rewrite E; reflexivity.
Qed.

(** ** Dense clouds *)

(** X1.  Every sample of every laser yields one point, hit or miss: a tick
    calls the raycast once per sample and returns three floats per sample,
    for [channelCount * pointsPerLaser] samples.  With four channels, 400
    points per second and a delta-time of one second the budget is 100
    points per laser and the cloud holds 400 points, whatever the host. *)
Theorem one_point_per_sample (H : Host) (this : UnrealLidarSensor)
    (lidar_pose vehicle_pose : Pose) (delta_time : double) (point_cloud : list float) :
  let p := params_ this in
  let per := points_to_scan_with_one_laser H p delta_time in
  let result := getPointCloud H lidar_pose vehicle_pose delta_time point_cloud this in
  List.length (filter is_raycast (snd result))
  = (Z.to_nat (number_of_channels p) * Z.to_nat per)%nat
  /\ List.length (fst (fst result))
     = (3 * (Z.to_nat (number_of_channels p) * Z.to_nat per))%nat
  /\ (forall ned,
        let four := sensor_of H 4 400 ned in
        points_to_scan_with_one_laser H (params_ four) one_second = 100
        /\ List.length
             (fst (fst (getPointCloud H lidar_pose vehicle_pose one_second point_cloud four)))
           = (3 * 400)%nat).
Proof.
  cbv zeta. split; [ apply tick_raycasts | ]. split; [ apply tick_cloud_length | ].
  intros ned.
  assert (Hp : params_ (sensor_of H 4 400 ned) = params_of 4 400).
  { unfold sensor_of. rewrite new_sensor. reflexivity. }
  assert (Hper : points_to_scan_with_one_laser H (params_ (sensor_of H 4 400 ned)) one_second
                 = 100) by (rewrite Hp; reflexivity).
  split; [ exact Hper | ].
  rewrite tick_cloud_length, Hper, Hp. reflexivity.
Qed.

(** X2.  Without a transform, a ray that hits nothing reports the end of
    the ray, at the range of the sensor, seen from the origin and taken to the
    frame of the sensor by the un-rotation that a hit goes through. *)
Theorem miss_reports_ray_end (H : Host) (this : UnrealLidarSensor)
    (lidar_pose vehicle_pose : Pose) (start : Vector3r) (laser : Z)
    (horizontalAngle : float) :
  ned_transform_ this = None ->
  raycast H (actor_ this) (FVector_of start)
    (direct_end H this lidar_pose start laser horizontalAngle)
    (ignore_collision_actors_ this) (ignore_pawn_collision_ this) = None ->
  shot_point H this lidar_pose vehicle_pose start laser horizontalAngle
  = to_sensor_frame H this lidar_pose
      (FVector_sub (direct_end H this lidar_pose start laser horizontalAngle)
         (FVector_of start)).
Proof.
  intros Hned. run_shot. rewrite Hned. intros ->.
  destruct (draw_debug_points_ this); reflexivity.
Qed.

(** In an empty scene, for a sensor 5 units along x without any rotation
    and a range of 100: the point of a miss is (100, 0, 0). *)
Lemma miss_reports_ray_end_witness :
  let this := sensor_of empty_scene 1 1 None in
  let start := ray_origin empty_scene at_origin (at_x 5) in
  shot_point empty_scene this at_origin (at_x 5) start 0 (f32 0)
  = mkVector3r (f32 100) (f32 0) (f32 0).
Proof.
  cbv zeta.
  rewrite (@miss_reports_ray_end empty_scene (sensor_of empty_scene 1 1 None)
             at_origin (at_x 5) (ray_origin empty_scene at_origin (at_x 5)) 0 (f32 0)
             eq_refl eq_refl).
  reflexivity.
Defined.


(** * Further properties

    ** The rays of a tick *)

(** X3.  The calls of the raycast a tick makes are, in emission order, one
    per sample: each is made for the actor of the sensor, with its ignore
    list and its ignore-pawn flag, from the one origin of the tick (taken
    through [fromLocalNed] when there is a transform) to the end of the ray
    of the sample. *)
Theorem tick_rays (H : Host) (this : UnrealLidarSensor)
    (lidar_pose vehicle_pose : Pose) (delta_time : double) (point_cloud : list float) :
  filter is_raycast
    (snd (getPointCloud H lidar_pose vehicle_pose delta_time point_cloud this))
  = map (fun s => sample_ray H this lidar_pose vehicle_pose delta_time (fst s) (snd s))
        (emission_order H (params_ this) delta_time).
Proof.
  rewrite getPointCloud_run. cbv zeta.
  assert (Hw : filter is_raycast (warning_of H this delta_time) = [])
    by (unfold warning_of; destruct (capped H (params_ this) delta_time); reflexivity).
  destruct (Z.leb_spec (points_to_scan_with_one_laser H (params_ this) delta_time) 0)
    as [ Hle | Hgt ]; cbn [snd].
  - rewrite emission_order_without_budget by exact Hle. exact Hw.
  - rewrite !filter_app, Hw. cbn [app].
    replace (filter is_raycast
               (if draw_debug_points_ this
                then [DrawDebugPoint (FVector_of (ray_origin H lidar_pose vehicle_pose)) Blue]
                else [])) with (@nil Event)
      by (destruct (draw_debug_points_ this); reflexivity).
    cbn [app]. rewrite filter_flat_map.
    rewrite <- flat_map_singleton.
    rewrite <- (flat_map_emission_order H
                  (fun laser i => [sample_ray H this lidar_pose vehicle_pose delta_time laser i])).
    apply flat_map_ext. intros laser. rewrite filter_flat_map.
    apply flat_map_ext. intros i. apply shot_ray.
Qed.

(** ** The debug markers of a tick *)

(** X4.  What a tick draws.  A sensor that does not draw draws nothing; so
    does a tick without budget, which returns before the first marker.
    Otherwise the tick draws a blue marker at the origin of the rays (its
    local coordinates, not taken through [fromLocalNed]) and then, in
    emission order, for every sample, a red marker at the impact of a hit
    when the call is made on the game thread, nothing for a hit on another
    thread, and a green marker at the end of a ray that hits nothing. *)
Theorem debug_markers (H : Host) (this : UnrealLidarSensor)
    (lidar_pose vehicle_pose : Pose) (delta_time : double) (point_cloud : list float) :
  filter is_drawing
    (snd (getPointCloud H lidar_pose vehicle_pose delta_time point_cloud this))
  = if draw_debug_points_ this
       && (0 <? points_to_scan_with_one_laser H (params_ this) delta_time)
    then DrawDebugPoint (FVector_of (ray_origin H lidar_pose vehicle_pose)) Blue
         :: flat_map (fun s => sample_marker H this lidar_pose vehicle_pose delta_time
                                 (fst s) (snd s))
              (emission_order H (params_ this) delta_time)
    else [].
Proof.
  rewrite getPointCloud_run. cbv zeta.
  assert (Hw : filter is_drawing (warning_of H this delta_time) = [])
    by (unfold warning_of; destruct (capped H (params_ this) delta_time); reflexivity).
  destruct (Z.leb_spec (points_to_scan_with_one_laser H (params_ this) delta_time) 0)
    as [ Hle | Hgt ]; cbn [snd].
  - replace (0 <? points_to_scan_with_one_laser H (params_ this) delta_time) with false
      by (symmetry; apply Z.ltb_ge; exact Hle).
    rewrite andb_false_r. exact Hw.
  - replace (0 <? points_to_scan_with_one_laser H (params_ this) delta_time) with true
      by (symmetry; apply Z.ltb_lt; exact Hgt).
    rewrite andb_true_r, !filter_app, Hw. cbn [app].
    rewrite filter_flat_map.
    rewrite <- (flat_map_emission_order H
                  (fun laser i =>
                     sample_marker H this lidar_pose vehicle_pose delta_time laser i)).
    destruct (draw_debug_points_ this) eqn:Hdraw; cbn [filter is_drawing app].
    + f_equal. apply flat_map_ext. intros laser. rewrite filter_flat_map.
      apply flat_map_ext. intros i. unfold sample_trace, sample_marker.
      rewrite shot_drawing, Hdraw. reflexivity.
    + apply flat_map_nil. intros laser. rewrite filter_flat_map.
      apply flat_map_nil. intros i. unfold sample_trace.
      rewrite shot_drawing, Hdraw. reflexivity.
Qed.

(** ** A tick with a transform *)

(** X5.  With a transform, every sample of a tick casts the same ray, from
    the image of the origin to the image of the zero vector, so that all
    the samples hit or all miss.  When they hit, every sample reports the
    impact taken to the local NED frame: the cloud is that one point, once
    per sample, whatever the lasers, the angles and the range.  When they
    miss, every sample reports the same difference, that of the two ends of
    the ray, un-rotated by the two rotators that were never assigned, as
    its call finds them. *)
Theorem ned_tick_one_ray (H : Host) (this : UnrealLidarSensor) (ned : NedTransform)
    (lidar_pose vehicle_pose : Pose) (delta_time : double) (point_cloud : list float) :
  ned_transform_ this = Some ned ->
  let result := getPointCloud H lidar_pose vehicle_pose delta_time point_cloud this in
  let start := ray_origin H lidar_pose vehicle_pose in
  let samples := emission_order H (params_ this) delta_time in
  filter is_raycast (snd result)
  = repeat (GetObstacle (actor_ this) (fromLocalNed ned start)
              (fromLocalNed ned Vector3r_Zero)
              (ignore_collision_actors_ this) (ignore_pawn_collision_ this))
           (List.length samples)
  /\ (forall impact,
        ned_answer H this ned start = Some impact ->
        fst (fst result)
        = concat (repeat (coordinates (toLocalNed ned impact)) (List.length samples)))
  /\ (ned_answer H this ned start = None ->
      fst (fst result)
      = flat_map (fun s =>
                    coordinates
                      (sample_ned_miss H this ned lidar_pose vehicle_pose delta_time
                         (fst s) (snd s)))
                 samples).
Proof.
  intros Hned. cbv zeta.
  assert (Hrep : forall (A B : Type) (c : B) (l : list A),
             map (fun _ => c) l = repeat c (List.length l)).
  { intros A B c l. induction l as [ | x l IH ]; simpl; [ | rewrite IH ]; reflexivity. }
  assert (Hcloud :
            fst (fst (getPointCloud H lidar_pose vehicle_pose delta_time point_cloud this))
            = flat_map (fun s =>
                          coordinates
                            (sample_point H this lidar_pose vehicle_pose delta_time
                               (fst s) (snd s)))
                       (emission_order H (params_ this) delta_time)).
  { rewrite getPointCloud_run. cbv zeta.
    destruct (Z.leb_spec (points_to_scan_with_one_laser H (params_ this) delta_time) 0)
      as [ Hle | Hgt ]; cbn [fst].
    - rewrite emission_order_without_budget by exact Hle. reflexivity.
    - apply (flat_map_emission_order H
               (fun laser i =>
                  coordinates
                    (sample_point H this lidar_pose vehicle_pose delta_time laser i))). }
  split; [ | split ].
  - rewrite getPointCloud_run. cbv zeta.
    assert (Hw : filter is_raycast (warning_of H this delta_time) = [])
      by (unfold warning_of; destruct (capped H (params_ this) delta_time); reflexivity).
    destruct (Z.leb_spec (points_to_scan_with_one_laser H (params_ this) delta_time) 0)
      as [ Hle | Hgt ]; cbn [snd].
    + rewrite emission_order_without_budget by exact Hle. exact Hw.
    + rewrite !filter_app, Hw. cbn [app].
      replace (filter is_raycast
                 (if draw_debug_points_ this
                  then [DrawDebugPoint (FVector_of (ray_origin H lidar_pose vehicle_pose)) Blue]
                  else [])) with (@nil Event)
        by (destruct (draw_debug_points_ this); reflexivity).
      cbn [app]. rewrite filter_flat_map, <- Hrep, <- flat_map_singleton.
      rewrite <- (flat_map_emission_order H
                    (fun _ _ => [GetObstacle (actor_ this)
                                   (fromLocalNed ned (ray_origin H lidar_pose vehicle_pose))
                                   (fromLocalNed ned Vector3r_Zero)
                                   (ignore_collision_actors_ this)
                                   (ignore_pawn_collision_ this)])).
      apply flat_map_ext. intros laser. rewrite filter_flat_map.
      apply flat_map_ext. intros i. unfold sample_trace.
      rewrite shot_ray. unfold shot_start, shot_end. rewrite Hned. reflexivity.
  - intros impact Hhit. rewrite Hcloud, <- Hrep, <- flat_map_concat_map.
    apply flat_map_ext. intros s. f_equal. unfold sample_point.
    rewrite (@ned_shot_point H this ned) by exact Hned. rewrite Hhit. reflexivity.
  - intros Hmiss. rewrite Hcloud.
    apply flat_map_ext. intros s. f_equal. unfold sample_point, sample_ned_miss.
    rewrite (@ned_shot_point H this ned) by exact Hned. rewrite Hmiss. reflexivity.
Qed.

(** X5 at a sensor of two lasers 5 units along x, with frames that
    coincide, over a tick of two samples per laser: in front of a wall at
    (50, 0, 0), four times the impact; in an empty scene, in a host where
    the two rotators are found zero at every call, four times the
    difference (-5, 0, 0). *)
Lemma ned_tick_one_ray_witness :
  let wall := wall_at (mkFVector (f32 50) (f32 0) (f32 0)) in
  let hit := getPointCloud wall at_origin (at_x 5) one_second []
               (sensor_of wall 2 4 (Some same_frame)) in
  let miss := getPointCloud empty_scene at_origin (at_x 5) one_second []
                (sensor_of empty_scene 2 4 (Some same_frame)) in
  filter is_raycast (snd hit)
  = repeat (GetObstacle (Actor 1) (mkFVector (f32 5) (f32 0) (f32 0))
              (mkFVector (f32 0) (f32 0) (f32 0)) [] false) 4
  /\ fst (fst hit) = concat (repeat [f32 50; f32 0; f32 0] 4)
  /\ fst (fst miss) = concat (repeat [f32 (-5); f32 0; f32 0] 4).
Proof.
  cbv zeta.
  destruct (@ned_tick_one_ray (wall_at (mkFVector (f32 50) (f32 0) (f32 0)))
              (sensor_of (wall_at (mkFVector (f32 50) (f32 0) (f32 0))) 2 4
                 (Some same_frame))
              same_frame at_origin (at_x 5) one_second [] eq_refl)
    as (Hrays & Hhit & _).
  destruct (@ned_tick_one_ray empty_scene (sensor_of empty_scene 2 4 (Some same_frame))
              same_frame at_origin (at_x 5) one_second [] eq_refl)
    as (_ & _ & Hmiss).
  split; [ exact Hrays | ].
  split; [ exact (Hhit (mkFVector (f32 50) (f32 0) (f32 0)) eq_refl) | ].
  rewrite (Hmiss eq_refl). reflexivity.
Defined.

(** ** Runs of ticks *)

(** What a run of ticks keeps. *)
Lemma run_ticks_frame (H : Host) (ticks : list Tick) :
  forall this,
    params_ (run_ticks H ticks this) = params_ this
    /\ laser_angles_ (run_ticks H ticks this) = laser_angles_ this.
Proof.
  unfold run_ticks.
  induction ticks as [ | t ticks IH ]; intros this; cbn [fold_left].
  - split; reflexivity.
  - destruct (IH (tick H this t)) as [E1 E2].
    destruct (tick_frame H this t) as (F1 & _ & _ & F2 & _).
    rewrite E1, E2, F1, F2. split; reflexivity.
Qed.

(** Over a delta-time of zero no point is requested. *)
Lemma raw_total_at_zero (H : Host) (p : LidarSimpleParams) (s : bool) :
  0 <= points_per_second p < 2 ^ 32 -> raw_total H p (S754_zero s) = 0.
Proof.
  intros Hpps. destruct binary64_ok as [P1 P2].
  unfold raw_total, rounded_total.
  destruct (@of_Z_nonneg IEEE.binary64 (points_per_second p) P1 P2 ltac:(lia))
    as [ [_ E] | [Hpos [ (m & e & E) | E ] ] ].
  - unfold f64. rewrite E. reflexivity.
  - unfold f64. rewrite E. reflexivity.
  - exfalso. unfold IEEE.of_Z, binary_normalize in E.
    destruct (points_per_second p) as [ | n | n ] eqn:En; try lia.
    destruct (@binary_round_small _ P1 P2 false n) as (m & e & E' & _).
    + change (IEEE.prec IEEE.binary64) with 53.
      assert (2 ^ 32 < 2 ^ 53) by (apply Z.pow_lt_mono_r; lia). lia.
    + rewrite E' in E. discriminate.
Qed.

(** X6.  A tick of zero duration does nothing at all: for a sensor with at
    least one channel it returns an empty cloud, leaves the sensor as it
    was, the sweep angle included, and logs, draws and casts nothing; so a
    run of ticks ends in the same sensor with and without it. *)
Theorem zero_tick_is_dropped (H : Host) (this : UnrealLidarSensor)
    (before after : list Tick) (t : Tick) :
  0 <= points_per_second (params_ this) < 2 ^ 32 ->
  0 < number_of_channels (params_ this) ->
  (exists s, tick_delta_time t = S754_zero s) ->
  let sensor := run_ticks H before this in
  getPointCloud H (tick_lidar_pose t) (tick_vehicle_pose t) (tick_delta_time t)
    (tick_buffer t) sensor
  = ([], sensor, [])
  /\ run_ticks H (before ++ t :: after) this = run_ticks H (before ++ after) this.
Proof.
  intros Hpps Hn [s Hs]. cbv zeta.
  destruct (run_ticks_frame H before this) as [Ep _].
  assert (Hrun : getPointCloud H (tick_lidar_pose t) (tick_vehicle_pose t)
                   (tick_delta_time t) (tick_buffer t) (run_ticks H before this)
                 = ([], run_ticks H before this, [])).
  { rewrite getPointCloud_run. cbv zeta. rewrite Ep, Hs.
    rewrite no_budget_at_zero by assumption. cbn [Z.leb Z.compare].
    unfold warning_of. rewrite Ep, capped_iff.
    rewrite raw_total_at_zero by assumption. reflexivity. }
  split; [ exact Hrun | ].
  unfold run_ticks in *. rewrite !fold_left_app. cbn [fold_left].
  unfold tick at 2. rewrite Hrun. reflexivity.
Qed.

(** X6 on a sensor of four channels at 400 points per second, between two
    ticks of a tenth of a second. *)
Lemma zero_tick_is_dropped_witness :
  let this := sensor_of empty_scene 4 400 None in
  let moving := mkTick at_origin at_origin tenth [] in
  let still := mkTick at_origin at_origin (f64 0) [] in
  getPointCloud empty_scene at_origin at_origin (f64 0) []
    (run_ticks empty_scene [moving] this)
  = ([], run_ticks empty_scene [moving] this, [])
  /\ run_ticks empty_scene ([moving] ++ still :: [moving]) this
     = run_ticks empty_scene ([moving] ++ [moving]) this.
Proof.
  cbv zeta.
  apply (@zero_tick_is_dropped empty_scene (sensor_of empty_scene 4 400 None)
           [mkTick at_origin at_origin tenth []] [mkTick at_origin at_origin tenth []]
           (mkTick at_origin at_origin (f64 0) [])).
  - simpl. lia.
  - simpl. lia.
  - exists false. reflexivity.
Defined.

(** ** The table of laser angles, again *)

(** X7.  [createLasers] on a sensor that already has a table.  Without a
    channel it returns before the table is cleared: the sensor, its old
    table included, is left as it was.  With a channel or more it replaces
    the table by one that has an entry per channel and does not depend on
    the old one, and touches nothing else; in particular, running it twice
    is running it once. *)
Theorem createLasers_rebuilds (p : LidarSimpleParams) (this : UnrealLidarSensor) :
  let rebuilt := snd (fst (createLasers p this)) in
  (number_of_channels p <= 0 -> rebuilt = this)
  /\ (1 <= number_of_channels p ->
      rebuilt = with_lasers this (laser_angles_ rebuilt)
      /\ laser_angles_ rebuilt
         = laser_angles_ (snd (fst (createLasers p (with_lasers this []))))
      /\ List.length (laser_angles_ rebuilt) = Z.to_nat (number_of_channels p)
      /\ snd (fst (createLasers p rebuilt)) = rebuilt).
Proof.
  cbv zeta. rewrite !createLasers_run. cbn [fst snd]. split.
  - intros Hle. apply Z.leb_le in Hle. rewrite Hle.
    unfold with_lasers. destruct this; reflexivity.
  - intros Hge.
    assert (Hgt : (number_of_channels p <=? 0) = false) by (apply Z.leb_gt; lia).
    cbn [fst snd]. rewrite ?Hgt.
    unfold with_lasers; cbn [laser_angles_ params_ actor_ ned_transform_
      current_horizontal_angle_ ignore_collision_actors_ ignore_pawn_collision_
      draw_debug_points_].
    repeat split. unfold set_laser_angles. cbn [fst snd laser_angles_].
    destruct (Z.eqb_spec (number_of_channels p) 1) as [ E | NE ].
    + rewrite E. reflexivity.
    + rewrite length_map, counters_length. reflexivity.
Qed.

(** X7 on a table of three stale angles: kept without a channel, replaced
    by the two bounds of the field of view with two channels. *)
Lemma createLasers_rebuilds_witness :
  let this := with_lasers (sensor_of empty_scene 1 1 None) [f32 1; f32 2; f32 3] in
  snd (fst (createLasers (params_of 0 1) this)) = this
  /\ laser_angles_ (snd (fst (createLasers (params_of 2 1) this))) = [f32 10; f32 (-10)]
  /\ snd (fst (createLasers (params_of 2 1) (snd (fst (createLasers (params_of 2 1) this)))))
     = snd (fst (createLasers (params_of 2 1) this)).
Proof.
  cbv zeta. split; [ | split ].
  - apply (proj1 (createLasers_rebuilds (params_of 0 1)
                    (with_lasers (sensor_of empty_scene 1 1 None) [f32 1; f32 2; f32 3]))).
    change (0 <= 0). lia.
  - reflexivity.
  - apply (proj2 (createLasers_rebuilds (params_of 2 1)
                    (with_lasers (sensor_of empty_scene 1 1 None) [f32 1; f32 2; f32 3]))).
    change (1 <= 2). lia.
Defined.

(** ** The index into the table *)

(** The lasers of a tick are the channels. *)
Lemma emission_order_laser (H : Host) (p : LidarSimpleParams) (delta_time : double)
    (laser i : Z) :
  In (laser, i) (emission_order H p delta_time) ->
  0 <= laser < number_of_channels p.
Proof.
  unfold emission_order. rewrite in_flat_map. intros (l & Hl & Hin).
  apply in_map_iff in Hin. destruct Hin as (i' & E & _). cbv beta in E.
  injection E as -> _.
  apply In_nth_error in Hl. destruct Hl as [k Hk].
  assert (Hlen : (k < List.length (counters (number_of_channels p)))%nat)
    by (apply nth_error_Some; congruence).
  rewrite counters_length in Hlen.
  unfold counters in Hk. rewrite counters_from_nth_error in Hk by exact Hlen.
  injection Hk as <-. lia.
Qed.

(** X8.  [laser_angles_[laser]] is never read out of bounds by a sensor
    the constructor built: after any run of ticks, for every sample of a
    tick, the index of the laser is below the length of the table, and the
    vertical angle of the ray is the entry of the table at that index. *)
Theorem laser_index_in_bounds (H : Host) (p : LidarSimpleParams) (a : AActor)
    (ned : option NedTransform) (ticks : list Tick) (delta_time : double)
    (laser i : Z) :
  let sensor := run_ticks H ticks (UnrealLidarSensor_new H p a ned) in
  In (laser, i) (emission_order H (params_ sensor) delta_time) ->
  (Z.to_nat laser < List.length (laser_angles_ sensor))%nat
  /\ nth_error (laser_angles_ sensor) (Z.to_nat laser) = Some (laser_angle H sensor laser).
Proof.
  cbv zeta. intros Hin.
  destruct (run_ticks_frame H ticks (UnrealLidarSensor_new H p a ned)) as [Ep El].
  rewrite Ep in Hin. apply emission_order_laser in Hin.
  rewrite (new_sensor H p a ned) in Hin at 1. cbn [params_] in Hin.
  assert (Hlen : (Z.to_nat laser < List.length (laser_angles_ (run_ticks H ticks (UnrealLidarSensor_new H p a ned))))%nat).
  { rewrite El, new_laser_angles.
    destruct (Z.leb_spec (number_of_channels p) 0); [ lia | ].
    destruct (Z.eqb_spec (number_of_channels p) 1) as [ E | NE ].
    - cbn [List.length]. lia.
    - rewrite length_map, counters_length. lia. }
  split; [ exact Hlen | ].
  unfold laser_angle. apply nth_error_nth'. exact Hlen.
Qed.

(** X8 on a sensor of two channels, after one tick: laser 1 reads the
    second entry of the table, the lower bound of the field of view. *)
Lemma laser_index_in_bounds_witness :
  let sensor := run_ticks empty_scene [mkTick at_origin at_origin one_second []]
                  (sensor_of empty_scene 2 4 None) in
  (Z.to_nat 1 < List.length (laser_angles_ sensor))%nat
  /\ nth_error (laser_angles_ sensor) (Z.to_nat 1) = Some (f32 (-10)).
Proof.
  cbv zeta.
  apply (@laser_index_in_bounds empty_scene (params_of 2 4) (Actor 1) None
           [mkTick at_origin at_origin one_second []] one_second 1 0).
  vm_compute. right. right. left. reflexivity.
Defined.

(** ** The sweep angle stays within a turn *)

Section Fits.
Variable f : IEEE.format.
Hypothesis prec_gt_1 : 1 < IEEE.prec f.
Hypothesis prec_lt_emax : IEEE.prec f < IEEE.emax f.

(** The exponent of a shifted mantissa is at least [emin]. *)
Lemma shr_fexp_emin (m e : Z) (l : location) :
  emin (IEEE.prec f) (IEEE.emax f)
  <= snd (shr_fexp (IEEE.prec f) (IEEE.emax f) m e l).
Proof.
  unfold shr_fexp, shr.
  assert (Hf : emin (IEEE.prec f) (IEEE.emax f)
               <= fexp (IEEE.prec f) (IEEE.emax f) (Zdigits2 m + e))
    by (unfold fexp; lia).
  destruct (fexp (IEEE.prec f) (IEEE.emax f) (Zdigits2 m + e) - e) as [ | k | k ] eqn:Hk;
    cbn [snd]; lia.
Qed.

Lemma binary_round_aux_emin (s : bool) (m e : Z) (l : location)
    (s' : bool) (m' : positive) (e' : Z) :
  binary_round_aux (IEEE.prec f) (IEEE.emax f) s m e l = S754_finite s' m' e' ->
  emin (IEEE.prec f) (IEEE.emax f) <= e'.
Proof.
  unfold binary_round_aux.
  destruct (shr_fexp (IEEE.prec f) (IEEE.emax f) m e l) as [mrs1 e1].
  pose proof (shr_fexp_emin
                (round_nearest_even (shr_m mrs1) (loc_of_shr_record mrs1)) e1 loc_Exact) as B.
  destruct (shr_fexp (IEEE.prec f) (IEEE.emax f)
              (round_nearest_even (shr_m mrs1) (loc_of_shr_record mrs1)) e1 loc_Exact)
    as [mrs2 e2].
  cbn [snd] in B.
  destruct (shr_m mrs2) as [ | q | q ]; try discriminate.
  destruct (e2 <=? IEEE.emax f - IEEE.prec f); try discriminate.
  intros E. injection E as _ _ <-. exact B.
Qed.

(** What rounding returns fits the format. *)
Lemma binary_round_fits (s : bool) (m : positive) (e : Z) :
  fits f (binary_round (IEEE.prec f) (IEEE.emax f) s m e).
Proof.
  unfold binary_round.
  destruct (shl_align m e (fexp (IEEE.prec f) (IEEE.emax f) (Zpos (digits2_pos m) + e)))
    as [mz ez].
  destruct (binary_round_aux (IEEE.prec f) (IEEE.emax f) s (Zpos mz) ez loc_Exact)
    as [ | | | s' m' e' ] eqn:E; cbn [fits]; try exact I.
  split.
  - apply (@binary_round_aux_bounded f prec_gt_1 s (Zpos mz) ez loc_Exact s' m' e');
      [ lia | exact E ].
  - apply (binary_round_aux_emin _ _ _ _ E).
Qed.

Lemma binary_normalize_fits (m e : Z) (szero : bool) :
  fits f (binary_normalize (IEEE.prec f) (IEEE.emax f) m e szero).
Proof.
  unfold binary_normalize. destruct m; [ exact I | | ]; apply binary_round_fits.
Qed.

Lemma add_fits (x y : spec_float) :
  fits f x -> fits f y -> fits f (IEEE.add f x y).
Proof.
  intros Hx Hy. unfold IEEE.add, SFadd.
  destruct x as [ sx | sx | | sx mx ex ], y as [ sy | sy | | sy my ey ];
    try exact I; try assumption;
    try (destruct sx, sy; exact I).
  apply binary_normalize_fits.
Qed.

Lemma convert_fits (x : spec_float) : fits f (IEEE.convert f x).
Proof.
  unfold IEEE.convert. destruct x; try exact I. apply binary_normalize_fits.
Qed.

(** A mantissa that fits, at an exponent that fits, is a float exactly. *)
Lemma binary_round_exact (s : bool) (n : positive) (e : Z) :
  Zpos n < 2 ^ IEEE.prec f ->
  emin (IEEE.prec f) (IEEE.emax f) <= e <= IEEE.emax f - IEEE.prec f ->
  exists m' e',
    binary_round (IEEE.prec f) (IEEE.emax f) s n e = S754_finite s m' e'
    /\ emin (IEEE.prec f) (IEEE.emax f) <= e' <= e
    /\ Zpos m' = Zpos n * 2 ^ (e - e')
    /\ Zpos m' < 2 ^ IEEE.prec f.
Proof.
  intros Hn He. pose proof (digits2_pos_bounds n) as [Bl Bu].
  set (d := Zpos (digits2_pos n)) in *.
  assert (Hd : d <= IEEE.prec f).
  { destruct (Z_le_gt_dec d (IEEE.prec f)) as [|Hgt]; [assumption|].
    assert (2 ^ IEEE.prec f <= 2 ^ (d - 1)) by (apply Z.pow_le_mono_r; lia). lia. }
  assert (Hd1 : 1 <= d) by (subst d; lia).
  unfold binary_round, shl_align.
  set (e0 := fexp (IEEE.prec f) (IEEE.emax f) (Zpos (digits2_pos n) + e)).
  assert (Hf : emin (IEEE.prec f) (IEEE.emax f) <= e0 <= e /\
               d + e - IEEE.prec f <= e0).
  { subst e0. unfold fexp. fold d. lia. }
  assert (Hf' : e0 = Z.max (d + e - IEEE.prec f) (emin (IEEE.prec f) (IEEE.emax f)))
    by (subst e0; unfold fexp; fold d; reflexivity).
  destruct (e0 - e) as [ | k | k ] eqn:Hk.
  - exists n, e. split; [ | split; [ lia | split; [ rewrite Z.sub_diag; simpl; lia | exact Hn ] ] ].
    apply binary_round_aux_canonical; [ | lia ].
    unfold canonical_mantissa. apply Z.eqb_eq. fold e0. lia.
  - lia.
  - exists (Pos.iter xO n k), e0.
    assert (Hs : Zpos (Pos.iter xO n k) = Zpos n * 2 ^ Zpos k)
      by apply iter_xO_mul.
    assert (Hdig : Zpos (digits2_pos (Pos.iter xO n k)) = d + Zpos k).
    { apply digits2_pos_unique. rewrite Hs.
      replace (d + Zpos k - 1) with ((d - 1) + Zpos k) by lia.
      rewrite !Z.pow_add_r by lia.
      assert (0 < 2 ^ Zpos k) by (apply Z.pow_pos_nonneg; lia). nia. }
    assert (Hlt : Zpos (Pos.iter xO n k) < 2 ^ IEEE.prec f).
    { rewrite Hs.
      assert (2 ^ (d + Zpos k) <= 2 ^ IEEE.prec f) by (apply Z.pow_le_mono_r; lia).
      rewrite Z.pow_add_r in * by lia.
      assert (0 < 2 ^ Zpos k) by (apply Z.pow_pos_nonneg; lia). nia. }
    split; [ | split; [ lia | split; [ | exact Hlt ] ] ].
    + apply binary_round_aux_canonical; [ | lia ].
      unfold canonical_mantissa. apply Z.eqb_eq. rewrite Hdig.
      replace (d + Zpos k + e0) with (d + e) by lia.
      fold d in e0. reflexivity.
    + rewrite Hs. f_equal. f_equal. lia.
Qed.

End Fits.

(** The remainder of a division by 360 is less than 360 away from zero. *)
Lemma fmod_360 (x : float) :
  fits IEEE.binary32 x ->
  fits IEEE.binary32 (IEEE.fmod IEEE.binary32 x (f32 360))
  /\ within_a_turn (IEEE.fmod IEEE.binary32 x (f32 360)) = true
  /\ (sign_bit x = false -> sign_bit (IEEE.fmod IEEE.binary32 x (f32 360)) = false).
Proof.
  destruct binary32_ok as [P1 P2].
  change (f32 360) with (S754_finite false 11796480 (-15)).
  destruct x as [ sx | sx | | sx mx ex ]; intros Hx.
  - destruct sx; (split; [ exact I | split; [ reflexivity | intros E; exact E ] ]).
  - split; [ exact I | split; reflexivity ].
  - split; [ exact I | split; reflexivity ].
  - destruct Hx as [Hm He].
    change (IEEE.prec IEEE.binary32) with 24 in Hm.
    change (emin (IEEE.prec IEEE.binary32) (IEEE.emax IEEE.binary32)) with (-149) in He.
    unfold IEEE.fmod. cbv zeta.
    set (ez := Z.min ex (-15)).
    set (X := Z.shiftl (Zpos mx) (ex - ez)).
    set (Y := Z.shiftl 11796480 (-15 - ez)).
    assert (HY : 0 < Y).
    { subst Y. rewrite Z.shiftl_mul_pow2 by lia.
      assert (0 < 2 ^ (-15 - ez)) by (apply Z.pow_pos_nonneg; lia). lia. }
    assert (HX : 0 <= X).
    { subst X. apply Z.shiftl_nonneg. lia. }
    pose proof (Z.mod_pos_bound X Y HY) as [R0 RY].
    assert (HR : X mod Y < 2 ^ 24).
    { destruct (Z.le_gt_cases ex (-15)) as [ Hle | Hgt ].
      - assert (X = Zpos mx) by (subst X ez; rewrite Z.min_l by lia; rewrite Z.sub_diag; reflexivity).
        pose proof (Z.mod_le X Y HX HY). lia.
      - assert (Y = 11796480)
          by (subst Y ez; rewrite Z.min_r by lia; reflexivity).
        assert (11796480 < 2 ^ 24) by reflexivity. lia. }
    destruct (X mod Y) as [ | r | r ] eqn:ER; [ | | lia ].
    + destruct sx; (split; [ exact I | split; [ reflexivity | intros E; exact E ] ]).
    + assert (E : binary_normalize (IEEE.prec IEEE.binary32) (IEEE.emax IEEE.binary32)
                    (cond_Zopp sx (Zpos r)) ez sx
                  = binary_round (IEEE.prec IEEE.binary32) (IEEE.emax IEEE.binary32) sx r ez)
        by (destruct sx; reflexivity).
      rewrite E.
      destruct (@binary_round_exact IEEE.binary32 P1 sx r ez) as (m' & e' & -> & Be & Hm' & Hlt).
      * exact HR.
      * change (emin (IEEE.prec IEEE.binary32) (IEEE.emax IEEE.binary32)) with (-149).
        change (IEEE.emax IEEE.binary32 - IEEE.prec IEEE.binary32) with 104. lia.
      * change (emin (IEEE.prec IEEE.binary32) (IEEE.emax IEEE.binary32)) with (-149) in Be.
        split; [ | split; [ | intros Hs; exact Hs ] ].
        -- cbn [fits]. split; [ exact Hlt | ].
           change (emin (IEEE.prec IEEE.binary32) (IEEE.emax IEEE.binary32)) with (-149). lia.
        -- unfold within_a_turn, IEEE.ltb, SFltb.
           change (f32 360) with (S754_finite false 11796480 (-15)).
           cbn [IEEE.is_nan orb SFabs SFcompare].
           destruct (Z.compare_spec e' (-15)) as [ Heq | Hlt' | Hgt ].
           ++ assert (Hez : ez = -15) by lia.
              assert (HYv : Y = 11796480) by (subst Y; rewrite Hez; reflexivity).
              assert (Hr : Zpos m' < 11796480).
              { rewrite Hm', Hez, Heq. change (2 ^ (-15 - -15)) with 1. lia. }
              change (Pos.compare_cont Eq m' 11796480) with (Z.compare (Zpos m') 11796480).
              apply Z.compare_lt_iff in Hr. rewrite Hr. reflexivity.
           ++ reflexivity.
           ++ lia.
Qed.

(** *** Signs *)

Lemma binary_round_aux_sign (prec emax : Z) (m e : Z) (l : location) :
  sign_bit (binary_round_aux prec emax false m e l) = false.
Proof.
  unfold binary_round_aux.
  destruct (shr_fexp prec emax m e l) as [mrs1 e1].
  destruct (shr_fexp prec emax (round_nearest_even (shr_m mrs1) (loc_of_shr_record mrs1))
              e1 loc_Exact) as [mrs2 e2].
  destruct (shr_m mrs2); [ reflexivity | | reflexivity ].
  destruct (e2 <=? emax - prec); reflexivity.
Qed.

Lemma binary_round_sign (prec emax : Z) (m : positive) (e : Z) :
  sign_bit (binary_round prec emax false m e) = false.
Proof.
  unfold binary_round.
  destruct (shl_align m e (fexp prec emax (Zpos (digits2_pos m) + e))) as [mz ez].
  apply binary_round_aux_sign.
Qed.

Lemma mul_sign (f : IEEE.format) (a b : spec_float) :
  sign_bit a = false -> sign_bit b = false -> sign_bit (IEEE.mul f a b) = false.
Proof.
  unfold IEEE.mul, SFmul.
  destruct a as [ sa | sa | | sa ma ea ], b as [ sb | sb | | sb mb eb ];
    cbn [sign_bit]; intros Ha Hb; try subst sa; try subst sb; try reflexivity.
  apply binary_round_aux_sign.
Qed.

Lemma convert_sign (f : IEEE.format) (x : spec_float) :
  sign_bit x = false -> sign_bit (IEEE.convert f x) = false.
Proof.
  unfold IEEE.convert. destruct x as [ s | s | | s m e ]; cbn [sign_bit];
    intros Hs; try exact Hs.
  subst s. apply binary_round_sign.
Qed.

Lemma add_sign (f : IEEE.format) (a b : spec_float) :
  sign_bit a = false -> sign_bit b = false -> sign_bit (IEEE.add f a b) = false.
Proof.
  unfold IEEE.add, SFadd.
  destruct a as [ sa | sa | | sa ma ea ], b as [ sb | sb | | sb mb eb ];
    cbn [sign_bit]; intros Ha Hb; try subst sa; try subst sb; try reflexivity.
  cbn [cond_Zopp]. unfold binary_normalize.
  destruct (Zpos (fst (shl_align ma ea (Z.min ea eb)))
            + Zpos (fst (shl_align mb eb (Z.min ea eb)))) eqn:E; try lia.
  apply binary_round_sign.
Qed.

Lemma of_Z_sign (f : IEEE.format) (n : Z) :
  0 <= n -> sign_bit (IEEE.of_Z f n) = false.
Proof.
  intros Hn. unfold IEEE.of_Z, binary_normalize.
  destruct n as [ | n | n ]; [ reflexivity | apply binary_round_sign | lia ].
Qed.

(** An angle that has no sign bit and is within a turn is in [0, 360). *)
Lemma within_a_turn_first (a : float) :
  sign_bit a = false -> within_a_turn a = true -> in_first_turn a = true.
Proof.
  unfold within_a_turn, in_first_turn.
  destruct a as [ s | s | | s m e ]; cbn [sign_bit]; intros Hs; try subst s;
    try (intros _; reflexivity); try discriminate.
  cbn [SFabs IEEE.is_nan orb]. intros ->. reflexivity.
Qed.

(** *** One tick, then a run of ticks *)

Lemma angle_distance_of_tick_fits (p : LidarSimpleParams) (delta_time : double) :
  fits IEEE.binary32 (angle_distance_of_tick p delta_time).
Proof. apply convert_fits. exact (proj1 binary32_ok). Qed.

Lemma angle_distance_of_tick_sign (p : LidarSimpleParams) (delta_time : double) :
  0 <= horizontal_rotation_frequency p -> sign_bit delta_time = false ->
  sign_bit (angle_distance_of_tick p delta_time) = false.
Proof.
  intros Hf Hd. unfold angle_distance_of_tick.
  apply convert_sign, mul_sign; [ | exact Hd ].
  apply convert_sign, mul_sign; apply of_Z_sign; lia.
Qed.

(** The sweep angle after a tick, from a sweep angle that fits the
    format. *)
Lemma tick_sweep (H : Host) (this : UnrealLidarSensor) (t : Tick) :
  let before := current_horizontal_angle_ this in
  let after := current_horizontal_angle_ (tick H this t) in
  fits IEEE.binary32 before ->
  fits IEEE.binary32 after
  /\ (within_a_turn before = true -> within_a_turn after = true)
  /\ (0 <= horizontal_rotation_frequency (params_ this) ->
      sign_bit (tick_delta_time t) = false ->
      sign_bit before = false -> sign_bit after = false).
Proof.
  cbv zeta. intros Hfit. unfold tick. rewrite getPointCloud_run. cbv zeta.
  destruct (points_to_scan_with_one_laser H (params_ this) (tick_delta_time t) <=? 0);
    cbn [fst snd].
  - split; [ exact Hfit | split; [ intros Hw; exact Hw | intros _ _ Hs; exact Hs ] ].
  - unfold with_angle, set_current_horizontal_angle. cbn [fst snd current_horizontal_angle_].
    unfold advanced_angle.
    destruct (@fmod_360 (current_horizontal_angle_ this
                         +f angle_distance_of_tick (params_ this) (tick_delta_time t)))
      as (F & W & S).
    { apply add_fits; [ exact (proj1 binary32_ok) | exact Hfit | ].
      apply angle_distance_of_tick_fits. }
    split; [ exact F | split; [ intros _; exact W | ] ].
    intros Hf Hd Hs. apply S, add_sign; [ exact Hs | ].
    apply angle_distance_of_tick_sign; assumption.
Qed.

Lemma run_ticks_sweep (H : Host) (ticks : list Tick) :
  forall this,
    fits IEEE.binary32 (current_horizontal_angle_ this) ->
    within_a_turn (current_horizontal_angle_ this) = true ->
    fits IEEE.binary32 (current_horizontal_angle_ (run_ticks H ticks this))
    /\ within_a_turn (current_horizontal_angle_ (run_ticks H ticks this)) = true
    /\ (0 <= horizontal_rotation_frequency (params_ this) ->
        Forall (fun t => sign_bit (tick_delta_time t) = false) ticks ->
        sign_bit (current_horizontal_angle_ this) = false ->
        sign_bit (current_horizontal_angle_ (run_ticks H ticks this)) = false).
Proof.
  unfold run_ticks.
  induction ticks as [ | t ticks IH ]; intros this Hfit Hw; cbn [fold_left].
  - split; [ exact Hfit | split; [ exact Hw | intros _ _ Hs; exact Hs ] ].
  - destruct (tick_sweep H this t Hfit) as (F & W & S).
    destruct (IH (tick H this t) F (W Hw)) as (F' & W' & S').
    split; [ exact F' | split; [ exact W' | ] ].
    intros Hf Hall Hs. inversion Hall as [ | t' ticks' Ht Hrest ]; subst.
    apply S'; [ | exact Hrest | apply S; assumption ].
    destruct (tick_frame H this t) as (-> & _). exact Hf.
Qed.

(** X9.  The sweep angle of a sensor the constructor built is, after any
    run of ticks, whatever the delta-times, the parameters and the scene,
    less than a full turn away from zero, or not a number (as when a
    delta-time is infinite). *)
Theorem sweep_within_a_turn (H : Host) (p : LidarSimpleParams) (a : AActor)
    (ned : option NedTransform) (ticks : list Tick) :
  within_a_turn
    (current_horizontal_angle_ (run_ticks H ticks (UnrealLidarSensor_new H p a ned)))
  = true.
Proof.
  apply run_ticks_sweep; rewrite new_sensor; cbn [current_horizontal_angle_].
  - exact I.
  - reflexivity.
Qed.

(** X10.  When the rotation frequency is not negative and no tick has a
    negative delta-time, the sweep angle of a sensor the constructor built
    is, after any run of ticks, in [0, 360), or not a number. *)
Theorem sweep_in_first_turn (H : Host) (p : LidarSimpleParams) (a : AActor)
    (ned : option NedTransform) (ticks : list Tick) :
  0 <= horizontal_rotation_frequency p ->
  Forall (fun t => sign_bit (tick_delta_time t) = false) ticks ->
  in_first_turn
    (current_horizontal_angle_ (run_ticks H ticks (UnrealLidarSensor_new H p a ned)))
  = true.
Proof.
  intros Hf Hall.
  destruct (run_ticks_sweep H ticks (UnrealLidarSensor_new H p a ned)) as (_ & W & S).
  - rewrite new_sensor. exact I.
  - rewrite new_sensor. reflexivity.
  - apply within_a_turn_first; [ | exact W ].
    apply S; [ | exact Hall | ].
    + rewrite new_sensor. exact Hf.
    + rewrite new_sensor. reflexivity.
Qed.

(** X10 on twelve ticks of a tenth of a second at one revolution per
    second: the sweep has gone past a full turn and is back in the first
    one. *)
Lemma sweep_in_first_turn_witness :
  let ticks := repeat (mkTick at_origin at_origin tenth []) 12 in
  in_first_turn
    (current_horizontal_angle_
       (run_ticks empty_scene ticks (sensor_of empty_scene 1 10 None)))
  = true.
Proof.
  cbv zeta.
  apply (@sweep_in_first_turn empty_scene (params_of 1 10) (Actor 1) None
           (repeat (mkTick at_origin at_origin tenth []) 12)).
  - change (0 <= 1). lia.
  - repeat constructor.
Defined.

(** Over a negative delta-time the sweep can go backwards, below zero: at
    -0.01 s, with a conversion to [uint32] as a 64-bit x86 compiler emits
    it (which leaves a budget), a fresh sensor ends at about -3.6
    degrees. *)
Lemma sweep_goes_negative :
  let this := sensor_of empty_scene 4 400 None in
  let back := mkTick at_origin at_origin (IEEE.div IEEE.binary64 (f64 (-1)) (f64 100)) [] in
  within_a_turn (current_horizontal_angle_ (tick empty_scene this back)) = true
  /\ in_first_turn (current_horizontal_angle_ (tick empty_scene this back)) = false
  /\ IEEE.ltb (current_horizontal_angle_ (tick empty_scene this back)) (f32 0) = true.
Proof.
  cbv zeta. unfold tick. rewrite getPointCloud_run. repeat split; lazy; reflexivity.
Qed.

(** ** The scan pattern and the scene *)

Section Two_hosts.
Variables H1 H2 : Host.
Hypothesis same_conversion :
  forall v, out_of_range_uint32 H1 v = out_of_range_uint32 H2 v.

Lemma to_uint32_ext (v : spec_float) : to_uint32 H1 v = to_uint32 H2 v.
Proof. unfold to_uint32. rewrite same_conversion. reflexivity. Qed.

Lemma points_to_scan_with_one_laser_ext (p : LidarSimpleParams) (delta_time : double) :
  points_to_scan_with_one_laser H1 p delta_time
  = points_to_scan_with_one_laser H2 p delta_time.
Proof.
  unfold points_to_scan_with_one_laser, per_laser, total_points_to_scan, capped,
    raw_total.
  rewrite !to_uint32_ext. reflexivity.
Qed.

Lemma tick_sweep_ext (this1 this2 : UnrealLidarSensor) (t1 t2 : Tick) :
  params_ this1 = params_ this2 ->
  current_horizontal_angle_ this1 = current_horizontal_angle_ this2 ->
  tick_delta_time t1 = tick_delta_time t2 ->
  current_horizontal_angle_ (tick H1 this1 t1)
  = current_horizontal_angle_ (tick H2 this2 t2).
Proof.
  intros Hp Ha Hd. unfold tick. rewrite !getPointCloud_run. cbv zeta.
  rewrite points_to_scan_with_one_laser_ext, Hp, Hd.
  destruct (points_to_scan_with_one_laser H2 (params_ this2) (tick_delta_time t2) <=? 0);
    cbn [fst snd].
  - exact Ha.
  - unfold with_angle, set_current_horizontal_angle.
    cbn [fst snd current_horizontal_angle_]. rewrite Ha. reflexivity.
Qed.

Lemma run_ticks_sweep_ext (ticks1 : list Tick) :
  forall ticks2 this1 this2,
    params_ this1 = params_ this2 ->
    current_horizontal_angle_ this1 = current_horizontal_angle_ this2 ->
    map tick_delta_time ticks1 = map tick_delta_time ticks2 ->
    current_horizontal_angle_ (run_ticks H1 ticks1 this1)
    = current_horizontal_angle_ (run_ticks H2 ticks2 this2).
Proof.
  unfold run_ticks.
  induction ticks1 as [ | t1 ticks1 IH ]; intros [ | t2 ticks2 ] this1 this2 Hp Ha Hd;
    try discriminate; cbn [fold_left].
  - exact Ha.
  - cbn [map] in Hd. injection Hd as Hd Hrest.
    apply IH; [ | apply tick_sweep_ext; assumption | exact Hrest ].
    destruct (tick_frame H1 this1 t1) as (-> & _).
    destruct (tick_frame H2 this2 t2) as (-> & _). exact Hp.
Qed.

End Two_hosts.

(** X11.  The scan pattern does not depend on the scene: two sensors with
    the same parameters and the same sweep angle, ticked over the same
    delta-times in two hosts (other scenes, poses, actors, transforms,
    threads), end with the same sweep angle, and their next tick has the
    same budget per laser and the same horizontal angle for every sample.
    The hosts have to agree only on what an out-of-range conversion to
    [uint32] yields. *)
Theorem scan_pattern_ignores_the_scene (H1 H2 : Host) (ticks1 ticks2 : list Tick)
    (this1 this2 : UnrealLidarSensor) :
  (forall v, out_of_range_uint32 H1 v = out_of_range_uint32 H2 v) ->
  params_ this1 = params_ this2 ->
  current_horizontal_angle_ this1 = current_horizontal_angle_ this2 ->
  map tick_delta_time ticks1 = map tick_delta_time ticks2 ->
  let s1 := run_ticks H1 ticks1 this1 in
  let s2 := run_ticks H2 ticks2 this2 in
  current_horizontal_angle_ s1 = current_horizontal_angle_ s2
  /\ forall delta_time,
       points_to_scan_with_one_laser H1 (params_ s1) delta_time
       = points_to_scan_with_one_laser H2 (params_ s2) delta_time
       /\ forall i,
            sample_angle H1 (current_horizontal_angle_ s1) (params_ s1) delta_time i
            = sample_angle H2 (current_horizontal_angle_ s2) (params_ s2) delta_time i.
Proof.
  intros Hc Hp Ha Hd. cbv zeta.
  pose proof (@run_ticks_sweep_ext H1 H2 Hc ticks1 ticks2 this1 this2 Hp Ha Hd) as Hs.
  destruct (run_ticks_frame H1 ticks1 this1) as [E1 _].
  destruct (run_ticks_frame H2 ticks2 this2) as [E2 _].
  split; [ exact Hs | ].
  intros delta_time. rewrite E1, E2, Hs, Hp.
  split; [ apply points_to_scan_with_one_laser_ext; exact Hc | ].
  intros i. unfold sample_angle, angle_distance_of_laser_measure.
  rewrite (@points_to_scan_with_one_laser_ext H1 H2 Hc). reflexivity.
Qed.

(** X11 on a tick in an empty scene and the same tick in front of a wall,
    from another pose, with a transform. *)
Lemma scan_pattern_ignores_the_scene_witness :
  let wall := wall_at (mkFVector (f32 50) (f32 0) (f32 0)) in
  let s1 := run_ticks empty_scene [mkTick at_origin at_origin tenth []]
              (sensor_of empty_scene 2 40 None) in
  let s2 := run_ticks wall [mkTick at_origin (at_x 5) tenth [f32 1]]
              (sensor_of wall 2 40 (Some same_frame)) in
  current_horizontal_angle_ s1 = current_horizontal_angle_ s2
  /\ forall delta_time,
       points_to_scan_with_one_laser empty_scene (params_ s1) delta_time
       = points_to_scan_with_one_laser wall (params_ s2) delta_time
       /\ forall i,
            sample_angle empty_scene (current_horizontal_angle_ s1) (params_ s1)
              delta_time i
            = sample_angle wall (current_horizontal_angle_ s2) (params_ s2) delta_time i.
Proof.
  cbv zeta.
  apply (@scan_pattern_ignores_the_scene empty_scene
           (wall_at (mkFVector (f32 50) (f32 0) (f32 0)))
           [mkTick at_origin at_origin tenth []] [mkTick at_origin (at_x 5) tenth [f32 1]]
           (sensor_of empty_scene 2 40 None)
           (sensor_of (wall_at (mkFVector (f32 50) (f32 0) (f32 0))) 2 40 (Some same_frame)));
    reflexivity.
Defined.
